(** * Nappi: sleep/wake detection and aggregation pipeline

    Part I is a shallow embedding of the components the specification
    covers:

    - [Debouncer]     : [VerdictDebouncer] of [m5stack_final.py]
    - [StateMachine]  : [handle_state_transition] of [m5stack_final.py]
    - [SleepState]    : [SleepStateManager] of [services/sleep_state.py]
    - [SensorEvents]  : the sensor endpoints of [api/sensor_events.py]
    - [EventLoop]     : the same endpoints, cut at their awaits of the
                        database
    - [SleepBlocks]   : [group_into_sleep_blocks] of [utils/sleep_blocks.py]

    Part II restates the properties of the specification as definitions of
    their own, and Part III proves them of the embedding.

    Conventions.  Python integers are [Z].  A [datetime] is a number of
    microseconds since a fixed origin, a [Z]; all datetimes of one run are
    of the same kind, naive or aware, so that they compare and subtract,
    and none is near the ends of the range of [datetime].  A Python float
    that holds minutes is a rational [Q], and [round(x, 2)] of such a float
    is a hundredth nearest to it.  A dictionary whose iteration
    order the code depends on is an association list in insertion order;
    the other dictionaries are [gmap]s.  A Python function that can raise
    returns an [option], [None] standing for the exception. *)

From Stdlib Require Import ZArith QArith Qabs Lia List Ascii String Bool Permutation Sorted.
From stdpp Require Import gmap strings list fin_maps sorting.
Import ListNotations.

#[local] Set Warnings "-register-all".
#[local] Open Scope Z_scope.

(* ===================================================================== *)
(** * Part I.  The embedding                                              *)
(* ===================================================================== *)

(** ** MicroPython's [time.ticks_*]

    [time.ticks_ms()] is a millisecond counter that wraps around after
    [TICKS_PERIOD], a value that differs from port to port; [ticks_add] and
    [ticks_diff] are the wrap-around arithmetic on it.  The argument of
    [ticks_ms] is the true number of milliseconds elapsed since the counter
    was last at zero. *)
Module Ticks.

Section Period.

Variable TICKS_PERIOD : Z.

Definition ticks_ms (clock : Z) : Z := clock mod TICKS_PERIOD.

Definition ticks_add (t delta : Z) : Z := (t + delta) mod TICKS_PERIOD.

Definition ticks_diff (a b : Z) : Z :=
  (a - b + TICKS_PERIOD / 2) mod TICKS_PERIOD - TICKS_PERIOD / 2.

End Period.

(** The period of the ESP32 port, which the M5Stack Core2 runs. *)
Definition ESP32_TICKS_PERIOD : Z := 2 ^ 30.

End Ticks.

(** ** Python numbers *)
Module Py.

(** [int(x)] of a float: truncation towards zero. *)
Definition int (x : Q) : Z := Z.quot (Qnum x) (Zpos (Qden x)).

(** [x > 0] for a float. *)
Definition is_positive (x : Q) : bool := 0 <? Qnum x.

(** Microseconds in a minute: [timedelta.total_seconds() / 60.0] divides a
    difference of datetimes by it. *)
Definition MINUTE : positive := 60000000.

(** [(a - b).total_seconds() / 60.0] for two datetimes. *)
Definition minutes_between (a b : Z) : Q := (a - b) # MINUTE.

(** Rounding to the nearest integer, ties to even: what [timedelta] does to
    a fractional number of microseconds. *)
Definition round_half_even (x : Q) : Z :=
  let n := Qnum x in
  let d := Zpos (Qden x) in
  let f := n / d in
  match 2 * (n - f * d) ?= d with
  | Lt => f
  | Gt => f + 1
  | Eq => if Z.even f then f else f + 1
  end.

(** [timedelta(minutes=m)], in microseconds. *)
Definition timedelta_minutes (m : Q) : Z :=
  round_half_even (Qmult m (Zpos MINUTE # 1)).

(** [round(x, ndigits)] of a float, for [ndigits >= 0]: the multiple of
    [10 ** -ndigits] nearest to [x], and of two equally near ones the even
    one, as [round] documents.  A float that stands for a number exactly
    halfway between two multiples is a little above or below it, and
    [round] then goes by the float: which of the two neighbours the code
    returns there is not determined by the rational. *)
Definition round (x : Q) (ndigits : Z) : Q :=
  let scale := Z.to_pos (10 ^ ndigits) in
  Qred (round_half_even (Qmult x (Zpos scale # 1)) # scale).

End Py.

(** ** Python dictionaries with insertion order ([counts], [scores]) *)
Module PyDict.

Definition dict : Type := list (string * Z).

(** [d.get(k, dflt)] *)
Fixpoint get (d : dict) (k : string) (dflt : Z) : Z :=
  match d with
  | [] => dflt
  | (k', x) :: d' => if String.eqb k' k then x else get d' k dflt
  end.

(** [d[k] = x]: an existing key keeps its place, a new key goes last. *)
Fixpoint set (d : dict) (k : string) (x : Z) : dict :=
  match d with
  | [] => [(k, x)]
  | (k', x') :: d' =>
      if String.eqb k' k then (k', x) :: d' else (k', x') :: set d' k x
  end.

Definition keys (d : dict) : list string := map fst d.

(** [max(first :: rest, key=key)]: the first element whose key is maximal
    (a later element replaces the best one only when strictly greater). *)
Definition max_by (key : string -> Z) (first : string) (rest : list string) : string :=
  fold_left (fun best k => if key best <? key k then k else best) rest first.

End PyDict.

(** ** [VerdictDebouncer] *)
Module Debouncer.
Import Ticks.

(** A buffered reading [(t, v, c)]: tick, verdict, confidence. *)
Definition reading : Type := Z * string * Z.

Record VerdictDebouncer : Type := {
  _window_ms : Z;
  _threshold : Z;
  _buffer : list reading
}.

(** [__init__(window_s, threshold)]: [int(window_s * 1000)] truncates. *)
Definition new (window_s : Q) (threshold : Z) : VerdictDebouncer :=
  {| _window_ms := Py.int (Qmult window_s (1000 # 1));
     _threshold := threshold;
     _buffer := [] |}.

Definition DEBOUNCE_WINDOW_S : Q := 25 # 1.
Definition DEBOUNCE_THRESHOLD : Z := 600.

Definition verdict_debouncer : VerdictDebouncer :=
  new DEBOUNCE_WINDOW_S DEBOUNCE_THRESHOLD.

(** The pruning comprehension of [feed], on a port of tick period
    [period]. *)
Definition prune (period cutoff : Z) (buffer : list reading) : list reading :=
  List.filter (fun '(t, _, _) => 0 <=? ticks_diff period t cutoff) buffer.

(** The tally loop of [feed]: occurrences and confidence sum per verdict. *)
Definition tally (buffer : list reading) : PyDict.dict * PyDict.dict :=
  fold_left
    (fun '(counts, scores) '(_, v, c) =>
       (PyDict.set counts v (PyDict.get counts v 0 + 1),
        PyDict.set scores v (PyDict.get scores v 0 + c)))
    buffer ([], []).

(** The dominance loop of [feed]: [false] when it returns [None]. *)
Definition dominant (counts : PyDict.dict) (best : string) (best_count : Z) : bool :=
  forallb
    (fun '(v, cnt) => negb (negb (String.eqb v best) && (best_count <? cnt * 3)))
    counts.

(** What [feed] answers once [counts] is known not to be empty;
    [first :: rest] are the keys of [counts] in the order [max] meets them. *)
Definition verdict_from (threshold : Z) (counts scores : PyDict.dict)
    (first : string) (rest : list string) : option string :=
  let best := PyDict.max_by (fun k => PyDict.get counts k 0) first rest in
  let best_count := PyDict.get counts best 0 in
  let best_score := PyDict.get scores best 0 in
  if dominant counts best best_count then
    if threshold <=? best_score then Some best else None
  else None.

(** What [feed] answers from the pruned buffer. *)
Definition consensus (threshold : Z) (buffer : list reading) : option string :=
  let '(counts, scores) := tally buffer in
  match PyDict.keys counts with
  | [] => None
  | first :: rest => verdict_from threshold counts scores first rest
  end.

(** [feed(verdict, confidence)], run when the clock reads [clock], on a
    port of tick period [period]. *)
Definition feed (period clock : Z) (verdict : string) (confidence : Z)
    (self : VerdictDebouncer) : VerdictDebouncer * option string :=
  let now := ticks_ms period clock in
  let buffer := _buffer self ++ [(now, verdict, confidence)] in
  let cutoff := ticks_add period now (- _window_ms self) in
  let buffer := prune period cutoff buffer in
  ({| _window_ms := _window_ms self;
      _threshold := _threshold self;
      _buffer := buffer |},
   consensus (_threshold self) buffer).

(** A schedule of feeds [(clock, verdict, confidence)], run in order. *)
Definition run_feeds (period : Z) (sched : list (Z * string * Z))
    (self : VerdictDebouncer) : VerdictDebouncer :=
  fold_left (fun d '(clock, v, c) => fst (feed period clock v c d)) sched self.

End Debouncer.

(** ** The lifecycle state machine *)
Module StateMachine.

(** [current_state]: ["awake" | "asleep" | "away"]. *)
Inductive state : Type := awake | asleep | away.

(** The endpoints [post_event] is called with. *)
Inductive event : Type := sleep_start | sleep_end | baby_away.

Definition initial_state : state := away.

(** [handle_state_transition(new_verdict)]: the new [current_state] and the
    events posted, in order. *)
Definition handle_state_transition (current_state : state)
    (new_verdict : option string) : state * list event :=
  match new_verdict with
  | None => (current_state, [])
  | Some verdict =>
      let prev := current_state in
      if String.eqb verdict "Asleep" then
        match prev with
        | asleep => (current_state, [])
        | _ => (asleep, [sleep_start])
        end
      else if String.eqb verdict "Awake" then
        match prev with
        | asleep => (awake, [sleep_end])
        | away => (awake, [])
        | awake => (current_state, [])
        end
      else if String.eqb verdict "No Baby Found" then
        match prev with
        | asleep | awake => (away, [baby_away])
        | away => (away, [])
        end
      else (current_state, [])
  end.

(** The tick loop feeding debounced verdicts one after the other. *)
Fixpoint run (current_state : state) (verdicts : list (option string))
    : state * list event :=
  match verdicts with
  | [] => (current_state, [])
  | v :: rest =>
      let '(s, out) := handle_state_transition current_state v in
      let '(s', out') := run s rest in
      (s', out ++ out')
  end.

End StateMachine.

(** ** [SleepStateManager] *)
Module SleepState.

Definition INTERVENTION_COOLDOWN_MINUTES : Z := 20.

Record SleepSession : Type := {
  baby_id : Z;
  start_time : Z
}.

(** [_sleeping_babies] is the session registry, [_intervention_cooldowns]
    maps a baby to [cooldown_until].  Every method runs under [_lock] and
    holds no [await] inside, so each is one state transformer; [utcnow] is
    what [datetime.utcnow()] reads inside the method. *)
Record SleepStateManager : Type := {
  _sleeping_babies : gmap Z SleepSession;
  _intervention_cooldowns : gmap Z Z
}.

Definition init : SleepStateManager :=
  {| _sleeping_babies := ∅; _intervention_cooldowns := ∅ |}.

Definition start_sleep (utcnow : Z) (baby : Z) (self : SleepStateManager)
    : SleepStateManager * SleepSession :=
  match _sleeping_babies self !! baby with
  | Some existing => (self, existing)
  | None =>
      let session := {| baby_id := baby; start_time := utcnow |} in
      ({| _sleeping_babies := <[baby := session]> (_sleeping_babies self);
          _intervention_cooldowns := _intervention_cooldowns self |},
       session)
  end.

(** [self._sleeping_babies.pop(baby_id, None)] *)
Definition end_sleep (baby : Z) (self : SleepStateManager)
    : SleepStateManager * option SleepSession :=
  let session := _sleeping_babies self !! baby in
  let self' :=
    {| _sleeping_babies := delete baby (_sleeping_babies self);
       _intervention_cooldowns := _intervention_cooldowns self |} in
  match session with
  | None => (self', None)
  | Some s => (self', Some s)
  end.

Definition get_sleeping_babies (self : SleepStateManager) : list Z :=
  map fst (map_to_list (_sleeping_babies self)).

Definition get_sleep_session (baby : Z) (self : SleepStateManager)
    : option SleepSession :=
  _sleeping_babies self !! baby.

Definition start_intervention_cooldown (utcnow : Z) (baby : Z)
    (self : SleepStateManager) : SleepStateManager * Z :=
  let cooldown_until :=
    utcnow + INTERVENTION_COOLDOWN_MINUTES * Zpos Py.MINUTE in
  ({| _sleeping_babies := _sleeping_babies self;
      _intervention_cooldowns :=
        <[baby := cooldown_until]> (_intervention_cooldowns self) |},
   cooldown_until).

Definition is_in_cooldown (utcnow : Z) (baby : Z) (self : SleepStateManager)
    : SleepStateManager * bool :=
  match _intervention_cooldowns self !! baby with
  | None => (self, false)
  | Some cooldown_until =>
      if utcnow <? cooldown_until then (self, true)
      else
        ({| _sleeping_babies := _sleeping_babies self;
            _intervention_cooldowns :=
              delete baby (_intervention_cooldowns self) |},
         false)
  end.

Definition get_cooldown_remaining (utcnow : Z) (baby : Z)
    (self : SleepStateManager) : SleepStateManager * option Z :=
  match _intervention_cooldowns self !! baby with
  | None => (self, None)
  | Some cooldown_until =>
      let remaining := Py.minutes_between cooldown_until utcnow in
      if Py.is_positive remaining then (self, Some (Py.int remaining + 1))
      else
        ({| _sleeping_babies := _sleeping_babies self;
            _intervention_cooldowns :=
              delete baby (_intervention_cooldowns self) |},
         None)
  end.

End SleepState.

(** ** The sensor event endpoints

    Each handler takes the clock readings of the [datetime.utcnow()] calls
    it makes, in the order it makes them, and what its collaborators answer
    ([known_babies]: the ids of [get_babies_list]; [event_id]: the answer of
    [set_baby_awaking_event]).  The insight, the alert and the last sensor
    readings of [sleep_end] do not touch the tracker and are left out. *)
Module SensorEvents.
Import SleepState.

Inductive response : Type :=
| CooldownIgnored (cooldown_remaining_minutes : option Z)
    (* HTTPException 200, detail = {"ignored": True,
       "reason": "intervention_cooldown", "cooldown_remaining_minutes": _} *)
| NotFound                       (* HTTPException 404 *)
| NotSleeping                    (* HTTPException 400 *)
| RecordFailed                   (* HTTPException 500 *)
| SleepStartResponse (baby : Z) (sleep_started_at : Z)
| AwakeningEventResponse (baby : Z) (event : Z)
    (sleep_started_at awakened_at : Z) (sleep_duration_minutes : Q)
| BabyAwayResponse (baby : Z) (was_sleeping : bool)
    (tracking : option (Z * Z * Q))
    (* tracking_started_at, away_at, tracking_duration_minutes *)
| InterventionResponse (baby : Z) (status : string)
    (cooldown_minutes : Z) (cooldown_until : Z)
| InvalidAction.                 (* HTTPException 400 *)

Definition baby_exists (known_babies : list Z) (baby : Z) : bool :=
  existsb (Z.eqb baby) known_babies.

(** [POST /sensor/sleep-start] *)
Definition sleep_start (t_check t_remaining t_start : Z) (known_babies : list Z)
    (baby : Z) (sleep_state : SleepStateManager)
    : SleepStateManager * response :=
  let '(sleep_state, in_cooldown) := is_in_cooldown t_check baby sleep_state in
  if in_cooldown then
    let '(sleep_state, remaining) :=
      get_cooldown_remaining t_remaining baby sleep_state in
    (sleep_state, CooldownIgnored remaining)
  else if negb (baby_exists known_babies baby) then (sleep_state, NotFound)
  else
    let '(sleep_state, session) := start_sleep t_start baby sleep_state in
    (sleep_state, SleepStartResponse baby (start_time session)).

(** [POST /sensor/sleep-end] *)
Definition sleep_end (awakened_at t_check t_remaining : Z) (event_id : option Z)
    (baby : Z) (sleep_state : SleepStateManager)
    : SleepStateManager * response :=
  let '(sleep_state, in_cooldown) := is_in_cooldown t_check baby sleep_state in
  if in_cooldown then
    let '(sleep_state, remaining) :=
      get_cooldown_remaining t_remaining baby sleep_state in
    (sleep_state, CooldownIgnored remaining)
  else
    let '(sleep_state, session) := end_sleep baby sleep_state in
    match session with
    | None => (sleep_state, NotSleeping)
    | Some session =>
        let sleep_duration :=
          Py.minutes_between awakened_at (start_time session) in
        match event_id with
        | None => (sleep_state, RecordFailed)
        | Some event_id =>
            (sleep_state,
             AwakeningEventResponse baby event_id (start_time session)
               awakened_at (Py.round sleep_duration 2))
        end
    end.

(** [POST /sensor/baby-away] *)
Definition baby_away (away_at : Z) (baby : Z) (sleep_state : SleepStateManager)
    : SleepStateManager * response :=
  let '(sleep_state, session) := end_sleep baby sleep_state in
  match session with
  | None => (sleep_state, BabyAwayResponse baby false None)
  | Some session =>
      let tracking_duration :=
        Py.minutes_between away_at (start_time session) in
      (sleep_state,
       BabyAwayResponse baby true
         (Some (start_time session, away_at, Py.round tracking_duration 2)))
  end.

(** [POST /sensor/intervention], [action] already lower-cased. *)
Definition parent_intervention (t_cooldown t_start : Z) (known_babies : list Z)
    (baby : Z) (action : string) (sleep_state : SleepStateManager)
    : SleepStateManager * response :=
  if negb (String.eqb action "mark_asleep" || String.eqb action "mark_awake")
  then (sleep_state, InvalidAction)
  else if negb (baby_exists known_babies baby) then (sleep_state, NotFound)
  else
    let '(sleep_state, cooldown_until) :=
      start_intervention_cooldown t_cooldown baby sleep_state in
    if String.eqb action "mark_asleep" then
      let '(sleep_state, _) := start_sleep t_start baby sleep_state in
      (sleep_state,
       InterventionResponse baby "sleeping" INTERVENTION_COOLDOWN_MINUTES
         cooldown_until)
    else
      let '(sleep_state, _) := end_sleep baby sleep_state in
      (sleep_state,
       InterventionResponse baby "awake" INTERVENTION_COOLDOWN_MINUTES
         cooldown_until).

End SensorEvents.

(** ** The handlers on the event loop

    The handlers are coroutines of one event loop.  A handler runs until it
    awaits the database ([get_babies_list]); the loop may then run other
    handlers before it resumes this one.  Awaiting a method of the manager
    lets no other handler in: no method awaits while it holds [_lock], so
    the lock is free whenever a handler asks for it.  A handler is thus a
    sequence of segments, each a transformer of the manager, with an await
    of the database between one segment and the next. *)
Module EventLoop.
Import SleepState SensorEvents.

(** A handler in progress: finished, with its response, or suspended, with
    the segment that runs when the loop resumes it. *)
Inductive task : Type :=
| Finished (r : response)
| Suspended (resume : SleepStateManager -> SleepStateManager * task).

(** [sleep_start]: the cooldown guard, the await of [get_babies_list], and
    the rest with [start_sleep]. *)
Definition sleep_start_task (t_check t_remaining t_start : Z)
    (known_babies : list Z) (baby : Z) : task :=
  Suspended (fun sleep_state =>
    let '(sleep_state, in_cooldown) := is_in_cooldown t_check baby sleep_state in
    if in_cooldown then
      let '(sleep_state, remaining) :=
        get_cooldown_remaining t_remaining baby sleep_state in
      (sleep_state, Finished (CooldownIgnored remaining))
    else
      (sleep_state,
       Suspended (fun sleep_state =>
         if negb (baby_exists known_babies baby) then
           (sleep_state, Finished NotFound)
         else
           let '(sleep_state, session) := start_sleep t_start baby sleep_state in
           (sleep_state,
            Finished (SleepStartResponse baby (start_time session)))))).

(** [parent_intervention]: the check of the action, the await of
    [get_babies_list], and the rest with the cooldown and the session. *)
Definition parent_intervention_task (t_cooldown t_start : Z)
    (known_babies : list Z) (baby : Z) (action : string) : task :=
  Suspended (fun sleep_state =>
    if negb (String.eqb action "mark_asleep" || String.eqb action "mark_awake")
    then (sleep_state, Finished InvalidAction)
    else
      (sleep_state,
       Suspended (fun sleep_state =>
         if negb (baby_exists known_babies baby) then
           (sleep_state, Finished NotFound)
         else
           let '(sleep_state, cooldown_until) :=
             start_intervention_cooldown t_cooldown baby sleep_state in
           if String.eqb action "mark_asleep" then
             let '(sleep_state, _) := start_sleep t_start baby sleep_state in
             (sleep_state,
              Finished (InterventionResponse baby "sleeping"
                          INTERVENTION_COOLDOWN_MINUTES cooldown_until))
           else
             let '(sleep_state, _) := end_sleep baby sleep_state in
             (sleep_state,
              Finished (InterventionResponse baby "awake"
                          INTERVENTION_COOLDOWN_MINUTES cooldown_until))))).

(** A handler that no other handler interrupts. *)
Fixpoint uninterrupted (t : task) (sleep_state : SleepStateManager)
    : SleepStateManager * response :=
  match t with
  | Finished r => (sleep_state, r)
  | Suspended resume =>
      let '(sleep_state, t') := resume sleep_state in
      uninterrupted t' sleep_state
  end.

(** One turn of the loop: the handler at place [i] runs its next segment. *)
Definition turn (st : SleepStateManager * list task) (i : nat)
    : SleepStateManager * list task :=
  let '(sleep_state, tasks) := st in
  match tasks !! i with
  | Some (Suspended resume) =>
      let '(sleep_state, t) := resume sleep_state in
      (sleep_state, <[i := t]> tasks)
  | _ => st
  end.

(** The turns of a schedule, in order. *)
Definition run (schedule : list nat) (st : SleepStateManager * list task)
    : SleepStateManager * list task :=
  fold_left turn schedule st.

End EventLoop.

(** ** The sleep block aggregator *)
Module SleepBlocks.

(** The values an event dictionary ([Dict[str, Any]]) holds here: [None],
    numbers, strings, datetimes and nested dictionaries. *)
Inductive value : Type :=
| VNone
| VNum (q : Q)
| VStr (s : string)
| VDatetime (t : Z)
| VDict (d : gmap string value).

Abbreviation event := (gmap string value).

Definition SLEEP_BLOCK_GAP_THRESHOLD_MINUTES : Q := 30 # 1.
Definition DEFAULT_GAP_THRESHOLD_MINUTES : Q := SLEEP_BLOCK_GAP_THRESHOLD_MINUTES.

Record SleepBlock : Type := {
  block_start : Z;
  block_end : Z;
  total_sleep_minutes : Q;
  total_block_minutes : Q;
  interruption_count : Z;
  event_count : Z;
  events : list event
}.

(** The dictionary an event normalizes to. *)
Record normalized : Type := {
  sleep_started_at : Z;
  awakened_at : Z;
  duration_minutes : value;
  original : event
}.

(** [d.get(k)] *)
Definition get (d : event) (k : string) : value := default VNone (d !! k).

(** Python truthiness. *)
Definition truthy (v : value) : bool :=
  match v with
  | VNone => false
  | VNum q => negb (Qnum q =? 0)
  | VStr s => negb (String.eqb s "")
  | VDatetime _ => true
  | VDict d => negb (Nat.eqb (size d) 0)
  end.

(** [v or 0.0] *)
Definition or_zero (v : value) : value := if truthy v then v else VNum 0.

(** [timedelta(minutes=v)], in microseconds; [None] is its [TypeError]. *)
Definition timedelta (v : value) : option Z :=
  match v with
  | VNum q => Some (Py.timedelta_minutes q)
  | _ => None
  end.

(** [s.replace("Z", "+00:00")] *)
Fixpoint replace_Z (s : string) : string :=
  match s with
  | EmptyString => EmptyString
  | String c s' =>
      if Ascii.eqb c "Z"%char then String.append "+00:00" (replace_Z s')
      else String c (replace_Z s')
  end.

(** One step of [sum]: [acc + v], [None] being its [TypeError]. *)
Definition py_add (acc : Q) (v : value) : option Q :=
  match v with
  | VNum q => Some (Qplus acc q)
  | _ => None
  end.

(** [sum(vs)] *)
Definition py_sum (vs : list value) : option Q :=
  fold_left (fun acc v => acc ≫= fun a => py_add a v) vs (Some (0 # 1)).

(** [_detect_source(event)] *)
Definition _detect_source (event : event) : string :=
  if bool_decide (is_Some (event !! "event_metadata")) then "events_for_period"
  else if bool_decide (is_Some (event !! "ai_insight")) then "awakenings_with_insights"
  else if bool_decide (is_Some (event !! "session_date")) then "sessions_for_range"
  else "unknown".

(** [list.sort(key=lambda e: e["sleep_started_at"])]: the sort is stable,
    records with equal keys keep their order. *)
Fixpoint insert_by_start (x : normalized) (l : list normalized) : list normalized :=
  match l with
  | [] => [x]
  | y :: l' =>
      if sleep_started_at x <=? sleep_started_at y then x :: l
      else y :: insert_by_start x l'
  end.

Definition sort_by_start (l : list normalized) : list normalized :=
  fold_right insert_by_start [] l.

(** [_build_block(normalized_events)]; [None] is an exception raised
    ([IndexError] on an empty list, [TypeError] of [sum]).  The datetimes
    being of one kind, [block_end - block_start] raises nothing here: of a
    naive and an aware datetime it raises [TypeError], as do the sort and
    the gap of [group_into_sleep_blocks]. *)
Definition _build_block (normalized_events : list normalized) : option SleepBlock :=
  first ← head normalized_events;
  final ← last normalized_events;
  let block_start := sleep_started_at first in
  let block_end := awakened_at final in
  total_sleep ← py_sum (map duration_minutes normalized_events);
  let total_block := Py.minutes_between block_end block_start in
  Some {| block_start := block_start;
          block_end := block_end;
          total_sleep_minutes := total_sleep;
          total_block_minutes := total_block;
          interruption_count := Z.of_nat (length normalized_events) - 1;
          event_count := Z.of_nat (length normalized_events);
          events := map original normalized_events |}.

(** The body of the grouping loop, on [(blocks, current_block_events)]. *)
Definition group_step (gap_threshold_minutes : Q)
    (st : list SleepBlock * list normalized) (curr : normalized)
    : option (list SleepBlock * list normalized) :=
  let '(blocks, current_block_events) := st in
  prev ← last current_block_events;
  let gap := Py.minutes_between (sleep_started_at curr) (awakened_at prev) in
  if Qle_bool gap gap_threshold_minutes then
    Some (blocks, current_block_events ++ [curr])
  else
    block ← _build_block current_block_events;
    Some (blocks ++ [block], [curr]).

Section Parsers.

(** [datetime.fromisoformat] and [json.loads]; [None] is the exception
    each raises on text it does not accept. *)
Variable fromisoformat : string -> option Z.
Variable json_loads : string -> option value.

(** [_parse_timestamp(value)] *)
Definition _parse_timestamp (v : value) : option Z :=
  match v with
  | VDatetime t => Some t
  | VStr s => fromisoformat (replace_Z s)
  | _ => None
  end.

(** [_normalize_event(event, source)]; every exception raised inside the
    [try] is caught and gives [None]. *)
Definition _normalize_event (event : event) (source : string) : option normalized :=
  let source := if String.eqb source "auto" then _detect_source event else source in
  if String.eqb source "awakenings_with_insights" then
    let awakened := _parse_timestamp (get event "awakened_at") in
    let duration := or_zero (get event "sleep_duration_minutes") in
    match awakened with
    | None => None
    | Some awakened =>
        match timedelta duration with
        | None => None
        | Some delta =>
            Some {| sleep_started_at := awakened - delta;
                    awakened_at := awakened;
                    duration_minutes := duration;
                    original := event |}
        end
    end
  else if String.eqb source "events_for_period" then
    let metadata := default (VDict ∅) (event !! "event_metadata") in
    let metadata :=
      match metadata with
      | VStr s => json_loads s
      | _ => Some metadata
      end in
    match metadata with
    | Some (VDict metadata) =>
        let started := _parse_timestamp (get metadata "sleep_started_at") in
        let awakened := _parse_timestamp (get metadata "awakened_at") in
        let duration := or_zero (get metadata "sleep_duration_minutes") in
        match started, awakened with
        | Some started, Some awakened =>
            Some {| sleep_started_at := started;
                    awakened_at := awakened;
                    duration_minutes := duration;
                    original := event |}
        | _, _ => None
        end
    | _ => None
    end
  else if String.eqb source "sessions_for_range" then
    let started := _parse_timestamp (get event "sleep_started_at") in
    let awakened := _parse_timestamp (get event "awakened_at") in
    let duration := or_zero (get event "duration_minutes") in
    match started, awakened with
    | Some started, Some awakened =>
        Some {| sleep_started_at := started;
                awakened_at := awakened;
                duration_minutes := duration;
                original := event |}
    | _, _ => None
    end
  else None.

(** The normalization loop of [group_into_sleep_blocks]. *)
Definition normalize_all (events : list event) (source : string) : list normalized :=
  omap (fun e => _normalize_event e source) events.

(** [group_into_sleep_blocks(events, gap_threshold_minutes, source)];
    [None] is an exception escaping the call. *)
Definition group_into_sleep_blocks (events : list event)
    (gap_threshold_minutes : Q) (source : string) : option (list SleepBlock) :=
  match sort_by_start (normalize_all events source) with
  | [] => Some []
  | first :: rest =>
      st ← fold_left
             (fun st curr => st ≫= fun st => group_step gap_threshold_minutes st curr)
             rest (Some ([], [first]));
      block ← _build_block (snd st);
      Some (fst st ++ [block])
  end.

End Parsers.

End SleepBlocks.

(** ** The other methods of [SleepStateManager] *)
Module SleepStateQueries.
Import SleepState.

(** [baby_id in self._sleeping_babies] *)
Definition is_sleeping (baby : Z) (self : SleepStateManager) : bool :=
  bool_decide (is_Some (_sleeping_babies self !! baby)).

(** [len(self._sleeping_babies)] *)
Definition get_sleep_count (self : SleepStateManager) : Z :=
  Z.of_nat (size (_sleeping_babies self)).

Definition clear_cooldown (baby : Z) (self : SleepStateManager)
    : SleepStateManager * bool :=
  match _intervention_cooldowns self !! baby with
  | Some _ =>
      ({| _sleeping_babies := _sleeping_babies self;
          _intervention_cooldowns :=
            delete baby (_intervention_cooldowns self) |},
       true)
  | None => (self, false)
  end.

End SleepStateQueries.

(** ** The status endpoints *)
Module SensorStatus.
Import SleepState.

(** [GET /sensor/sleep-status/{baby_id}]: [is_sleeping] and, for a sleeping
    baby, [sleep_started_at] and [sleep_duration_minutes]. *)
Definition get_sleep_status (utcnow : Z) (baby : Z) (sleep_state : SleepStateManager)
    : bool * option (Z * Q) :=
  match get_sleep_session baby sleep_state with
  | Some session =>
      let duration := Py.minutes_between utcnow (start_time session) in
      (true, Some (start_time session, Py.round duration 2))
  | None => (false, None)
  end.

(** [GET /sensor/cooldown-status/{baby_id}]: [in_cooldown] and
    [cooldown_remaining_minutes]. *)
Definition get_cooldown_status (t_check t_remaining : Z) (baby : Z)
    (sleep_state : SleepStateManager) : SleepStateManager * (bool * option Z) :=
  let '(sleep_state, in_cooldown) := is_in_cooldown t_check baby sleep_state in
  if in_cooldown then
    let '(sleep_state, remaining) :=
      get_cooldown_remaining t_remaining baby sleep_state in
    (sleep_state, (true, remaining))
  else (sleep_state, (false, None)).

End SensorStatus.

(** ** The camera step of the device's [loop] *)
Module DeviceLoop.
Import Debouncer StateMachine.

(** The body of the [for verdict, confidence in cam_readings] loop, for a
    reading fed when the clock reads [clock]: the debouncer, the state and
    the events posted. *)
Definition camera_step (period : Z)
    (st : VerdictDebouncer * state) (r : Z * string * Z)
    : VerdictDebouncer * state * list event :=
  let '(debouncer, current_state) := st in
  let '(clock, verdict, confidence) := r in
  let '(debouncer, debounced) := feed period clock verdict confidence debouncer in
  match debounced with
  | Some v =>
      let '(current_state, posted) :=
        handle_state_transition current_state (Some v) in
      (debouncer, current_state, posted)
  | None => (debouncer, current_state, [])
  end.

(** The camera readings of the device, one after the other. *)
Fixpoint camera_steps (period : Z) (st : VerdictDebouncer * state)
    (readings : list (Z * string * Z)) : VerdictDebouncer * state * list event :=
  match readings with
  | [] => (st, [])
  | r :: rest =>
      let '(st', posted) := camera_step period st r in
      let '(st'', posted') := camera_steps period st' rest in
      (st'', posted ++ posted')
  end.

End DeviceLoop.

(** ** The microphone peak *)
Module Microphone.

(** The loop of [analyze_pcm16_le_peak_dbfs(b)] over the bytes of the
    buffer: the largest magnitude of the signed 16-bit little-endian
    samples.  The function returns [-120.0] for fewer than two bytes and
    [20 * log10((peak + 1e-9) / 32767.0)] otherwise. *)
Fixpoint pcm16_le_peak_from (peak : Z) (b : list Z) : Z :=
  match b with
  | lo :: hi :: rest =>
      let v := Z.lor lo (Z.shiftl hi 8) in
      let v := if 32768 <=? v then v - 65536 else v in
      let av := if 0 <=? v then v else - v in
      pcm16_le_peak_from (if peak <? av then av else peak) rest
  | _ => peak
  end.

Definition pcm16_le_peak (b : list Z) : Z := pcm16_le_peak_from 0 b.

End Microphone.

(* ===================================================================== *)
(** * Part II.  The specification's words                                 *)
(* ===================================================================== *)

(** ** The transition table of the lifecycle state machine (spec 4.2) *)
Module LifecycleSpec.
Import StateMachine.

(** The three labels of the specification's data model. *)
Inductive label : Type := Asleep | Awake | NoSubject.

(** The verdict string the camera sends for a label. *)
Definition verdict_of (l : label) : string :=
  match l with
  | Asleep => "Asleep"
  | Awake => "Awake"
  | NoSubject => "No Baby Found"
  end.

(** The table, row by row: next state and what is emitted. *)
Definition transition_table (current : state) (input : option label)
    : state * list event :=
  match input, current with
  | None, _ => (current, [])
  | Some Asleep, asleep => (asleep, [])
  | Some Asleep, _ => (asleep, [sleep_start])
  | Some Awake, asleep => (awake, [sleep_end])
  | Some Awake, away => (awake, [])
  | Some Awake, awake => (awake, [])
  | Some NoSubject, away => (away, [])
  | Some NoSubject, _ => (away, [baby_away])
  end.

(** The label that re-affirms a state. *)
Definition affirms (s : state) : label :=
  match s with
  | asleep => Asleep
  | awake => Awake
  | away => NoSubject
  end.

End LifecycleSpec.

(** ** The cooldown, in the specification's words *)
Module TrackerSpec.
Import SleepState SensorEvents.

(** The cooldown of [baby] is active at [now]. *)
Definition cooldown_active (now baby : Z) (self : SleepStateManager) : Prop :=
  exists cooldown_until,
    _intervention_cooldowns self !! baby = Some cooldown_until /\ now < cooldown_until.

(** An ignored response; it carries at least one remaining minute when the
    cooldown is still active at [now], the instant the remaining time is
    read. *)
Definition ignored_with_remaining (now baby : Z) (self : SleepStateManager)
    (r : response) : Prop :=
  exists remaining,
    r = CooldownIgnored remaining
    /\ (cooldown_active now baby self -> exists m, remaining = Some m /\ 1 <= m).

(** The payload of an ignored response reports a positive number of
    remaining minutes. *)
Definition reports_positive_remaining (r : response) : Prop :=
  exists m, r = CooldownIgnored (Some m) /\ 0 < m.

End TrackerSpec.

(** ** The debounce window in true time *)
Module WindowSpec.
Import Ticks Debouncer.

(** A feed [(clock, verdict, confidence)] as the buffer stores it. *)
Definition stamp (period : Z) (r : Z * string * Z) : reading :=
  let '(clock, v, c) := r in (ticks_ms period clock, v, c).

Definition clock_of (r : Z * string * Z) : Z := fst (fst r).

(** The clock of the last feed of a schedule, [prev] when there is none. *)
Definition last_clock (prev : Z) (sched : list (Z * string * Z)) : Z :=
  fold_left (fun _ r => clock_of r) sched prev.

(** The readings of a schedule that are no older than [window] at [now]. *)
Definition within (window now : Z) (sched : list (Z * string * Z))
    : list (Z * string * Z) :=
  List.filter (fun r => now - window <=? clock_of r) sched.

(** The clock never runs backwards and no more than half a tick period
    passes between a feed and the next. *)
Fixpoint well_spaced (period prev : Z) (sched : list (Z * string * Z)) : Prop :=
  match sched with
  | [] => True
  | r :: rest =>
      prev <= clock_of r <= prev + period / 2
      /\ well_spaced period (clock_of r) rest
  end.

End WindowSpec.

(** ** The verdict of the debouncer, in the specification's words *)
Module ConsensusSpec.
Import Debouncer.

Definition verdict_of_reading (r : reading) : string := snd (fst r).
Definition confidence_of (r : reading) : Z := snd r.

(** The readings of a window that carry the label [w]. *)
Definition labelled (w : string) (window : list reading) : list reading :=
  List.filter (fun r => String.eqb (verdict_of_reading r) w) window.

(** [count[w]]: the occurrences of [w] in the window. *)
Definition count_of (window : list reading) (w : string) : Z :=
  Z.of_nat (length (labelled w window)).

(** [score[w]]: the confidence sum of [w] over the window. *)
Definition score_of (window : list reading) (w : string) : Z :=
  fold_right Z.add 0 (map confidence_of (labelled w window)).

Definition present (window : list reading) (v : string) : Prop :=
  In v (map verdict_of_reading window).

(** [w] has the maximal count, at least three times the count of every
    other label present, and a confidence sum that reaches the threshold. *)
Definition wins (threshold : Z) (window : list reading) (w : string) : Prop :=
  (forall v, count_of window v <= count_of window w)
  /\ (forall v, v <> w -> present window v ->
        3 * count_of window v <= count_of window w)
  /\ threshold <= score_of window w.

End ConsensusSpec.

(** ** Sleep blocks, in the specification's words *)
Module BlocksSpec.
Import SleepBlocks.

(** [gap]: from the previous record's [awakened_at] to the record's
    [sleep_started_at], in minutes. *)
Definition gap_minutes (prev curr : normalized) : Q :=
  Py.minutes_between (sleep_started_at curr) (awakened_at prev).

(** The record joins the block of the previous record. *)
Definition joins (gap_threshold : Q) (prev curr : normalized) : Prop :=
  Qle (gap_minutes prev curr) gap_threshold.

(** Ascending by [sleep_started_at]. *)
Definition starts_before (a b : normalized) : Prop :=
  sleep_started_at a <= sleep_started_at b.

(** The records that start at [t], in order. *)
Definition starting_at (t : Z) (l : list normalized) : list normalized :=
  List.filter (fun n => sleep_started_at n =? t) l.

(** Every record of a block but the first joins the one before it. *)
Fixpoint chained (gap_threshold : Q) (block : list normalized) : Prop :=
  match block with
  | prev :: (curr :: _) as rest =>
      joins gap_threshold prev curr /\ chained gap_threshold rest
  | _ => True
  end.

(** The first record of a block does not join the last record of the
    block before it. *)
Fixpoint separated (gap_threshold : Q) (blocks : list (list normalized)) : Prop :=
  match blocks with
  | block :: (next :: _) as rest =>
      (forall prev curr, last block = Some prev -> head next = Some curr ->
         ~ joins gap_threshold prev curr)
      /\ separated gap_threshold rest
  | _ => True
  end.

(** The duration of a record is a number. *)
Definition numeric (n : normalized) : Prop :=
  exists q, duration_minutes n = VNum q.

Definition duration_of (n : normalized) : Q :=
  match duration_minutes n with
  | VNum q => q
  | _ => 0 # 1
  end.

Definition sum_durations (block : list normalized) : Q :=
  fold_right Qplus (0 # 1) (map duration_of block).

(** The fields of an emitted block, from its constituent records. *)
Definition describes (b : SleepBlock) (block : list normalized) : Prop :=
  exists first final,
    head block = Some first /\ last block = Some final
    /\ block_start b = sleep_started_at first
    /\ block_end b = awakened_at final
    /\ Qeq (total_sleep_minutes b) (sum_durations block)
    /\ total_block_minutes b = (block_end b - block_start b) # Py.MINUTE
    /\ interruption_count b = Z.of_nat (length block) - 1
    /\ event_count b = Z.of_nat (length block)
    /\ events b = map original block.

(** The blocks the loop of the aggregator closes, from the block it is
    filling and the records still to come. *)
Fixpoint runs_from (gap_threshold : Q) (current rest : list normalized)
    : list (list normalized) :=
  match rest with
  | [] => [current]
  | curr :: rest' =>
      match last current with
      | Some prev =>
          if Qle_bool (gap_minutes prev curr) gap_threshold
          then runs_from gap_threshold (current ++ [curr]) rest'
          else current :: runs_from gap_threshold [curr] rest'
      | None => runs_from gap_threshold [curr] rest'
      end
  end.

(** The shape a source argument selects for an event. *)
Definition shape (source : string) (event : event) : string :=
  if String.eqb source "auto" then _detect_source event else source.

End BlocksSpec.

(** ** Normalization, in the specification's words *)
Module NormalizeSpec.
Import SleepBlocks BlocksSpec.

(** The metadata dictionary of an [events_for_period] record, when it has
    one: the dictionary itself, or what [json.loads] makes of its text; an
    absent key stands for an empty dictionary. *)
Definition metadata_of (json_loads : string -> option value) (record : event)
    : option event :=
  match default (VDict ∅) (record !! "event_metadata") with
  | VDict d => Some d
  | VStr s =>
      match json_loads s with
      | Some (VDict d) => Some d
      | _ => None
      end
  | _ => None
  end.

(** The values a record of a given shape must provide as timestamps. *)
Definition required_timestamps (json_loads : string -> option value)
    (shape : string) (record : event) : list value :=
  if String.eqb shape "awakenings_with_insights" then
    [get record "awakened_at"]
  else if String.eqb shape "events_for_period" then
    match metadata_of json_loads record with
    | Some metadata =>
        [get metadata "sleep_started_at"; get metadata "awakened_at"]
    | None => [VNone; VNone]
    end
  else if String.eqb shape "sessions_for_range" then
    [get record "sleep_started_at"; get record "awakened_at"]
  else [].

(** A record of the shape that provides only [awakened_at] and a duration. *)
Definition awakening_record (awakened : Z) (minutes : Q) : event :=
  <["ai_insight" := VNone]>
    (<["awakened_at" := VDatetime awakened]>
       (<["sleep_duration_minutes" := VNum minutes]> ∅)).

End NormalizeSpec.

(** ** Sample inputs *)

(** The manager after a parent marked baby 10 asleep at time 0. *)
Definition overridden : SleepState.SleepStateManager :=
  fst (SensorEvents.parent_intervention 0 0 [10] 10 "mark_asleep" SleepState.init).

(** The time of day [h]:[m] as a datetime. *)
Definition clock_time (h m : Z) : Z := (h * 60 + m) * 60000000.

(** A record of the [sessions_for_range] shape. *)
Definition session_record (started awakened : Z) (minutes : Q) : SleepBlocks.event :=
  <["session_date" := SleepBlocks.VStr "2024-01-01"]>
    (<["sleep_started_at" := SleepBlocks.VDatetime started]>
       (<["awakened_at" := SleepBlocks.VDatetime awakened]>
          (<["duration_minutes" := SleepBlocks.VNum minutes]> ∅))).

(** Two sessions, 10:00-10:30 and 10:45-11:00, given latest first. *)
Definition two_sessions : list SleepBlocks.event :=
  [session_record (clock_time 10 45) (clock_time 11 0) (15 # 1);
   session_record (clock_time 10 0) (clock_time 10 30) (30 # 1)].

(** Parsers that accept nothing: the records above hold datetimes. *)
Definition no_iso (_ : string) : option Z := None.
Definition no_json (_ : string) : option SleepBlocks.value := None.

(** The fields of a block the merge example looks at. *)
Definition summary (b : SleepBlocks.SleepBlock) : Z * Z * Q * Z :=
  (SleepBlocks.block_start b, SleepBlocks.block_end b,
   SleepBlocks.total_sleep_minutes b, SleepBlocks.interruption_count b).

(** ** The event log the server receives *)
Module LogSpec.
Import StateMachine.

(** A log in which a sleep-start never follows a sleep-start that was not
    ended or abandoned, and a sleep-end always ends the sleep-start just
    before it; [sleeping] tells whether a sleep-start is open. *)
Fixpoint well_formed (sleeping : bool) (log : list event) : Prop :=
  match log with
  | [] => True
  | sleep_start :: log' => sleeping = false /\ well_formed true log'
  | sleep_end :: log' => sleeping = true /\ well_formed false log'
  | baby_away :: log' => well_formed false log'
  end.

(** Whether a sleep-start is open after a log. *)
Definition open_after (sleeping : bool) (log : list event) : bool :=
  fold_left (fun _ e => match e with sleep_start => true | _ => false end)
    log sleeping.

Definition is_asleep (s : state) : bool :=
  match s with
  | asleep => true
  | _ => false
  end.

End LogSpec.

(** ** Windows of bounded confidence *)
Module CapSpec.
Import Debouncer ConsensusSpec.

(** Every confidence of a window is at most [cmax]. *)
Definition capped (cmax : Z) (window : list reading) : Prop :=
  Forall (fun r => confidence_of r <= cmax) window.

End CapSpec.

(** ** The samples of a microphone buffer *)
Module MicrophoneSpec.

(** The signed value of a 16-bit little-endian sample. *)
Definition sample (lo hi : Z) : Z :=
  let u := lo + 256 * hi in
  if u <? 32768 then u else u - 65536.

(** The samples of a buffer; an odd last byte is not a sample. *)
Fixpoint samples (b : list Z) : list Z :=
  match b with
  | lo :: hi :: rest => sample lo hi :: samples rest
  | _ => []
  end.

Definition is_byte (x : Z) : Prop := 0 <= x < 256.

(** The largest magnitude of a list of samples, 0 for none. *)
Definition max_magnitude (vs : list Z) : Z :=
  fold_left (fun p v => Z.max p (Z.abs v)) vs 0.

End MicrophoneSpec.

(** ** The server and the requests it serves *)
Module ServerSpec.
Import SleepState SensorEvents.

(** Every session of the registry is filed under the baby it is for. *)
Definition consistent (self : SleepStateManager) : Prop :=
  forall baby session,
    _sleeping_babies self !! baby = Some session -> baby_id session = baby.

(** A request to one of the four POST endpoints, with the clock readings
    it meets and what the collaborators answer it. *)
Inductive request : Type :=
| SleepStart (t_check t_remaining t_start : Z) (known_babies : list Z) (baby : Z)
| SleepEnd (awakened_at t_check t_remaining : Z) (event_id : option Z) (baby : Z)
| BabyAway (away_at : Z) (baby : Z)
| Intervention (t_cooldown t_start : Z) (known_babies : list Z) (baby : Z)
    (action : string).

Definition serve (sleep_state : SleepStateManager) (r : request)
    : SleepStateManager * response :=
  match r with
  | SleepStart t_check t_remaining t_start known_babies baby =>
      sleep_start t_check t_remaining t_start known_babies baby sleep_state
  | SleepEnd awakened_at t_check t_remaining event_id baby =>
      sleep_end awakened_at t_check t_remaining event_id baby sleep_state
  | BabyAway away_at baby => baby_away away_at baby sleep_state
  | Intervention t_cooldown t_start known_babies baby action =>
      parent_intervention t_cooldown t_start known_babies baby action sleep_state
  end.

(** The manager after a sequence of requests. *)
Definition serve_all (sleep_state : SleepStateManager) (rs : list request)
    : SleepStateManager :=
  fold_left (fun st r => fst (serve st r)) rs sleep_state.

(** A sleep-start or sleep-end of the sensor for [baby], every clock
    reading of which is before [deadline]. *)
Definition sensor_event_before (baby deadline : Z) (r : request) : Prop :=
  match r with
  | SleepStart t_check t_remaining _ _ baby' =>
      baby' = baby /\ t_check < deadline /\ t_remaining < deadline
  | SleepEnd _ t_check t_remaining _ baby' =>
      baby' = baby /\ t_check < deadline /\ t_remaining < deadline
  | _ => False
  end.

End ServerSpec.

(** ** Minutes to two decimal places *)
Module RoundingSpec.

(** [d] is a whole number of hundredths. *)
Definition hundredths (d : Q) : Prop := exists k : Z, Qeq d (k # 100).

(** [d] is a hundredth nearest to [x]: one of the two nearest when [x] is
    exactly halfway between two hundredths, the nearest one otherwise. *)
Definition nearest_hundredth (x d : Q) : Prop :=
  hundredths d /\ Qle (Qabs (Qminus d x)) (1 # 200).

End RoundingSpec.

(** ** The blocks of a sorted list of records *)
Module RunsSpec.
Import SleepBlocks BlocksSpec.

(** The groups the aggregator builds its blocks from. *)
Definition runs (gap_threshold : Q) (sorted : list normalized)
    : list (list normalized) :=
  match sorted with
  | [] => []
  | first :: rest => runs_from gap_threshold [first] rest
  end.

(** The number of records whose gap to the record before them exceeds the
    threshold. *)
Fixpoint breaks (gap_threshold : Q) (sorted : list normalized) : nat :=
  match sorted with
  | prev :: (curr :: _) as rest =>
      (if Qle_bool (gap_minutes prev curr) gap_threshold then 0 else 1)
      + breaks gap_threshold rest
  | _ => 0
  end%nat.

(** No two records start at the same time. *)
Definition distinct_starts (records : list normalized) : Prop :=
  forall n1 n2, In n1 records -> In n2 records ->
    sleep_started_at n1 = sleep_started_at n2 -> n1 = n2.

(** The string holds no letter Z. *)
Fixpoint z_free (s : string) : Prop :=
  match s with
  | EmptyString => True
  | String c s' => c <> "Z"%char /\ z_free s'
  end.

End RunsSpec.

(** ** More sample inputs *)

(** Twelve Asleep readings two seconds apart from clock 0 on, and thirteen
    Awake readings two seconds apart that begin 2^29 + 25001 ms after the
    last of them. *)
Definition stale_asleep : list (Z * string * Z) :=
  map (fun i => (i * 2000, "Asleep"%string, 90)) [0; 1; 2; 3; 4; 5; 6; 7; 8; 9; 10; 11].

Definition fresh_awake : list (Z * string * Z) :=
  map (fun i => (536917913 + i * 2000, "Awake"%string, 90))
    [0; 1; 2; 3; 4; 5; 6; 7; 8; 9; 10; 11; 12].

(** Five Asleep readings of confidence 100, two seconds apart. *)
Definition five_readings : list (Z * string * Z) :=
  map (fun i => (i * 2000, "Asleep"%string, 100)) [0; 1; 2; 3; 4].

(** The metadata of an awakening, 10:00 to 10:30, as a dictionary and as
    the JSON text of it, and a [json.loads] that knows this one text. *)
Definition sample_metadata : SleepBlocks.event :=
  <["sleep_started_at" := SleepBlocks.VDatetime (clock_time 10 0)]>
    (<["awakened_at" := SleepBlocks.VDatetime (clock_time 10 30)]>
       (<["sleep_duration_minutes" := SleepBlocks.VNum (30 # 1)]> ∅)).

Definition sample_text : string := "{...}".

Definition sample_json (s : string) : option SleepBlocks.value :=
  if String.eqb s sample_text then Some (SleepBlocks.VDict sample_metadata) else None.

Definition period_record (metadata : SleepBlocks.value) : SleepBlocks.event :=
  <["event_metadata" := metadata]> ∅.

(** A session 11:30-12:00 whose duration is the text [30]. *)
Definition text_duration_session : SleepBlocks.event :=
  <["session_date" := SleepBlocks.VStr "2024-01-01"]>
    (<["sleep_started_at" := SleepBlocks.VDatetime (clock_time 11 30)]>
       (<["awakened_at" := SleepBlocks.VDatetime (clock_time 12 0)]>
          (<["duration_minutes" := SleepBlocks.VStr "30"]> ∅))).

(* ===================================================================== *)
(** * Part III.  The claims                                               *)
(* ===================================================================== *)

Section Lifecycle.
Import StateMachine LifecycleSpec.

Lemma run_app (s : state) (vs ws : list (option string)) :
  run s (vs ++ ws) =
  let '(s1, out1) := run s vs in
  let '(s2, out2) := run s1 ws in
  (s2, out1 ++ out2).
Proof.
  revert s. induction vs as [|v vs IH]; intros s; simpl.
  - destruct (run s ws); reflexivity.
  - destruct (handle_state_transition s v) as [s1 o1].
    rewrite IH. destruct (run s1 vs) as [s2 o2].
    destruct (run s2 ws) as [s3 o3]. by rewrite app_assoc.
Qed.

Lemma run_asleep_again (n : nat) :
  run asleep (repeat (Some "Asleep"%string) n) = (asleep, []).
Proof. induction n as [|n IH]; simpl; [reflexivity|]. by rewrite IH. Qed.

(** C3.  The state machine follows the transition table of the
    specification on every state and every input; it starts in [away];
    feeding Asleep one or more times posts exactly one sleep-start; Awake
    from asleep posts exactly one sleep-end; Awake from away moves to awake
    and posts nothing; NoSubject from asleep or awake posts baby-away and
    moves to away; re-affirming the current state posts nothing and leaves
    it unchanged; and no step posts more than one event or posts one
    without changing the state. *)
Theorem lifecycle_follows_transition_table :
  initial_state = away
  /\ (forall s input,
        handle_state_transition s (verdict_of <$> input) = transition_table s input)
  /\ (forall s n,
        run s (repeat (Some "Asleep"%string) (S n)) =
        (asleep, if s is asleep then [] else [sleep_start]))
  /\ (forall n,
        run initial_state (repeat (Some "Asleep"%string) (S n)) = (asleep, [sleep_start]))
  /\ handle_state_transition asleep (Some "Awake"%string) = (awake, [sleep_end])
  /\ handle_state_transition away (Some "Awake"%string) = (awake, [])
  /\ (forall s, s = asleep \/ s = awake ->
        handle_state_transition s (Some "No Baby Found"%string) = (away, [baby_away]))
  /\ (forall s, handle_state_transition s (Some (verdict_of (affirms s))) = (s, []))
  /\ (forall s v,
        let '(s', out) := handle_state_transition s v in
        (length out <= 1)%nat /\ (s' = s -> out = [])).
Proof.
  split; [reflexivity|].
  split; [intros [] [[]|]; reflexivity|].
  assert (Hrep : forall s n,
             run s (repeat (Some "Asleep"%string) (S n)) =
             (asleep, if s is asleep then [] else [sleep_start])).
  { intros s n. change (repeat (Some "Asleep"%string) (S n))
      with ([Some "Asleep"%string] ++ repeat (Some "Asleep"%string) n).
    rewrite run_app. destruct s; simpl; rewrite run_asleep_again; reflexivity. }
  split; [exact Hrep|].
  split; [intros n; apply (Hrep away)|].
  split; [reflexivity|]. split; [reflexivity|].
  split; [intros s [-> | ->]; reflexivity|].
  split; [intros []; reflexivity|].
  intros s [v|]; simpl; [|split; [lia|reflexivity]].
  unfold handle_state_transition.
  destruct (String.eqb v "Asleep"); [destruct s; simpl; split; (lia || congruence)|].
  destruct (String.eqb v "Awake"); [destruct s; simpl; split; (lia || congruence)|].
  destruct (String.eqb v "No Baby Found"); destruct s; simpl; split; (lia || congruence).
Qed.

End Lifecycle.

(** ** The session tracker and the cooldown arbiter *)
Section Tracker.
Import SleepState TrackerSpec.

Implicit Types (self : SleepStateManager) (baby now : Z).

Lemma is_in_cooldown_true now baby self :
  snd (is_in_cooldown now baby self) = true <-> cooldown_active now baby self.
Proof.
  unfold is_in_cooldown, cooldown_active.
  destruct (_intervention_cooldowns self !! baby) as [u|] eqn:E; simpl.
  - destruct (now <? u) eqn:L; simpl.
    + apply Z.ltb_lt in L. split; [eauto|done].
    + apply Z.ltb_ge in L. split; [done|]. intros (u' & [= <-] & ?). lia.
  - split; [done|]. by intros (u' & ? & ?).
Qed.

Lemma is_in_cooldown_true_state now baby self :
  snd (is_in_cooldown now baby self) = true ->
  fst (is_in_cooldown now baby self) = self.
Proof.
  unfold is_in_cooldown.
  destruct (_intervention_cooldowns self !! baby) as [u|]; [|done].
  by destruct (now <? u).
Qed.

Lemma is_in_cooldown_sessions now baby self :
  _sleeping_babies (fst (is_in_cooldown now baby self)) = _sleeping_babies self.
Proof.
  unfold is_in_cooldown.
  destruct (_intervention_cooldowns self !! baby) as [u|]; [|done].
  by destruct (now <? u).
Qed.

Lemma get_cooldown_remaining_sessions now baby self :
  _sleeping_babies (fst (get_cooldown_remaining now baby self)) = _sleeping_babies self.
Proof.
  unfold get_cooldown_remaining.
  destruct (_intervention_cooldowns self !! baby) as [u|]; [|done].
  by destruct (Py.is_positive _).
Qed.

Lemma int_minutes_between (a b : Z) :
  b < a -> Py.int (Py.minutes_between a b) = (a - b) / 60000000.
Proof.
  intros H. unfold Py.int, Py.minutes_between, Py.MINUTE. simpl.
  apply Z.quot_div_nonneg; lia.
Qed.

(** C6.  [end_sleep] for a subject with no active session answers [None]
    and leaves the manager (the registry in particular) as it was; for a
    subject with an active session it answers that session and removes it
    from the registry, every other subject's session and every cooldown
    staying as they were.  The method is a total function: it raises
    nothing. *)
Theorem end_sleep_removes_or_reports_none self baby :
  (_sleeping_babies self !! baby = None -> end_sleep baby self = (self, None))
  /\ (forall session, _sleeping_babies self !! baby = Some session ->
        snd (end_sleep baby self) = Some session
        /\ _sleeping_babies (fst (end_sleep baby self)) = delete baby (_sleeping_babies self)
        /\ _sleeping_babies (fst (end_sleep baby self)) !! baby = None
        /\ (forall other, other <> baby ->
              _sleeping_babies (fst (end_sleep baby self)) !! other =
              _sleeping_babies self !! other)
        /\ _intervention_cooldowns (fst (end_sleep baby self)) =
           _intervention_cooldowns self).
Proof.
  unfold end_sleep. split.
  - intros E. rewrite E, (delete_id _ _ E). by destruct self.
  - intros session E. rewrite E. simpl.
    repeat split; [apply lookup_delete_eq|].
    intros other Hne. by apply lookup_delete_ne.
Qed.

(** C7.  [start_sleep] for a subject that already has a session answers
    that session and leaves the manager unchanged; for a subject with none
    it answers a new session whose [start_time] is the current time and
    registers it, every other subject's session staying as it was.  Calling
    it a second time, at any later time, changes nothing and answers the
    same session. *)
Theorem start_sleep_idempotent now baby self :
  (forall existing, _sleeping_babies self !! baby = Some existing ->
     start_sleep now baby self = (self, existing))
  /\ (_sleeping_babies self !! baby = None ->
        let session := {| baby_id := baby; start_time := now |} in
        snd (start_sleep now baby self) = session
        /\ _sleeping_babies (fst (start_sleep now baby self)) !! baby = Some session
        /\ (forall other, other <> baby ->
              _sleeping_babies (fst (start_sleep now baby self)) !! other =
              _sleeping_babies self !! other)
        /\ _intervention_cooldowns (fst (start_sleep now baby self)) =
           _intervention_cooldowns self)
  /\ (forall later,
        start_sleep later baby (fst (start_sleep now baby self)) =
        start_sleep now baby self).
Proof.
  split; [|split].
  - intros existing E. unfold start_sleep. by rewrite E.
  - intros E. unfold start_sleep. rewrite E. simpl.
    repeat split; [apply lookup_insert_eq|].
    intros other Hne. by apply lookup_insert_ne.
  - intros later. unfold start_sleep at 2 3.
    destruct (_sleeping_babies self !! baby) as [s|] eqn:E; simpl.
    + unfold start_sleep. by rewrite E.
    + unfold start_sleep. simpl. by rewrite lookup_insert_eq.
Qed.

Lemma get_cooldown_remaining_active now baby self cooldown_until :
  _intervention_cooldowns self !! baby = Some cooldown_until ->
  now < cooldown_until ->
  get_cooldown_remaining now baby self =
    (self, Some ((cooldown_until - now) / 60000000 + 1))
  /\ 1 <= (cooldown_until - now) / 60000000 + 1.
Proof.
  intros E Hlt. unfold get_cooldown_remaining. rewrite E.
  assert (Hpos : Py.is_positive (Py.minutes_between cooldown_until now) = true).
  { unfold Py.is_positive, Py.minutes_between. simpl. apply Z.ltb_lt. lia. }
  rewrite Hpos, int_minutes_between by done. split; [done|].
  assert (0 <= (cooldown_until - now) / 60000000) by (apply Z.div_pos; lia). lia.
Qed.

Lemma get_cooldown_remaining_expired now baby self cooldown_until :
  _intervention_cooldowns self !! baby = Some cooldown_until ->
  cooldown_until <= now ->
  get_cooldown_remaining now baby self =
    ({| _sleeping_babies := _sleeping_babies self;
        _intervention_cooldowns := delete baby (_intervention_cooldowns self) |},
     None).
Proof.
  intros E Hle. unfold get_cooldown_remaining. rewrite E.
  assert (Hneg : Py.is_positive (Py.minutes_between cooldown_until now) = false).
  { unfold Py.is_positive, Py.minutes_between. simpl. apply Z.ltb_ge. lia. }
  by rewrite Hneg.
Qed.

Lemma is_in_cooldown_active now baby self cooldown_until :
  _intervention_cooldowns self !! baby = Some cooldown_until ->
  now < cooldown_until ->
  is_in_cooldown now baby self = (self, true).
Proof.
  intros E Hlt. unfold is_in_cooldown. rewrite E.
  by destruct (Z.ltb_spec now cooldown_until); [|lia].
Qed.

End Tracker.

(** ** The automatic event endpoints under a cooldown *)
Section Endpoints.
Import SleepState SensorEvents TrackerSpec.

Lemma cooldown_guard now t_remaining baby self :
  cooldown_active now baby self ->
  is_in_cooldown now baby self = (self, true)
  /\ _sleeping_babies (fst (get_cooldown_remaining t_remaining baby self)) =
     _sleeping_babies self
  /\ ignored_with_remaining t_remaining baby self
       (CooldownIgnored (snd (get_cooldown_remaining t_remaining baby self))).
Proof.
  intros Hact. split; [|split].
  - pose proof (proj2 (is_in_cooldown_true now baby self) Hact) as Ht.
    pose proof (is_in_cooldown_true_state _ _ _ Ht) as Hs.
    destruct (is_in_cooldown now baby self); simpl in *; congruence.
  - apply get_cooldown_remaining_sessions.
  - eexists; split; [reflexivity|]. intros (u & E & Hlt).
    destruct (get_cooldown_remaining_active _ _ _ _ E Hlt) as [-> Hpos].
    simpl. eauto.
Qed.

(** The guarded endpoints: a sleep-start arriving while the cooldown is
    active leaves the registry as it was and is answered as ignored. *)
Lemma sleep_start_ignored_in_cooldown t_check t_remaining t_start known_babies baby self :
  cooldown_active t_check baby self ->
  _sleeping_babies (fst (sleep_start t_check t_remaining t_start known_babies baby self)) =
    _sleeping_babies self
  /\ ignored_with_remaining t_remaining baby self
       (snd (sleep_start t_check t_remaining t_start known_babies baby self)).
Proof.
  intros Hact.
  destruct (cooldown_guard t_check t_remaining baby self Hact) as (Hc & Hs & Hr).
  unfold sleep_start. rewrite Hc.
  destruct (get_cooldown_remaining t_remaining baby self) as [self' rem].
  simpl in *. done.
Qed.

(** The same for a sleep-end. *)
Lemma sleep_end_ignored_in_cooldown awakened_at t_check t_remaining event_id baby self :
  cooldown_active t_check baby self ->
  _sleeping_babies (fst (sleep_end awakened_at t_check t_remaining event_id baby self)) =
    _sleeping_babies self
  /\ ignored_with_remaining t_remaining baby self
       (snd (sleep_end awakened_at t_check t_remaining event_id baby self)).
Proof.
  intros Hact.
  destruct (cooldown_guard t_check t_remaining baby self Hact) as (Hc & Hs & Hr).
  unfold sleep_end. rewrite Hc.
  destruct (get_cooldown_remaining t_remaining baby self) as [self' rem].
  simpl in *. done.
Qed.

(** C10, as amended.  When [is_in_cooldown] answers true at an instant,
    [get_cooldown_remaining] at that instant answers the remaining time in
    whole minutes, truncated, plus one, which is at least 1, and changes
    nothing; once the cooldown has expired it answers [None] and deletes the
    entry.  A sleep-start or a sleep-end checked while the cooldown is
    active is answered as ignored; the payload reports that positive
    number when the cooldown is still active at the handler's second
    reading of the clock, the one inside [get_cooldown_remaining], and no
    number at all when the cooldown has expired between the two
    readings. *)
Theorem cooldown_remaining_positive_while_active now baby self :
  (snd (is_in_cooldown now baby self) = true ->
     exists cooldown_until,
       _intervention_cooldowns self !! baby = Some cooldown_until
       /\ get_cooldown_remaining now baby self =
          (self, Some ((cooldown_until - now) / 60000000 + 1))
       /\ 1 <= (cooldown_until - now) / 60000000 + 1)
  /\ (forall cooldown_until,
        _intervention_cooldowns self !! baby = Some cooldown_until ->
        cooldown_until <= now ->
        snd (get_cooldown_remaining now baby self) = None
        /\ _intervention_cooldowns (fst (get_cooldown_remaining now baby self)) =
           delete baby (_intervention_cooldowns self)
        /\ _intervention_cooldowns (fst (get_cooldown_remaining now baby self)) !! baby = None
        /\ _sleeping_babies (fst (get_cooldown_remaining now baby self)) =
           _sleeping_babies self)
  /\ (forall (t_remaining t_start awakened_at : Z) (known_babies : list Z)
             (event_id : option Z),
        snd (is_in_cooldown now baby self) = true ->
        let started := sleep_start now t_remaining t_start known_babies baby self in
        let ended := sleep_end awakened_at now t_remaining event_id baby self in
        exists cooldown_until,
          _intervention_cooldowns self !! baby = Some cooldown_until
          /\ (t_remaining < cooldown_until ->
                let minutes := (cooldown_until - t_remaining) / 60000000 + 1 in
                started = (self, CooldownIgnored (Some minutes))
                /\ ended = (self, CooldownIgnored (Some minutes))
                /\ reports_positive_remaining (snd started)
                /\ reports_positive_remaining (snd ended))
          /\ (cooldown_until <= t_remaining ->
                snd started = CooldownIgnored None
                /\ snd ended = CooldownIgnored None
                /\ _sleeping_babies (fst started) = _sleeping_babies self
                /\ _sleeping_babies (fst ended) = _sleeping_babies self)).
Proof.
  split; [|split].
  - intros H. apply is_in_cooldown_true in H as (u & E & Hlt).
    exists u. split; [done|]. by apply get_cooldown_remaining_active.
  - intros u E Hle. rewrite (get_cooldown_remaining_expired _ _ _ _ E Hle). simpl.
    repeat split. apply lookup_delete_eq.
  - intros t_remaining t_start awakened_at known_babies event_id H. cbv zeta.
    apply is_in_cooldown_true in H as (u & E & Hlt).
    exists u. split; [done|].
    unfold sleep_start, sleep_end. rewrite (is_in_cooldown_active _ _ _ _ E Hlt).
    split.
    + intros Hrem.
      destruct (get_cooldown_remaining_active _ _ _ _ E Hrem) as [-> Hpos].
      repeat split; eexists; (split; [reflexivity | lia]).
    + intros Hrem. rewrite (get_cooldown_remaining_expired _ _ _ _ E Hrem). done.
Qed.

(** C10, as stated.  A sleep-start for baby 10 is checked one microsecond
    before the cooldown of the parent's override ends, and the remaining
    time is read at its end: the cooldown is active at the check, the
    request is answered as ignored, and the payload carries no number of
    remaining minutes. *)
Lemma ignored_payload_without_remaining :
  let served := sleep_start 1199999999 1200000000 1200000000 [10] 10 overridden in
  snd (is_in_cooldown 1199999999 10 overridden) = true
  /\ snd served = CooldownIgnored None
  /\ ~ reports_positive_remaining (snd served).
Proof.
  cbv zeta.
  assert (Hserved : snd (sleep_start 1199999999 1200000000 1200000000 [10] 10 overridden)
                    = CooldownIgnored None) by (vm_compute; reflexivity).
  split; [vm_compute; reflexivity|]. split; [exact Hserved|].
  rewrite Hserved. intros (m & Hm & _). discriminate Hm.
Qed.

(** C1.  The baby-away endpoint does not consult the cooldown.  One minute
    after a parent marked baby 10 asleep the cooldown is active and the
    session of the override is registered; a sleep-start and a sleep-end
    arriving then are answered as ignored, with 20 minutes remaining, and
    leave the registry alone; a baby-away arriving then removes the session
    and is answered with the normal response. *)
Theorem baby_away_ends_session_during_cooldown :
  let minute := 60000000 in
  cooldown_active minute 10 overridden
  /\ _sleeping_babies overridden !! 10 = Some {| baby_id := 10; start_time := 0 |}
  /\ sleep_start minute minute minute [10] 10 overridden =
       (overridden, CooldownIgnored (Some 20))
  /\ sleep_end minute minute minute (Some 1) 10 overridden =
       (overridden, CooldownIgnored (Some 20))
  /\ snd (baby_away minute 10 overridden) =
       BabyAwayResponse 10 true (Some (0, minute, 1%Q))
  /\ _sleeping_babies (fst (baby_away minute 10 overridden)) !! 10 = None
  /\ _sleeping_babies (fst (baby_away minute 10 overridden)) <>
     _sleeping_babies overridden.
Proof.
  assert (Hgone : _sleeping_babies (fst (baby_away 60000000 10 overridden)) !! 10 = None)
    by (vm_compute; reflexivity).
  assert (Hthere : _sleeping_babies overridden !! 10 =
                   Some {| baby_id := 10; start_time := 0 |})
    by (vm_compute; reflexivity).
  cbv zeta. split; [|split; [|split; [|split; [|split; [|split]]]]].
  - exists 1200000000. split; [vm_compute; reflexivity | lia].
  - exact Hthere.
  - vm_compute; reflexivity.
  - vm_compute; reflexivity.
  - vm_compute; reflexivity.
  - exact Hgone.
  - intros Heq. rewrite Heq, Hthere in Hgone. discriminate.
Qed.

End Endpoints.

(** ** The cooldown check and the mutation on the event loop *)
Section Interleaving.
Import SleepState SensorEvents EventLoop.

(** Run without interruption, the segments of a handler make up the
    handler. *)
Lemma uninterrupted_sleep_start (t_check t_remaining t_start : Z)
    (known_babies : list Z) (baby : Z) (self : SleepStateManager) :
  uninterrupted (sleep_start_task t_check t_remaining t_start known_babies baby) self =
  sleep_start t_check t_remaining t_start known_babies baby self.
Proof.
  unfold sleep_start. simpl.
  destruct (is_in_cooldown t_check baby self) as [self1 [|]]; simpl.
  - by destruct (get_cooldown_remaining t_remaining baby self1).
  - destruct (negb (baby_exists known_babies baby)); [done|].
    by destruct (start_sleep t_start baby self1).
Qed.

Lemma uninterrupted_parent_intervention (t_cooldown t_start : Z)
    (known_babies : list Z) (baby : Z) (action : string) (self : SleepStateManager) :
  uninterrupted (parent_intervention_task t_cooldown t_start known_babies baby action) self =
  parent_intervention t_cooldown t_start known_babies baby action self.
Proof.
  unfold parent_intervention. simpl.
  destruct (negb (String.eqb action "mark_asleep" || String.eqb action "mark_awake"));
    [done|]. simpl.
  destruct (negb (baby_exists known_babies baby)); [done|].
  destruct (String.eqb action "mark_asleep").
  - by destruct (start_sleep _ _ _).
  - by destruct (end_sleep _ _).
Qed.

(** C9.  The cooldown check of a sleep-start and its [start_sleep] are two
    segments of the handler, with the await of [get_babies_list] between
    them, and a manual override can run in that await.  On a fresh manager
    that knows baby 10: the sensor's sleep-start passes the check at time 0
    and awaits the database; the parent marks the baby awake one second
    later, which starts the cooldown; the sleep-start resumes a second
    after that, files a session and answers the normal response.  The
    session then stands under an active cooldown, and a sleep-end of the
    sensor is answered as ignored.  Had either request run whole before
    the other, no session would remain. *)
Theorem sleep_start_interleaves_with_override :
  let sensor t_check t_start := sleep_start_task t_check t_check t_start [10] 10 in
  let parent t := parent_intervention_task t t [10] 10 "mark_awake" in
  let raced :=
    run [0; 1; 1; 0]%nat (init, [sensor 0 2000000; parent 1000000]) in
  let sensor_first :=
    run [0; 0; 1; 1]%nat (init, [sensor 0 500000; parent 1000000]) in
  let parent_first :=
    run [1; 1; 0; 0]%nat (init, [sensor 1500000 2000000; parent 1000000]) in
  snd raced =
    [Finished (SleepStartResponse 10 2000000);
     Finished (InterventionResponse 10 "awake" 20 1201000000)]
  /\ _sleeping_babies (fst raced) !! 10 =
     Some {| baby_id := 10; start_time := 2000000 |}
  /\ is_in_cooldown 2000000 10 (fst raced) = (fst raced, true)
  /\ sleep_end 3000000 3000000 3000000 (Some 1) 10 (fst raced) =
     (fst raced, CooldownIgnored (Some 20))
  /\ snd sensor_first =
     [Finished (SleepStartResponse 10 500000);
      Finished (InterventionResponse 10 "awake" 20 1201000000)]
  /\ _sleeping_babies (fst sensor_first) !! 10 = None
  /\ snd parent_first =
     [Finished (CooldownIgnored (Some 20));
      Finished (InterventionResponse 10 "awake" 20 1201000000)]
  /\ _sleeping_babies (fst parent_first) !! 10 = None.
Proof.
  cbv zeta. repeat split; vm_compute; reflexivity.
Qed.

End Interleaving.

Section Window.
Import Ticks Debouncer WindowSpec.

Variable period : Z.
Hypothesis period_positive : 0 < period.

Lemma ticks_diff_cutoff (window now t : Z) :
  0 <= window < period / 2 ->
  0 <= now - t <= period / 2 + window ->
  ticks_diff period (ticks_ms period t)
    (ticks_add period (ticks_ms period now) (- window)) = t - now + window.
Proof.
  intros Hw Hage. unfold ticks_diff, ticks_add, ticks_ms.
  assert (Hne : period <> 0) by lia.
  pose proof (Z.div_mod t period Hne) as Ht.
  pose proof (Z.div_mod now period Hne) as Hnow.
  pose proof (Z.div_mod (now mod period + - window) period Hne) as Hcut.
  pose proof (Z.div_mod period 2 ltac:(lia)) as Hhalf.
  pose proof (Z.mod_pos_bound period 2 ltac:(lia)) as Hrem.
  set (k := now / period + (now mod period + - window) / period - t / period).
  replace (t mod period - (now mod period + - window) mod period + period / 2)
    with (t - now + window + period / 2 + k * period) by (subst k; lia).
  rewrite Z_mod_plus_full, Z.mod_small by lia. lia.
Qed.

Lemma prune_stamped (window now : Z) (kept : list (Z * string * Z)) :
  0 <= window < period / 2 ->
  Forall (fun r => 0 <= now - clock_of r <= period / 2 + window) kept ->
  prune period (ticks_add period (ticks_ms period now) (- window)) (map (stamp period) kept) =
  map (stamp period) (within window now kept).
Proof.
  intros Hw. induction 1 as [|[[t v] c] kept Hr _ IH]; [reflexivity|].
  unfold prune, within in *. simpl in *. unfold clock_of in *. simpl in *.
  rewrite (ticks_diff_cutoff window now t Hw Hr), IH.
  replace (0 <=? t - now + window) with (now - window <=? t)
    by (destruct (Z.leb_spec (now - window) t), (Z.leb_spec 0 (t - now + window)); lia).
  by destruct (now - window <=? t).
Qed.

Lemma within_within (window prev now : Z) (sched : list (Z * string * Z)) :
  prev <= now ->
  within window now (within window prev sched) = within window now sched.
Proof.
  intros Hle. unfold within. induction sched as [|r sched IH]; [reflexivity|].
  simpl. destruct (Z.leb_spec (prev - window) (clock_of r)); simpl.
  - by rewrite IH.
  - rewrite IH. destruct (Z.leb_spec (now - window) (clock_of r)); [lia|done].
Qed.

Lemma within_app (window now : Z) (l1 l2 : list (Z * string * Z)) :
  within window now (l1 ++ l2) = within window now l1 ++ within window now l2.
Proof. unfold within. apply List.filter_app. Qed.

Lemma within_bounds (window now : Z) (sched : list (Z * string * Z)) :
  Forall (fun r => now - window <= clock_of r) (within window now sched).
Proof.
  unfold within. apply List.Forall_forall. intros r Hin.
  apply List.filter_In in Hin as [_ Hin]. by apply Z.leb_le in Hin.
Qed.

(** One feed, in true time: the buffer holds the fed readings of the last
    [window] milliseconds. *)
Lemma feed_window (self : VerdictDebouncer) (fed : list (Z * string * Z))
    (prev now : Z) (v : string) (c : Z) :
  0 <= _window_ms self < period / 2 ->
  Forall (fun r => clock_of r <= prev) fed ->
  _buffer self = map (stamp period) (within (_window_ms self) prev fed) ->
  prev <= now <= prev + period / 2 ->
  _buffer (fst (feed period now v c self)) =
  map (stamp period) (within (_window_ms self) now (fed ++ [(now, v, c)])).
Proof.
  intros Hw Hfed Hbuf Hnow. unfold feed. simpl. rewrite Hbuf.
  change [(ticks_ms period now, v, c)] with (map (stamp period) [(now, v, c)]).
  rewrite <- map_app, prune_stamped; [|done|].
  - by rewrite within_app, within_within, <- within_app by lia.
  - apply List.Forall_app. split.
    + pose proof (within_bounds (_window_ms self) prev fed) as Hb.
      assert (Hsub : Forall (fun r => clock_of r <= prev) (within (_window_ms self) prev fed)).
      { apply List.Forall_forall. intros r Hin. unfold within in Hin.
        apply List.filter_In in Hin as [Hin _].
        by apply (proj1 (List.Forall_forall _ _) Hfed). }
      apply List.Forall_forall. intros r Hin.
      pose proof (proj1 (List.Forall_forall _ _) Hb r Hin).
      pose proof (proj1 (List.Forall_forall _ _) Hsub r Hin). simpl in *. lia.
    + constructor; [|constructor]. unfold clock_of. simpl. lia.
Qed.

Lemma feed_keeps_parameters (now : Z) (v : string) (c : Z) (self : VerdictDebouncer) :
  _window_ms (fst (feed period now v c self)) = _window_ms self
  /\ _threshold (fst (feed period now v c self)) = _threshold self.
Proof. done. Qed.

Lemma run_feeds_cons (r : Z * string * Z) (sched : list (Z * string * Z))
    (self : VerdictDebouncer) :
  run_feeds period (r :: sched) self =
  run_feeds period sched (fst (feed period (clock_of r) (snd (fst r)) (snd r) self)).
Proof. by destruct r as [[t v] c]. Qed.

Lemma run_feeds_window (sched fed : list (Z * string * Z)) (self : VerdictDebouncer)
    (prev : Z) :
  0 <= _window_ms self < period / 2 ->
  Forall (fun r => clock_of r <= prev) fed ->
  _buffer self = map (stamp period) (within (_window_ms self) prev fed) ->
  well_spaced period prev sched ->
  _buffer (run_feeds period sched self) =
  map (stamp period) (within (_window_ms self) (last_clock prev sched) (fed ++ sched)).
Proof.
  revert fed self prev.
  induction sched as [|[[t v] c] sched IH]; intros fed self prev Hw Hfed Hbuf Hsp.
  - simpl. by rewrite app_nil_r.
  - destruct Hsp as [Ht Hsp]. unfold clock_of in Ht, Hsp. simpl in Ht, Hsp.
    rewrite run_feeds_cons.
    change (last_clock prev ((t, v, c) :: sched)) with (last_clock t sched).
    change (clock_of (t, v, c)) with t. cbn [fst snd].
    pose proof (feed_window self fed prev t v c Hw Hfed Hbuf Ht) as Hstep.
    rewrite (IH (fed ++ [(t, v, c)]) (fst (feed period t v c self)) t).
    + by rewrite <- app_assoc.
    + done.
    + apply List.Forall_app. split.
      * eapply List.Forall_impl; [|exact Hfed]. simpl. lia.
      * constructor; [|constructor]. unfold clock_of. simpl. lia.
    + exact Hstep.
    + exact Hsp.
Qed.

(** X28.  Starting from an empty buffer, as long as the clock never runs
    backwards and no more than half a tick period passes between one feed
    and the next, the buffer after the last feed holds exactly the fed
    readings no older than the window span at that feed, in the order they
    were fed: every reading that remains satisfies
    observed_at >= now - window_span, and every reading whose age exceeds
    the window span is pruned. *)
Theorem feed_window_invariant (self : VerdictDebouncer)
    (first : Z * string * Z) (sched : list (Z * string * Z)) :
  _buffer self = [] ->
  0 <= _window_ms self < period / 2 ->
  well_spaced period (clock_of first) sched ->
  let now := last_clock (clock_of first) sched in
  let window := _buffer (run_feeds period (first :: sched) self) in
  window = map (stamp period) (within (_window_ms self) now (first :: sched))
  /\ (forall x, In x window ->
        exists r, In r (first :: sched) /\ x = stamp period r
                  /\ now - _window_ms self <= clock_of r)
  /\ (forall r, In r (first :: sched) ->
        now - _window_ms self <= clock_of r -> In (stamp period r) window).
Proof.
  intros Hempty Hw Hsp now window.
  assert (Heq : window = map (stamp period) (within (_window_ms self) now (first :: sched))).
  { subst window now.
    apply (run_feeds_window (first :: sched) [] self (clock_of first) Hw).
    - constructor.
    - by rewrite Hempty.
    - split; [|done]. pose proof (Z.div_pos period 2). lia. }
  split; [exact Heq|]. rewrite Heq. split.
  - intros x Hin. apply List.in_map_iff in Hin as (r & <- & Hin).
    unfold within in Hin. apply List.filter_In in Hin as [Hin Hle].
    apply Z.leb_le in Hle. eauto.
  - intros r Hin Hle. apply List.in_map. unfold within.
    apply List.filter_In. split; [done|]. by apply Z.leb_le.
Qed.

End Window.

(** X28, witness: three feeds twenty seconds apart on the device's
    debouncer; the first reading has left the window at the third feed. *)
Lemma feed_window_invariant_witness :
  let period := Ticks.ESP32_TICKS_PERIOD in
  let self := Debouncer.verdict_debouncer in
  let first := (0, "Asleep"%string, 90) in
  let sched := [(20000, "Asleep"%string, 90); (40000, "Awake"%string, 80)] in
  0 < period
  /\ Debouncer._buffer self = []
  /\ 0 <= Debouncer._window_ms self < period / 2
  /\ WindowSpec.well_spaced period (WindowSpec.clock_of first) sched
  /\ Debouncer._buffer (Debouncer.run_feeds period (first :: sched) self) =
       map (WindowSpec.stamp period)
         [(20000, "Asleep"%string, 90); (40000, "Awake"%string, 80)].
Proof.
  intros period self first sched.
  assert (Hp : 0 < period) by reflexivity.
  assert (Hw : 0 <= Debouncer._window_ms self < period / 2)
    by (vm_compute; split; [discriminate | reflexivity]).
  assert (Hsp : WindowSpec.well_spaced period (WindowSpec.clock_of first) sched)
    by (vm_compute; repeat split; discriminate).
  split; [exact Hp|]. split; [reflexivity|]. split; [exact Hw|]. split; [exact Hsp|].
  exact (proj1 (feed_window_invariant period Hp self first sched eq_refl Hw Hsp)).
Defined.

(** C8.  The pruning of [feed] compares ticks, which wrap around.  On the
    device (tick period 2^30 ms) a reading fed at clock 0 is still buffered
    after a feed at clock 536895913, a little over six days later and
    before the tick counter has wrapped, although its age exceeds the
    window span of 25000 ms. *)
Lemma feed_keeps_stale_reading_after_long_gap :
  let period := Ticks.ESP32_TICKS_PERIOD in
  let sched := [(0, "Asleep"%string, 90); (536895913, "Asleep"%string, 90)] in
  let self := Debouncer.run_feeds period sched Debouncer.verdict_debouncer in
  let now := 536895913 in
  In (WindowSpec.stamp period (0, "Asleep"%string, 90)) (Debouncer._buffer self)
  /\ ~ (now - Debouncer._window_ms self <= 0).
Proof.
  cbv zeta. split.
  - vm_compute. left. reflexivity.
  - vm_compute. intros H. apply H. reflexivity.
Qed.

(** The readings that pruning misses count in the vote.  Twelve Asleep
    readings, then, a little over six days later, fourteen Awake readings
    two seconds apart: at the fourteenth the buffer still holds the twelve
    old readings and [feed] answers nothing, where without them it answers
    Awake. *)
Lemma stale_readings_withhold_verdict :
  let period := Ticks.ESP32_TICKS_PERIOD in
  let self := Debouncer.verdict_debouncer in
  let aged := Debouncer.run_feeds period (stale_asleep ++ fresh_awake) self in
  let fresh := Debouncer.run_feeds period fresh_awake self in
  ConsensusSpec.count_of
    (Debouncer._buffer (fst (Debouncer.feed period 536943913 "Awake" 90 aged)))
    "Asleep" = 12
  /\ snd (Debouncer.feed period 536943913 "Awake" 90 aged) = None
  /\ snd (Debouncer.feed period 536943913 "Awake" 90 fresh) = Some "Awake"%string.
Proof.
  cbv zeta. repeat split; vm_compute; reflexivity.
Qed.

Section Dictionaries.
Import PyDict.

Lemma get_set_same (d : dict) (k : string) (x dflt : Z) :
  get (set d k x) k dflt = x.
Proof.
  induction d as [|[k' x'] d IH]; simpl.
  - by rewrite String.eqb_refl.
  - destruct (String.eqb k' k) eqn:E; simpl; rewrite E; [done | exact IH].
Qed.

Lemma get_set_other (d : dict) (k k' : string) (x dflt : Z) :
  k <> k' -> get (set d k x) k' dflt = get d k' dflt.
Proof.
  intros Hne. induction d as [|[k0 x0] d IH]; simpl.
  - destruct (String.eqb_spec k k'); [done | reflexivity].
  - destruct (String.eqb_spec k0 k) as [->|Hk]; simpl.
    + destruct (String.eqb_spec k k'); [done | reflexivity].
    + destruct (String.eqb_spec k0 k'); [reflexivity | exact IH].
Qed.

Lemma in_keys_set (d : dict) (k k' : string) (x : Z) :
  In k' (keys (set d k x)) <-> k' = k \/ In k' (keys d).
Proof.
  unfold keys. induction d as [|[k0 x0] d IH]; simpl.
  - intuition.
  - destruct (String.eqb_spec k0 k) as [->|Hk]; simpl; intuition.
Qed.

Lemma nodup_keys_set (d : dict) (k : string) (x : Z) :
  List.NoDup (keys d) -> List.NoDup (keys (set d k x)).
Proof.
  unfold keys. induction d as [|[k0 x0] d IH]; simpl; intros Hnd.
  - constructor; [intros [] | constructor].
  - apply List.NoDup_cons_iff in Hnd as [Hnin Hnd].
    destruct (String.eqb_spec k0 k) as [->|Hk]; simpl.
    + by constructor.
    + constructor; [|by apply IH].
      intros Hin. apply (in_keys_set d k k0 x) in Hin as [?|?]; [congruence | done].
Qed.

Lemma get_of_item (d : dict) (k : string) (x dflt : Z) :
  List.NoDup (keys d) -> In (k, x) d -> get d k dflt = x.
Proof.
  unfold keys. induction d as [|[k0 x0] d IH]; simpl; intros Hnd Hin; [done|].
  apply List.NoDup_cons_iff in Hnd as [Hnin Hnd].
  destruct Hin as [[= -> ->]|Hin].
  - by rewrite String.eqb_refl.
  - destruct (String.eqb_spec k0 k) as [->|Hk]; [|by apply IH].
    exfalso. apply Hnin. apply List.in_map_iff. by exists (k, x).
Qed.

Lemma item_of_key (d : dict) (k : string) :
  In k (keys d) -> exists x, In (k, x) d.
Proof.
  unfold keys. intros Hin. apply List.in_map_iff in Hin as ([k' x] & <- & Hin).
  by exists x.
Qed.

Lemma max_by_spec (key : string -> Z) (rest : list string) (first : string) :
  In (max_by key first rest) (first :: rest)
  /\ forall k, In k (first :: rest) -> key k <= key (max_by key first rest).
Proof.
  unfold max_by. revert first.
  induction rest as [|k rest IH]; intros first; simpl.
  - split; [by left|]. intros k [<-|[]]. lia.
  - destruct (IH (if key first <? key k then k else first)) as [Hin Hmax].
    split.
    + destruct Hin as [Hin|Hin]; [|by right; right].
      rewrite <- Hin. destruct (key first <? key k); [right; by left | by left].
    + intros k' [Hk'|[Hk'|Hk']]; subst.
      * etrans; [|apply Hmax; by left].
        destruct (Z.ltb_spec (key k') (key k)); lia.
      * etrans; [|apply Hmax; by left].
        destruct (Z.ltb_spec (key first) (key k')); lia.
      * apply Hmax. by right.
Qed.

End Dictionaries.

Section Consensus.
Import Ticks Debouncer ConsensusSpec.

Variable period : Z.
Hypothesis period_positive : 0 < period.

Implicit Types (window : list reading) (w v : string).

Lemma labelled_snoc w window (r : reading) :
  labelled w (window ++ [r]) =
  labelled w window ++ (if String.eqb (verdict_of_reading r) w then [r] else []).
Proof. unfold labelled. rewrite List.filter_app. simpl. by destruct (String.eqb _ _). Qed.

Lemma count_of_snoc window (r : reading) w :
  count_of (window ++ [r]) w =
  count_of window w + (if String.eqb (verdict_of_reading r) w then 1 else 0).
Proof.
  unfold count_of. rewrite labelled_snoc, length_app.
  destruct (String.eqb _ _); simpl; lia.
Qed.

Lemma sum_snoc (l : list Z) (x : Z) :
  fold_right Z.add 0 (l ++ [x]) = fold_right Z.add 0 l + x.
Proof. induction l as [|y l IH]; simpl; lia. Qed.

Lemma score_of_snoc window (r : reading) w :
  score_of (window ++ [r]) w =
  score_of window w + (if String.eqb (verdict_of_reading r) w then confidence_of r else 0).
Proof.
  unfold score_of. rewrite labelled_snoc, map_app.
  destruct (String.eqb _ _); simpl.
  - apply sum_snoc.
  - rewrite app_nil_r. lia.
Qed.

Lemma count_of_nonneg window w : 0 <= count_of window w.
Proof. unfold count_of. lia. Qed.

Lemma count_of_present window w : present window w <-> 1 <= count_of window w.
Proof.
  unfold present, count_of, labelled.
  induction window as [|r window IH]; simpl; [lia|].
  destruct (String.eqb_spec (verdict_of_reading r) w) as [->|Hne]; simpl.
  - split; [lia | by left].
  - rewrite <- IH. split; [intros [?|?]; [done|done] | by right].
Qed.

Lemma tally_snoc window (t : Z) v (c : Z) :
  tally (window ++ [(t, v, c)]) =
  (PyDict.set (fst (tally window)) v (PyDict.get (fst (tally window)) v 0 + 1),
   PyDict.set (snd (tally window)) v (PyDict.get (snd (tally window)) v 0 + c)).
Proof. unfold tally. rewrite fold_left_app. simpl. by destruct (fold_left _ _ _). Qed.

(** What the two dictionaries of [feed] hold. *)
Lemma tally_spec window :
  List.NoDup (PyDict.keys (fst (tally window)))
  /\ (forall v, PyDict.get (fst (tally window)) v 0 = count_of window v)
  /\ (forall v, PyDict.get (snd (tally window)) v 0 = score_of window v)
  /\ (forall v, In v (PyDict.keys (fst (tally window))) <-> present window v).
Proof.
  induction window as [|[[t v0] c] window IH] using rev_ind.
  - repeat split; try done. constructor.
  - destruct IH as (Hnd & Hcount & Hscore & Hkeys).
    rewrite tally_snoc. simpl. repeat split.
    + by apply nodup_keys_set.
    + intros v. rewrite count_of_snoc. unfold verdict_of_reading. simpl.
      destruct (String.eqb_spec v0 v) as [->|Hne].
      * by rewrite get_set_same, Hcount.
      * rewrite get_set_other, Hcount by done. lia.
    + intros v. rewrite score_of_snoc. unfold verdict_of_reading, confidence_of. simpl.
      destruct (String.eqb_spec v0 v) as [->|Hne].
      * by rewrite get_set_same, Hscore.
      * rewrite get_set_other, Hscore by done. lia.
    + intros Hin. apply in_keys_set in Hin. unfold present.
      rewrite map_app, List.in_app_iff. simpl. unfold verdict_of_reading at 2. simpl.
      destruct Hin as [->|Hin]; [right; by left | left; by apply Hkeys].
    + unfold present. rewrite map_app, List.in_app_iff. simpl.
      unfold verdict_of_reading at 2. simpl.
      intros [Hin|[<-|[]]]; apply in_keys_set; [right; by apply Hkeys | by left].
Qed.

Lemma dominant_spec window (best : string) :
  dominant (fst (tally window)) best (count_of window best) = true <->
  forall v, v <> best -> present window v -> 3 * count_of window v <= count_of window best.
Proof.
  destruct (tally_spec window) as (Hnd & Hcount & _ & Hkeys).
  unfold dominant. rewrite List.forallb_forall. split.
  - intros Hall v Hne Hp. apply Hkeys in Hp. apply item_of_key in Hp as [cnt Hin].
    pose proof (get_of_item _ _ _ 0 Hnd Hin) as Hget. rewrite Hcount in Hget.
    specialize (Hall _ Hin). simpl in Hall.
    destruct (String.eqb_spec v best); [done|]. simpl in Hall.
    apply negb_true_iff, Z.ltb_ge in Hall. lia.
  - intros Hdom [v cnt] Hin.
    pose proof (get_of_item _ _ _ 0 Hnd Hin) as Hget. rewrite Hcount in Hget.
    destruct (String.eqb_spec v best) as [->|Hne]; [done|]. simpl.
    apply negb_true_iff, Z.ltb_ge.
    assert (Hp : present window v).
    { apply Hkeys. unfold PyDict.keys. apply List.in_map_iff. by exists (v, cnt). }
    specialize (Hdom v Hne Hp). lia.
Qed.

(** The answer of [feed], whatever the order in which [max] meets the
    labels of the window. *)
Lemma verdict_from_spec (threshold : Z) window (first : string)
    (rest : list string) w :
  (forall v, In v (first :: rest) <-> present window v) ->
  verdict_from threshold (fst (tally window)) (snd (tally window)) first rest = Some w
  <-> wins threshold window w.
Proof.
  intros Hkeys.
  destruct (tally_spec window) as (Hnd & Hcount & Hscore & _).
  pose proof (dominant_spec window) as Hdom.
  unfold verdict_from.
  destruct (max_by_spec (fun k => PyDict.get (fst (tally window)) k 0) rest first)
    as [Hin Hmax].
  set (best := PyDict.max_by _ first rest) in *.
  rewrite !Hcount, Hscore.
  assert (Hbest : present window best) by (by apply Hkeys).
  assert (Hbest_max : forall v, count_of window v <= count_of window best).
  { intros v. destruct (Z.le_gt_cases 1 (count_of window v)) as [Hv|Hv].
    - apply count_of_present, Hkeys in Hv. specialize (Hmax v Hv).
      simpl in Hmax. by rewrite !Hcount in Hmax.
    - apply count_of_present in Hbest. lia. }
  split.
  - intros Hres.
    destruct (dominant (fst (tally window)) best (count_of window best)) eqn:Ed;
      [|done].
    destruct (Z.leb_spec threshold (score_of window best)); [|done].
    injection Hres as <-. split; [done|]. split; [|done]. by apply Hdom.
  - intros (Hwmax & Hwdom & Hwscore).
    assert (w = best) as ->.
    { destruct (String.eqb_spec best w) as [->|Hdiff]; [done|].
      specialize (Hwdom best Hdiff Hbest). specialize (Hbest_max w).
      apply count_of_present in Hbest. lia. }
    rewrite (proj2 (Hdom best) Hwdom).
    by destruct (Z.leb_spec threshold (score_of window best)); [|lia].
Qed.

(** The answer of [feed] on a non-empty pruned buffer. *)
Lemma consensus_spec (threshold : Z) window w :
  window <> [] ->
  consensus threshold window = Some w <-> wins threshold window w.
Proof.
  intros Hne.
  destruct (tally_spec window) as (_ & _ & _ & Hkeys).
  pose proof (verdict_from_spec threshold window) as Hfrom.
  unfold consensus. destruct (tally window) as [counts scores]. simpl in *.
  destruct (PyDict.keys counts) as [|first rest].
  - exfalso. destruct window as [|r window]; [done|].
    assert (Hp : present (r :: window) (verdict_of_reading r)) by (by left).
    by apply Hkeys in Hp.
  - by apply Hfrom.
Qed.

(** The answer does not depend on the order in which the dictionary is
    iterated: CPython keeps insertion order, MicroPython promises none. *)
Lemma consensus_any_order (threshold : Z) window (first : string)
    (rest : list string) :
  Permutation (first :: rest) (PyDict.keys (fst (tally window))) ->
  verdict_from threshold (fst (tally window)) (snd (tally window)) first rest =
  consensus threshold window.
Proof.
  intros Hperm.
  destruct (tally_spec window) as (_ & _ & _ & Hkeys).
  assert (Hin : forall v, In v (first :: rest) <-> present window v).
  { intros v. rewrite <- Hkeys. split; apply Permutation_in; [done | by symmetry]. }
  assert (Hne : window <> []).
  { intros ->. apply Permutation_length in Hperm. discriminate. }
  destruct (verdict_from _ _ _ _ _) as [w|] eqn:E1.
  - symmetry. apply consensus_spec; [done|].
    by apply (verdict_from_spec threshold window first rest w Hin).
  - destruct (consensus threshold window) as [w|] eqn:E2; [|done].
    apply consensus_spec in E2; [|done].
    apply (verdict_from_spec threshold window first rest w Hin) in E2. congruence.
Qed.

(** The reading just fed survives the pruning. *)
Lemma feed_buffer_nonempty (clock : Z) v (c : Z) (self : VerdictDebouncer) :
  0 <= _window_ms self < period / 2 ->
  _buffer (fst (feed period clock v c self)) <> [].
Proof.
  intros Hw. unfold feed. simpl. unfold prune. rewrite List.filter_app. simpl.
  rewrite (ticks_diff_cutoff period period_positive (_window_ms self) clock clock Hw) by lia.
  replace (0 <=? clock - clock + _window_ms self) with true
    by (symmetry; apply Z.leb_le; lia).
  by destruct (List.filter _ (_buffer self)).
Qed.

(** C2.  For the window buffer left by a feed (the reading appended, the
    stale entries pruned), [feed] answers the label [w] exactly when [w] has
    the maximal count, at least three times the count of every other label
    present, and a confidence sum of at least the threshold; it answers
    nothing exactly when no label meets the three conditions, which is the
    case when two distinct labels share the maximal count and when no label
    of maximal count reaches the threshold. *)
Theorem feed_answers_dominant_confident_label (clock : Z) (verdict : string)
    (confidence : Z) (self : VerdictDebouncer) :
  0 <= _window_ms self < period / 2 ->
  let window := _buffer (fst (feed period clock verdict confidence self)) in
  let answer := snd (feed period clock verdict confidence self) in
  (forall w, answer = Some w <-> wins (_threshold self) window w)
  /\ (answer = None <-> forall w, ~ wins (_threshold self) window w)
  /\ (forall a b, a <> b -> present window a ->
        count_of window a = count_of window b ->
        (forall v, count_of window v <= count_of window a) ->
        answer = None)
  /\ ((forall w, (forall v, count_of window v <= count_of window w) ->
                 score_of window w < _threshold self) ->
      answer = None).
Proof.
  intros Hw window answer.
  pose proof (feed_buffer_nonempty clock verdict confidence self Hw) as Hne.
  assert (Hiff : forall w, answer = Some w <-> wins (_threshold self) window w).
  { intros w. subst answer window. unfold feed at 1. simpl.
    apply consensus_spec. exact Hne. }
  assert (Hnone : answer = None <-> forall w, ~ wins (_threshold self) window w).
  { split.
    - intros Hn w Hwin. apply Hiff in Hwin. congruence.
    - intros Hno. destruct answer as [w|] eqn:E; [|done].
      exfalso. apply (Hno w). by apply Hiff. }
  split; [exact Hiff|]. split; [exact Hnone|]. split.
  - intros a b Hab Ha Hcount Hmax. apply Hnone. intros w (Hwmax & Hwdom & _).
    apply count_of_present in Ha.
    assert (Hb : present window b) by (apply count_of_present; lia).
    pose proof (Hwmax a). pose proof (Hmax w).
    destruct (String.eqb_spec a w) as [->|Haw].
    + assert (Hbw : b <> w) by congruence.
      specialize (Hwdom b Hbw Hb). lia.
    + assert (Hpa : present window a) by (apply count_of_present; lia).
      specialize (Hwdom a Haw Hpa). lia.
  - intros Hlow. apply Hnone. intros w (Hwmax & _ & Hscore).
    specialize (Hlow w Hwmax). lia.
Qed.

End Consensus.

(** C2, witness: the seventh consecutive Asleep reading at confidence 90
    on the device's debouncer is answered Asleep. *)
Lemma feed_answers_witness :
  let period := Ticks.ESP32_TICKS_PERIOD in
  let self :=
    Debouncer.run_feeds period
      (map (fun i => (i * 2000, "Asleep"%string, 90)) [0; 1; 2; 3; 4; 5])
      Debouncer.verdict_debouncer in
  0 < period
  /\ 0 <= Debouncer._window_ms self < period / 2
  /\ ConsensusSpec.wins (Debouncer._threshold self)
       (Debouncer._buffer (fst (Debouncer.feed period 12000 "Asleep" 90 self)))
       "Asleep".
Proof.
  intros period self.
  assert (Hp : 0 < period) by reflexivity.
  assert (Hw : 0 <= Debouncer._window_ms self < period / 2)
    by (vm_compute; split; [discriminate | reflexivity]).
  split; [exact Hp|]. split; [exact Hw|].
  apply (proj1 (feed_answers_dominant_confident_label period Hp 12000 "Asleep" 90
                  self Hw)).
  vm_compute. reflexivity.
Defined.

Section Sorting.
Import SleepBlocks BlocksSpec.

Lemma insert_by_start_perm (x : normalized) (l : list normalized) :
  Permutation (insert_by_start x l) (x :: l).
Proof.
  induction l as [|y l IH]; simpl; [reflexivity|].
  destruct (sleep_started_at x <=? sleep_started_at y); [reflexivity|].
  rewrite IH. apply perm_swap.
Qed.

Lemma insert_by_start_sorted (x : normalized) (l : list normalized) :
  Sorted starts_before l -> Sorted starts_before (insert_by_start x l).
Proof.
  induction l as [|y l IH]; simpl; intros Hs.
  - repeat constructor.
  - destruct (Z.leb_spec (sleep_started_at x) (sleep_started_at y)).
    + constructor; [done|]. by constructor.
    + inversion Hs as [|? ? Hs' Hhd]; subst. constructor; [by apply IH|].
      destruct l as [|z l]; simpl.
      * constructor. unfold starts_before. lia.
      * destruct (Z.leb_spec (sleep_started_at x) (sleep_started_at z)).
        -- constructor. unfold starts_before. lia.
        -- constructor. by inversion Hhd.
Qed.

Lemma insert_by_start_stable (t : Z) (x : normalized) (l : list normalized) :
  starting_at t (insert_by_start x l) = starting_at t (x :: l).
Proof.
  unfold starting_at. induction l as [|y l IH]; simpl; [reflexivity|].
  destruct (Z.leb_spec (sleep_started_at x) (sleep_started_at y)); [reflexivity|].
  simpl in *. rewrite IH.
  destruct (Z.eqb_spec (sleep_started_at x) t), (Z.eqb_spec (sleep_started_at y) t);
    (lia || reflexivity).
Qed.

(** The sort of the aggregator: a permutation, ascending by
    [sleep_started_at], records of equal start in their original order. *)
Lemma sort_by_start_spec (l : list normalized) :
  Permutation (sort_by_start l) l
  /\ Sorted starts_before (sort_by_start l)
  /\ forall t, starting_at t (sort_by_start l) = starting_at t l.
Proof.
  unfold sort_by_start. induction l as [|x l (Hp & Hs & Hst)]; simpl.
  - repeat split; constructor.
  - split; [|split].
    + rewrite insert_by_start_perm. by constructor.
    + by apply insert_by_start_sorted.
    + intros t. rewrite insert_by_start_stable. unfold starting_at in *. simpl.
      by rewrite Hst.
Qed.

End Sorting.

Section Grouping.
Import SleepBlocks BlocksSpec.

Variable gap_threshold : Q.

Lemma snoc_nonempty (block : list normalized) (curr : normalized) :
  block ++ [curr] <> [].
Proof. by destruct block. Qed.

Lemma chained_snoc (block : list normalized) (prev curr : normalized) :
  last block = Some prev ->
  chained gap_threshold block ->
  joins gap_threshold prev curr ->
  chained gap_threshold (block ++ [curr]).
Proof.
  intros Hlast Hch Hj. induction block as [|x [|y l] IH]; simpl in *.
  - done.
  - injection Hlast as ->. done.
  - destruct Hch as [Hxy Hch]. split; [done|]. by apply IH.
Qed.

(** The blocks of the loop: the first one extends the block being filled,
    together they are the records in order, inside a block every record
    joins the one before it, and a block starts where a record does not. *)
Lemma runs_from_spec (rest current : list normalized) :
  current <> [] ->
  chained gap_threshold current ->
  (exists ext more, runs_from gap_threshold current rest = (current ++ ext) :: more)
  /\ concat (runs_from gap_threshold current rest) = current ++ rest
  /\ Forall (chained gap_threshold) (runs_from gap_threshold current rest)
  /\ separated gap_threshold (runs_from gap_threshold current rest).
Proof.
  revert current. induction rest as [|curr rest IH]; intros current Hne Hch; simpl.
  - split; [exists [], []; by rewrite app_nil_r|].
    split; [by rewrite !app_nil_r|].
    split; [by constructor | done].
  - destruct (last current) as [prev|] eqn:Hlast;
      [|by apply last_None in Hlast].
    destruct (Qle_bool (gap_minutes prev curr) gap_threshold) eqn:Hgap.
    + apply Qle_bool_iff in Hgap.
      destruct (IH (current ++ [curr])) as ((ext & more & Heq) & Hcat & Hall & Hsep).
      { apply snoc_nonempty. }
      { by apply (chained_snoc current prev curr). }
      split; [exists (curr :: ext), more; by rewrite Heq, <- app_assoc|].
      split; [by rewrite Hcat, <- app_assoc|]. done.
    + assert (Hnj : ~ joins gap_threshold prev curr).
      { unfold joins. rewrite <- Qle_bool_iff. by rewrite Hgap. }
      destruct (IH [curr]) as ((ext & more & Heq) & Hcat & Hall & Hsep);
        [done | done |].
      split; [exists [], (runs_from gap_threshold [curr] rest); by rewrite app_nil_r|].
      split; [simpl; by rewrite Hcat|].
      split; [by constructor|].
      rewrite Heq in *. simpl. split; [|exact Hsep].
      intros p c Hp Hc. rewrite Hlast in Hp. injection Hp as <-.
      injection Hc as <-. exact Hnj.
Qed.

Lemma py_sum_from (block : list normalized) (acc : Q) :
  Forall numeric block ->
  exists total,
    fold_left (fun acc v => acc ≫= fun a => py_add a v)
      (map duration_minutes block) (Some acc) = Some total
    /\ Qeq total (Qplus acc (sum_durations block)).
Proof.
  intros Hnum. revert acc. induction Hnum as [|n block [q Hq] _ IH]; intros acc; simpl.
  - exists acc. split; [done|]. unfold sum_durations. simpl. ring.
  - rewrite Hq. simpl. destruct (IH (Qplus acc q)) as (total & -> & Heq).
    exists total. split; [done|]. rewrite Heq.
    unfold sum_durations, duration_of. simpl. rewrite Hq. ring.
Qed.

(** [_build_block] on a non-empty block of records with numeric durations. *)
Lemma build_block_spec (block : list normalized) :
  block <> [] ->
  Forall numeric block ->
  exists b, _build_block block = Some b /\ describes b block.
Proof.
  intros Hne Hnum. unfold _build_block.
  destruct (head block) as [first|] eqn:Hhead;
    [|by apply head_None in Hhead].
  destruct (last block) as [final|] eqn:Hlast;
    [|by apply last_None in Hlast].
  destruct (py_sum_from block (0 # 1) Hnum) as (total & Hsum & Heq).
  unfold py_sum. simpl. rewrite Hsum. simpl.
  eexists. split; [reflexivity|]. exists first, final. simpl.
  repeat split; try done. rewrite Heq. ring.
Qed.

Lemma fold_group_step_none (rest : list normalized) :
  fold_left (fun st curr => st ≫= fun st => group_step gap_threshold st curr)
    rest None = None.
Proof. by induction rest. Qed.

(** The loop of [group_into_sleep_blocks] and its last [append] build the
    blocks of [runs_from], one after the other. *)
Lemma group_loop_spec (rest : list normalized) (blocks : list SleepBlock)
    (current : list normalized) :
  current <> [] ->
  (st ← fold_left (fun st curr => st ≫= fun st => group_step gap_threshold st curr)
          rest (Some (blocks, current));
   block ← _build_block (snd st);
   Some (fst st ++ [block]))
  = (built ← mapM _build_block (runs_from gap_threshold current rest);
     Some (blocks ++ built)).
Proof.
  revert blocks current.
  induction rest as [|curr rest IH]; intros blocks current Hne; simpl.
  - destruct (_build_block current); simpl; [|done]. done.
  - destruct (last current) as [prev|] eqn:Hlast;
      [|by apply last_None in Hlast]. simpl.
    unfold gap_minutes.
    destruct (Qle_bool _ gap_threshold).
    + apply IH. apply snoc_nonempty.
    + destruct (_build_block current) as [b|] eqn:Hb; simpl.
      * rewrite IH by done.
        destruct (mapM _build_block (runs_from gap_threshold [curr] rest));
          simpl; rewrite Hb; simpl; [|done].
        by rewrite <- app_assoc.
      * by rewrite fold_group_step_none, Hb.
Qed.

Lemma build_all_spec (groups : list (list normalized)) :
  Forall (fun g => g <> []) groups ->
  Forall (Forall numeric) groups ->
  exists built, mapM _build_block groups = Some built /\ Forall2 describes built groups.
Proof.
  induction groups as [|g groups IH]; intros Hne Hnum; simpl.
  - exists []. split; [done|constructor].
  - apply Forall_cons in Hne as [Hg Hne]. apply Forall_cons in Hnum as [Hgn Hnum].
    destruct (build_block_spec g Hg Hgn) as (b & -> & Hb).
    destruct (IH Hne Hnum) as (built & -> & Hall). simpl.
    exists (b :: built). split; [done|]. by constructor.
Qed.

Lemma runs_from_nonempty (rest current : list normalized) :
  current <> [] ->
  Forall (fun g => g <> []) (runs_from gap_threshold current rest).
Proof.
  revert current. induction rest as [|curr rest IH]; intros current Hne; simpl.
  - by constructor.
  - destruct (last current) as [prev|]; [|by apply IH].
    destruct (Qle_bool _ _); [apply IH; apply snoc_nonempty|].
    constructor; [done|]. by apply IH.
Qed.

End Grouping.

Section Aggregator.
Import SleepBlocks BlocksSpec.

(** C4.  On records whose durations are numbers the aggregator returns
    blocks such that: the normalized records are sorted ascending by
    [sleep_started_at] (a permutation of them, records of equal start in
    their original order); the blocks split the sorted records into
    consecutive groups; inside a group every record but the first has a gap
    to the record before it of at most the threshold, and the first record
    of a group has a larger gap to the last record of the group before it;
    and each block has [block_start] of its first record, [block_end] of
    its last, the sum of the durations, the span from start to end in
    minutes, and an interruption count of the number of records minus one.
    A single record gives one block with interruption count 0. *)
Theorem group_into_sleep_blocks_groups_by_gap
    (fromisoformat : string -> option Z) (json_loads : string -> option value)
    (events : list event) (gap_threshold : Q) (source : string) :
  Forall numeric (normalize_all fromisoformat json_loads events source) ->
  exists (sorted : list normalized) (groups : list (list normalized))
         (blocks : list SleepBlock),
    group_into_sleep_blocks fromisoformat json_loads events gap_threshold source
      = Some blocks
    /\ Permutation sorted (normalize_all fromisoformat json_loads events source)
    /\ Sorted starts_before sorted
    /\ (forall t, starting_at t sorted =
                  starting_at t (normalize_all fromisoformat json_loads events source))
    /\ concat groups = sorted
    /\ Forall (chained gap_threshold) groups
    /\ separated gap_threshold groups
    /\ Forall2 describes blocks groups
    /\ (forall n, sorted = [n] ->
          exists b, blocks = [b] /\ interruption_count b = 0).
Proof.
  intros Hnum.
  set (records := normalize_all fromisoformat json_loads events source) in *.
  destruct (sort_by_start_spec records) as (Hperm & Hsorted & Hstable).
  assert (Hnum' : Forall numeric (sort_by_start records)).
  { apply List.Forall_forall. intros n Hin.
    apply (proj1 (List.Forall_forall _ _) Hnum).
    by apply (Permutation_in _ Hperm). }
  exists (sort_by_start records).
  unfold group_into_sleep_blocks. fold records.
  destruct (sort_by_start records) as [|first rest] eqn:Hsort.
  - exists [], []. repeat split; try done; constructor.
  - assert (Hne : [first] <> []) by done.
    destruct (runs_from_spec gap_threshold rest [first] Hne I)
      as (_ & Hcat & Hchained & Hsep).
    pose proof (runs_from_nonempty gap_threshold rest [first] Hne) as Hnonempty.
    assert (Hgnum : Forall (Forall numeric) (runs_from gap_threshold [first] rest)).
    { apply List.Forall_forall. intros g Hg. apply List.Forall_forall. intros n Hn.
      apply (proj1 (List.Forall_forall _ _) Hnum').
      change (first :: rest) with ([first] ++ rest). rewrite <- Hcat.
      apply List.in_concat. eauto. }
    destruct (build_all_spec _ Hnonempty Hgnum) as (built & Hbuilt & Hdesc).
    exists (runs_from gap_threshold [first] rest), built.
    rewrite (group_loop_spec gap_threshold rest [] [first] Hne), Hbuilt. simpl.
    repeat split; try done.
    intros n [= -> ->]. simpl in Hdesc.
    inversion Hdesc as [|b g bs gs Hb Hrest]; subst.
    inversion Hrest; subst. exists b. split; [done|].
    destruct Hb as (? & ? & _ & _ & _ & _ & _ & _ & Hcount & _). by rewrite Hcount.
Qed.

End Aggregator.

(** The merge example of the specification: one block with one interruption
    and 45 minutes of sleep at a threshold of 30 minutes, two blocks at a
    threshold of 10 minutes. *)
Example merge_example :
  option_map (map summary)
    (SleepBlocks.group_into_sleep_blocks no_iso no_json two_sessions (30 # 1) "auto")
  = Some [(clock_time 10 0, clock_time 11 0, 45 # 1, 1)]
  /\ option_map (map summary)
       (SleepBlocks.group_into_sleep_blocks no_iso no_json two_sessions (10 # 1) "auto")
     = Some [(clock_time 10 0, clock_time 10 30, 30 # 1, 0);
             (clock_time 10 45, clock_time 11 0, 15 # 1, 0)].
Proof. split; vm_compute; reflexivity. Qed.

(** C4, witness: the two sessions of the merge example. *)
Lemma group_into_sleep_blocks_witness :
  Forall BlocksSpec.numeric
    (SleepBlocks.normalize_all no_iso no_json two_sessions "auto")
  /\ exists blocks,
       SleepBlocks.group_into_sleep_blocks no_iso no_json two_sessions (30 # 1) "auto"
       = Some blocks.
Proof.
  assert (Hnum : Forall BlocksSpec.numeric
                   (SleepBlocks.normalize_all no_iso no_json two_sessions "auto")).
  { vm_compute. repeat constructor; eexists; reflexivity. }
  split; [exact Hnum|].
  destruct (group_into_sleep_blocks_groups_by_gap no_iso no_json two_sessions
              (30 # 1) "auto" Hnum) as (sorted & groups & blocks & Hres & _).
  exists blocks. exact Hres.
Defined.

Section Normalization.
Import SleepBlocks BlocksSpec NormalizeSpec.

Variable fromisoformat : string -> option Z.
Variable json_loads : string -> option value.

Lemma round_half_even_exact (x : Q) (k : Z) :
  Qnum x = k * Zpos (Qden x) -> Py.round_half_even x = k.
Proof.
  intros Hx. unfold Py.round_half_even. rewrite Hx.
  rewrite Z.div_mul by done.
  replace (2 * (k * Z.pos (Qden x) - k * Z.pos (Qden x))) with 0 by lia.
  reflexivity.
Qed.

(** A duration that is a whole number of microseconds is not rounded. *)
Lemma timedelta_minutes_exact (q : Q) (us : Z) :
  Qeq (Qmult q (60000000 # 1)) (us # 1) -> Py.timedelta_minutes q = us.
Proof.
  intros Heq. unfold Py.timedelta_minutes. apply round_half_even_exact.
  unfold Qeq in Heq. simpl in *. change (Z.pos Py.MINUTE) with 60000000. lia.
Qed.

Lemma timedelta_minutes_zero (q : Q) :
  Qnum q = 0 -> Py.timedelta_minutes q = 0.
Proof.
  intros Hq. apply timedelta_minutes_exact. unfold Qeq. simpl. rewrite Hq. lia.
Qed.

Lemma parse_missing (d : event) (key : string) :
  d !! key = None \/ d !! key = Some VNone ->
  _parse_timestamp fromisoformat (get d key) = None.
Proof. unfold get. by intros [-> | ->]. Qed.

Lemma normalize_all_drops (before after : list event) (e : event) (source : string) :
  _normalize_event fromisoformat json_loads e source = None ->
  normalize_all fromisoformat json_loads (before ++ e :: after) source =
  normalize_all fromisoformat json_loads (before ++ after) source.
Proof.
  intros Hnone. unfold normalize_all. rewrite !omap_app. simpl. by rewrite Hnone.
Qed.

(** C5.  A record of the shape that provides only [awakened_at] and a
    duration normalizes to [sleep_started_at = awakened_at -
    timedelta(minutes=duration)], which is [awakened_at] minus the duration
    whenever the duration is a whole number of microseconds (40 minutes
    before 12:00 is 11:20).  A record of any shape that lacks a required
    timestamp (the key absent, [None], or a value that is no timestamp)
    normalizes to nothing, and the aggregator answers as if the record were
    not in its input. *)
Theorem normalize_derives_start_and_drops_untimed :
  (forall (record : event) source awakened q,
     shape source record = "awakenings_with_insights"%string ->
     _parse_timestamp fromisoformat (get record "awakened_at") = Some awakened ->
     get record "sleep_duration_minutes" = VNum q ->
     exists n,
       _normalize_event fromisoformat json_loads record source = Some n
       /\ sleep_started_at n = awakened - Py.timedelta_minutes q
       /\ awakened_at n = awakened
       /\ original n = record
       /\ (forall us : Z, Qeq (Qmult q (60000000 # 1)) (us # 1) ->
             sleep_started_at n = awakened - us))
  /\ (sleep_started_at <$>
        _normalize_event fromisoformat json_loads
          (awakening_record (clock_time 12 0) (40 # 1)) "auto")
     = Some (clock_time 11 20)
  /\ (forall (record : event) source,
        Exists (fun v => _parse_timestamp fromisoformat v = None)
          (required_timestamps json_loads (shape source record) record) ->
        _normalize_event fromisoformat json_loads record source = None)
  /\ (forall (d : event) key,
        d !! key = None \/ d !! key = Some VNone ->
        _parse_timestamp fromisoformat (get d key) = None)
  /\ (forall before (e : event) after gap_threshold source,
        _normalize_event fromisoformat json_loads e source = None ->
        group_into_sleep_blocks fromisoformat json_loads (before ++ e :: after)
          gap_threshold source =
        group_into_sleep_blocks fromisoformat json_loads (before ++ after)
          gap_threshold source).
Proof.
  split; [|split; [|split; [|split]]].
  - intros record source awakened q Hshape Hparse Hdur.
    unfold _normalize_event. unfold shape in Hshape. rewrite Hshape. simpl.
    rewrite Hparse, Hdur. unfold or_zero. simpl.
    destruct (Z.eqb_spec (Qnum q) 0) as [Hz|Hnz]; simpl.
    + eexists. split; [reflexivity|]. simpl.
      rewrite (timedelta_minutes_zero q Hz).
      change (Py.timedelta_minutes 0) with 0.
      repeat split. intros us Hus.
      pose proof (timedelta_minutes_exact q us Hus) as Hx.
      rewrite (timedelta_minutes_zero q Hz) in Hx. by rewrite <- Hx.
    + eexists. split; [reflexivity|]. simpl. repeat split.
      intros us Hus. by rewrite (timedelta_minutes_exact q us Hus).
  - vm_compute. reflexivity.
  - intros record source Hmiss. unfold _normalize_event.
    unfold shape in Hmiss. unfold required_timestamps, metadata_of in Hmiss.
    destruct (String.eqb _ "awakenings_with_insights").
    { apply List.Exists_cons in Hmiss as [-> | Hmiss]; [done | by inversion Hmiss]. }
    destruct (String.eqb _ "events_for_period").
    { destruct (default (VDict ∅) (record !! "event_metadata")) as [|?|s|?|md];
        try done.
      - destruct (json_loads s) as [[|?|?|?|md]|]; try done.
        apply List.Exists_cons in Hmiss as [-> | Hmiss]; [done|].
        apply List.Exists_cons in Hmiss as [-> | Hmiss]; [|by inversion Hmiss].
        by destruct (_parse_timestamp _ _).
      - apply List.Exists_cons in Hmiss as [-> | Hmiss]; [done|].
        apply List.Exists_cons in Hmiss as [-> | Hmiss]; [|by inversion Hmiss].
        by destruct (_parse_timestamp _ _). }
    destruct (String.eqb _ "sessions_for_range"); [|done].
    apply List.Exists_cons in Hmiss as [-> | Hmiss]; [done|].
    apply List.Exists_cons in Hmiss as [-> | Hmiss]; [|by inversion Hmiss].
    by destruct (_parse_timestamp _ _).
  - apply parse_missing.
  - intros before e after gap_threshold source Hnone.
    unfold group_into_sleep_blocks. by rewrite (normalize_all_drops _ _ _ _ Hnone).
Qed.

End Normalization.

(** ** The claims at concrete inputs *)

(** C6, witness: ending the sleep of baby 10 after the parent's override
    answers the session of the override and empties the registry; ending it
    on a fresh manager answers [None] and changes nothing. *)
Lemma end_sleep_witness :
  SleepState.end_sleep 10 SleepState.init = (SleepState.init, None)
  /\ snd (SleepState.end_sleep 10 overridden) =
       Some {| SleepState.baby_id := 10; SleepState.start_time := 0 |}
  /\ SleepState._sleeping_babies (fst (SleepState.end_sleep 10 overridden)) !! 10 = None.
Proof.
  split.
  - exact (proj1 (end_sleep_removes_or_reports_none SleepState.init 10) eq_refl).
  - destruct (proj2 (end_sleep_removes_or_reports_none overridden 10)
                {| SleepState.baby_id := 10; SleepState.start_time := 0 |} eq_refl)
      as (Hret & _ & Hgone & _).
    split; [exact Hret | exact Hgone].
Defined.

(** C7, witness: a sleep-start for baby 10 at time 5 on a fresh manager
    creates the session; a second one at time 9 answers the same session
    and changes nothing. *)
Lemma start_sleep_witness :
  let started := fst (SleepState.start_sleep 5 10 SleepState.init) in
  snd (SleepState.start_sleep 5 10 SleepState.init) =
    {| SleepState.baby_id := 10; SleepState.start_time := 5 |}
  /\ SleepState.start_sleep 9 10 started =
       (started, {| SleepState.baby_id := 10; SleepState.start_time := 5 |}).
Proof.
  intros started. split.
  - exact (proj1 (proj1 (proj2 (start_sleep_idempotent 5 10 SleepState.init)) eq_refl)).
  - exact (proj1 (start_sleep_idempotent 9 10 started)
             {| SleepState.baby_id := 10; SleepState.start_time := 5 |} eq_refl).
Defined.

(** C10, witness: one minute into the cooldown of the parent's override 20
    minutes are reported, by [get_cooldown_remaining] and in the payload of
    an ignored sleep-start; at its end nothing is, and the entry is gone. *)
Lemma cooldown_remaining_witness :
  SleepState.get_cooldown_remaining 60000000 10 overridden = (overridden, Some 20)
  /\ snd (SleepState.get_cooldown_remaining 1200000000 10 overridden) = None
  /\ SleepState._intervention_cooldowns
       (fst (SleepState.get_cooldown_remaining 1200000000 10 overridden)) !! 10 = None
  /\ SensorEvents.sleep_start 60000000 60000000 60000000 [10] 10 overridden =
       (overridden, SensorEvents.CooldownIgnored (Some 20)).
Proof.
  pose proof (cooldown_remaining_positive_while_active 60000000 10 overridden)
    as (Hactive & _ & Hpayload).
  pose proof (cooldown_remaining_positive_while_active 1200000000 10 overridden)
    as (_ & Hexpired & _).
  split; [|split; [|split]].
  - destruct (Hactive eq_refl) as (cooldown_until & Hentry & Hremaining & _).
    vm_compute in Hentry. injection Hentry as <-. exact Hremaining.
  - exact (proj1 (Hexpired 1200000000 eq_refl ltac:(reflexivity))).
  - exact (proj1 (proj2 (proj2 (Hexpired 1200000000 eq_refl ltac:(reflexivity))))).
  - destruct (Hpayload 60000000 60000000 0 [10] None eq_refl)
      as (cooldown_until & Hentry & Hstill & _).
    vm_compute in Hentry. injection Hentry as <-.
    exact (proj1 (Hstill ltac:(reflexivity))).
Defined.

(** C5, witness: 40 minutes before 12:00 is 11:20, and a record without
    [awakened_at] is dropped. *)
Lemma normalize_witness :
  (exists n,
     SleepBlocks._normalize_event no_iso no_json
       (NormalizeSpec.awakening_record (clock_time 12 0) (40 # 1)) "auto" = Some n
     /\ SleepBlocks.sleep_started_at n = clock_time 12 0 - 40 * 60000000)
  /\ SleepBlocks._normalize_event no_iso no_json
       (<["ai_insight" := SleepBlocks.VNone]> ∅) "auto" = None.
Proof.
  pose proof (normalize_derives_start_and_drops_untimed no_iso no_json)
    as (Hderive & _ & Hmissing & _).
  split.
  - destruct (Hderive (NormalizeSpec.awakening_record (clock_time 12 0) (40 # 1))
                "auto"%string (clock_time 12 0) (40 # 1) eq_refl eq_refl eq_refl)
      as (n & Hn & _ & _ & _ & Hexact).
    exists n. split; [exact Hn|]. apply Hexact. reflexivity.
  - apply Hmissing. vm_compute. constructor. reflexivity.
Defined.

(** ** More of the device *)
Section LifecycleLog.
Import StateMachine LogSpec.

Lemma well_formed_app (sleeping : bool) (log1 log2 : list event) :
  well_formed sleeping log1 ->
  well_formed (open_after sleeping log1) log2 ->
  well_formed sleeping (log1 ++ log2).
Proof.
  revert sleeping. induction log1 as [|e log1 IH]; intros sleeping H1 H2; [done|].
  destruct e; simpl in *.
  - destruct H1 as [-> H1]. split; [done|]. by apply IH.
  - destruct H1 as [-> H1]. split; [done|]. by apply IH.
  - by apply IH.
Qed.

Lemma open_after_app (sleeping : bool) (log1 log2 : list event) :
  open_after sleeping (log1 ++ log2) = open_after (open_after sleeping log1) log2.
Proof. unfold open_after. by rewrite fold_left_app. Qed.

(** One transition posts nothing, or the one event that fits the state it
    leaves; the state it enters is asleep exactly when a sleep-start is
    open after it. *)
Lemma transition_log (s : state) (v : option string) :
  well_formed (is_asleep s) (snd (handle_state_transition s v))
  /\ open_after (is_asleep s) (snd (handle_state_transition s v)) =
     is_asleep (fst (handle_state_transition s v)).
Proof.
  destruct v as [v|]; simpl; [|done].
  unfold handle_state_transition.
  destruct (String.eqb v "Asleep"); [by destruct s|].
  destruct (String.eqb v "Awake"); [by destruct s|].
  destruct (String.eqb v "No Baby Found"); by destruct s.
Qed.

Lemma run_log (verdicts : list (option string)) (s : state) :
  well_formed (is_asleep s) (snd (run s verdicts))
  /\ open_after (is_asleep s) (snd (run s verdicts)) = is_asleep (fst (run s verdicts)).
Proof.
  revert s. induction verdicts as [|v verdicts IH]; intros s; simpl; [done|].
  pose proof (transition_log s v) as [Hwf Hopen].
  destruct (handle_state_transition s v) as [s1 out1]. simpl in *.
  destruct (IH s1) as [Hwf' Hopen'].
  destruct (run s1 verdicts) as [s2 out2]. simpl in *.
  split.
  - apply well_formed_app; [done|]. by rewrite Hopen.
  - by rewrite open_after_app, Hopen.
Qed.

(** X1.  Whatever verdicts the state machine is fed from its initial state,
    known labels or not, the events it posts form a well-formed log: a
    sleep-start is never posted while an earlier one is still open, a
    sleep-end is posted only to close the sleep-start right before it, and
    the machine is asleep at the end exactly when the last event posted is
    a sleep-start. *)
Theorem lifecycle_log_well_formed (verdicts : list (option string)) :
  well_formed false (snd (run initial_state verdicts))
  /\ (is_asleep (fst (run initial_state verdicts)) = true <->
      last (snd (run initial_state verdicts)) = Some sleep_start).
Proof.
  destruct (run_log verdicts initial_state) as [Hwf Hopen]. split; [exact Hwf|].
  rewrite <- Hopen. simpl.
  generalize (snd (run initial_state verdicts)). intros log.
  induction log as [|e log IH] using rev_ind; [done|].
  rewrite open_after_app, last_snoc. simpl. by destruct e.
Qed.

End LifecycleLog.

Section DebouncerBounds.
Import Ticks Debouncer ConsensusSpec CapSpec DeviceLoop StateMachine.

Variable period : Z.

Lemma score_of_capped (cmax : Z) (window : list reading) (w : string) :
  capped cmax window -> score_of window w <= cmax * count_of window w.
Proof.
  unfold capped, score_of, count_of, labelled.
  induction 1 as [|r window Hr _ IH]; simpl; [lia|].
  destruct (String.eqb (verdict_of_reading r) w); simpl; [|exact IH].
  rewrite Nat2Z.inj_succ. lia.
Qed.

Lemma count_of_le_length (window : list reading) (w : string) :
  count_of window w <= Z.of_nat (length window).
Proof.
  unfold count_of, labelled. apply inj_le. apply List.filter_length_le.
Qed.

Lemma prune_capped (cmax cutoff : Z) (buffer : list reading) :
  capped cmax buffer -> capped cmax (prune period cutoff buffer).
Proof.
  unfold capped, prune. intros H. apply List.Forall_forall. intros r Hin.
  apply List.filter_In in Hin as [Hin _].
  by apply (proj1 (List.Forall_forall _ _) H).
Qed.

Lemma feed_capped (cmax clock : Z) (v : string) (c : Z) (self : VerdictDebouncer) :
  capped cmax (_buffer self) -> c <= cmax ->
  capped cmax (_buffer (fst (feed period clock v c self))).
Proof.
  intros Hb Hc. unfold feed. simpl. apply prune_capped.
  apply List.Forall_app. split; [done|]. by constructor.
Qed.

Lemma feed_length (clock : Z) (v : string) (c : Z) (self : VerdictDebouncer) :
  (length (_buffer (fst (feed period clock v c self))) <= S (length (_buffer self)))%nat.
Proof.
  unfold feed, prune. simpl.
  etrans; [apply List.filter_length_le|]. rewrite length_app. simpl. lia.
Qed.

Lemma consensus_some_nonempty (threshold : Z) (window : list reading) (w : string) :
  consensus threshold window = Some w -> window <> [].
Proof. by intros H ->. Qed.

Lemma feed_answer_bound (cmax clock : Z) (verdict : string)
    (confidence : Z) (self : VerdictDebouncer) (w : string) :
  capped cmax (_buffer self) ->
  confidence <= cmax ->
  snd (feed period clock verdict confidence self) = Some w ->
  _threshold self <=
    cmax * count_of (_buffer (fst (feed period clock verdict confidence self))) w.
Proof.
  intros Hb Hc Hans.
  pose proof (feed_capped cmax clock verdict confidence self Hb Hc) as Hcap.
  unfold feed in Hans. simpl in Hans.
  pose proof (consensus_some_nonempty _ _ _ Hans) as Hne.
  apply consensus_spec in Hans as (_ & _ & Hscore); [|exact Hne].
  etrans; [exact Hscore|]. by apply score_of_capped.
Qed.

(** X2.  When no confidence is above [cmax], [feed] answers a label only
    once the window holds enough readings of that label for their number
    times [cmax] to reach the threshold: with the device's threshold of 600
    and confidences of at most 100, at least six. *)
Theorem feed_answer_needs_readings (cmax clock : Z) (verdict : string)
    (confidence : Z) (self : VerdictDebouncer) (w : string) :
  capped cmax (_buffer self) ->
  confidence <= cmax ->
  snd (feed period clock verdict confidence self) = Some w ->
  _threshold self <=
    cmax * count_of (_buffer (fst (feed period clock verdict confidence self))) w
  /\ (_threshold self = 600 -> cmax = 100 ->
      6 <= count_of (_buffer (fst (feed period clock verdict confidence self))) w).
Proof.
  intros Hb Hc Hans.
  pose proof (feed_answer_bound cmax clock verdict confidence self w Hb Hc Hans).
  split; [done|]. lia.
Qed.

Lemma camera_step_quiet (cmax : Z) (d : VerdictDebouncer) (s : state)
    (r : Z * string * Z) :
  0 <= cmax ->
  capped cmax (_buffer d) ->
  snd r <= cmax ->
  cmax * Z.of_nat (S (length (_buffer d))) < _threshold d ->
  exists d',
    camera_step period (d, s) r = (d', s, [])
    /\ capped cmax (_buffer d')
    /\ (length (_buffer d') <= S (length (_buffer d)))%nat
    /\ _threshold d' = _threshold d.
Proof.
  intros Hc0 Hcap Hr Hfew. destruct r as [[clock v] c]. simpl in Hr.
  unfold camera_step.
  pose proof (feed_capped cmax clock v c d Hcap Hr) as Hcap'.
  pose proof (feed_length clock v c d) as Hlen.
  destruct (feed period clock v c d) as [d' answer] eqn:Hfeed.
  assert (Hfst : d' = fst (feed period clock v c d)) by (by rewrite Hfeed).
  assert (Hsnd : answer = snd (feed period clock v c d)) by (by rewrite Hfeed).
  destruct answer as [w|].
  - exfalso.
    pose proof (feed_answer_bound cmax clock v c d w Hcap Hr (eq_sym Hsnd)) as Hneed.
    pose proof (count_of_le_length (_buffer (fst (feed period clock v c d))) w) as Hcnt.
    rewrite <- Hfst in Hneed, Hcnt. simpl in Hlen.
    assert (cmax * count_of (_buffer d') w <= cmax * Z.of_nat (S (length (_buffer d))))
      by (apply Z.mul_le_mono_nonneg_l; lia).
    lia.
  - exists d'. simpl in Hcap', Hlen.
    assert (Hthr : _threshold d' = _threshold d) by (by rewrite Hfst).
    by repeat split.
Qed.

Lemma camera_steps_cons (st : VerdictDebouncer * state) (r : Z * string * Z)
    (rest : list (Z * string * Z)) :
  camera_steps period st (r :: rest) =
  let '(st', posted) := camera_step period st r in
  let '(st'', posted') := camera_steps period st' rest in
  (st'', posted ++ posted').
Proof. reflexivity. Qed.

Lemma camera_steps_quiet (cmax : Z) (readings : list (Z * string * Z))
    (d : VerdictDebouncer) (s : state) :
  0 <= cmax ->
  capped cmax (_buffer d) ->
  Forall (fun r => snd r <= cmax) readings ->
  cmax * Z.of_nat (length (_buffer d) + length readings) < _threshold d ->
  exists d', camera_steps period (d, s) readings = (d', s, []).
Proof.
  intros Hc0. revert d.
  induction readings as [|r readings IH]; intros d Hcap Hall Hfew.
  - by exists d.
  - apply Forall_cons in Hall as [Hr Hall]. rewrite camera_steps_cons.
    simpl length in Hfew.
    destruct (camera_step_quiet cmax d s r Hc0 Hcap Hr) as (d1 & -> & Hcap1 & Hlen & Hthr).
    { assert (cmax * Z.of_nat (S (length (_buffer d))) <=
              cmax * Z.of_nat (length (_buffer d) + S (length readings)))
        by (apply Z.mul_le_mono_nonneg_l; lia).
      lia. }
    destruct (IH d1 Hcap1 Hall) as (d2 & ->).
    { rewrite Hthr.
      assert (cmax * Z.of_nat (length (_buffer d1) + length readings) <=
              cmax * Z.of_nat (length (_buffer d) + S (length readings)))
        by (apply Z.mul_le_mono_nonneg_l; lia).
      lia. }
    by exists d2.
Qed.

(** X3.  The camera step of the loop posts nothing and leaves the state
    alone as long as the readings fed since the buffer was empty are too
    few for their number times the largest confidence to reach the
    threshold: on the device, the first five readings of confidence at most
    100 never post an event. *)
Theorem camera_steps_quiet_start (cmax : Z) (readings : list (Z * string * Z))
    (d : VerdictDebouncer) (s : state) :
  0 <= cmax ->
  _buffer d = [] ->
  Forall (fun r => snd r <= cmax) readings ->
  cmax * Z.of_nat (length readings) < _threshold d ->
  snd (camera_steps period (d, s) readings) = []
  /\ snd (fst (camera_steps period (d, s) readings)) = s.
Proof.
  intros Hc0 Hempty Hall Hfew.
  destruct (camera_steps_quiet cmax readings d s Hc0) as (d' & ->);
    [by rewrite Hempty; constructor | done | by rewrite Hempty | done].
Qed.

Lemma camera_step_log (d : VerdictDebouncer) (s : state) (r : Z * string * Z) :
  LogSpec.well_formed (LogSpec.is_asleep s) (snd (camera_step period (d, s) r))
  /\ LogSpec.open_after (LogSpec.is_asleep s) (snd (camera_step period (d, s) r)) =
     LogSpec.is_asleep (snd (fst (camera_step period (d, s) r))).
Proof.
  destruct r as [[clock v] c]. unfold camera_step.
  destruct (feed period clock v c d) as [d1 [v0|]]; [|done].
  pose proof (transition_log s (Some v0)) as [Hwf Hopen].
  by destruct (handle_state_transition s (Some v0)) as [s1 out].
Qed.

Lemma camera_steps_log (readings : list (Z * string * Z))
    (d : VerdictDebouncer) (s : state) :
  LogSpec.well_formed (LogSpec.is_asleep s) (snd (camera_steps period (d, s) readings))
  /\ LogSpec.open_after (LogSpec.is_asleep s)
       (snd (camera_steps period (d, s) readings)) =
     LogSpec.is_asleep (snd (fst (camera_steps period (d, s) readings))).
Proof.
  revert d s. induction readings as [|r readings IH]; intros d s; [done|].
  rewrite camera_steps_cons.
  pose proof (camera_step_log d s r) as [Hwf Hopen].
  destruct (camera_step period (d, s) r) as [[d1 s1] out]. simpl in Hwf, Hopen.
  destruct (IH d1 s1) as [Hwf' Hopen'].
  destruct (camera_steps period (d1, s1) readings) as [[d2 s2] out2]. simpl in *.
  split.
  - apply well_formed_app; [done|]. by rewrite Hopen.
  - by rewrite open_after_app, Hopen.
Qed.

(** X4.  Whatever the camera sends, the events the loop posts from its
    initial state form a well-formed log: no sleep-start while one is
    open, no sleep-end but right after the sleep-start it closes. *)
Theorem camera_steps_log_well_formed (readings : list (Z * string * Z))
    (d : VerdictDebouncer) :
  LogSpec.well_formed false (snd (camera_steps period (d, initial_state) readings)).
Proof. apply (camera_steps_log readings d initial_state). Qed.

End DebouncerBounds.

Section MicrophonePeak.
Import Microphone MicrophoneSpec.

Lemma lor_bytes (lo hi : Z) :
  is_byte lo -> is_byte hi -> Z.lor lo (Z.shiftl hi 8) = lo + 256 * hi.
Proof.
  intros Hlo Hhi. unfold is_byte in *.
  rewrite Z.shiftl_mul_pow2 by lia. change (2 ^ 8) with 256.
  assert (Hland : Z.land lo (hi * 256) = 0).
  { apply Z.bits_inj'. intros n Hn. rewrite Z.land_spec, Z.bits_0.
    destruct (Z.lt_ge_cases n 8) as [Hsmall|Hbig].
    - change 256 with (2 ^ 8). rewrite Z.mul_pow2_bits_low by lia.
      apply andb_false_r.
    - assert (Z.testbit lo n = false) as ->; [|done].
      destruct (Z.eq_dec lo 0) as [->|Hz]; [apply Z.bits_0|].
      apply Z.bits_above_log2; [lia|].
      assert (Z.log2 lo < 8) by (apply Z.log2_lt_pow2; lia). lia. }
  rewrite <- Z.lxor_lor by exact Hland.
  rewrite <- Z.add_nocarry_lxor by exact Hland. lia.
Qed.

Lemma peak_step (lo hi peak : Z) :
  is_byte lo -> is_byte hi ->
  (let v := Z.lor lo (Z.shiftl hi 8) in
   let v := if 32768 <=? v then v - 65536 else v in
   let av := if 0 <=? v then v else - v in
   if peak <? av then av else peak) = Z.max peak (Z.abs (sample lo hi)).
Proof.
  intros Hlo Hhi. cbv zeta. rewrite (lor_bytes lo hi Hlo Hhi). unfold sample.
  destruct (Z.leb_spec 32768 (lo + 256 * hi)), (Z.ltb_spec (lo + 256 * hi) 32768);
    try lia.
  - destruct (Z.leb_spec 0 (lo + 256 * hi - 65536)), (Z.ltb_spec peak (Z.abs (lo + 256 * hi - 65536)));
      destruct (Z.ltb_spec peak (lo + 256 * hi - 65536));
      destruct (Z.ltb_spec peak (- (lo + 256 * hi - 65536))); lia.
  - destruct (Z.leb_spec 0 (lo + 256 * hi)), (Z.ltb_spec peak (Z.abs (lo + 256 * hi)));
      destruct (Z.ltb_spec peak (lo + 256 * hi));
      destruct (Z.ltb_spec peak (- (lo + 256 * hi))); lia.
Qed.

Lemma peak_from_spec (b : list Z) :
  (forall peak, Forall is_byte b ->
     pcm16_le_peak_from peak b =
     fold_left (fun p v => Z.max p (Z.abs v)) (samples b) peak)
  /\ (forall x peak, Forall is_byte (x :: b) ->
        pcm16_le_peak_from peak (x :: b) =
        fold_left (fun p v => Z.max p (Z.abs v)) (samples (x :: b)) peak).
Proof.
  induction b as [|y b [IH1 IH2]].
  - split; reflexivity.
  - split; [exact (IH2 y)|].
    intros x peak Hall.
    apply Forall_cons in Hall as [Hx Hall].
    pose proof Hall as Hall'. apply Forall_cons in Hall' as [Hy Hb].
    change (pcm16_le_peak_from peak (x :: y :: b)) with
      (pcm16_le_peak_from
         (let v := Z.lor x (Z.shiftl y 8) in
          let v := if 32768 <=? v then v - 65536 else v in
          let av := if 0 <=? v then v else - v in
          if peak <? av then av else peak) b).
    rewrite (peak_step x y peak Hx Hy). simpl samples. simpl fold_left.
    by apply IH1.
Qed.

Lemma max_magnitude_from (vs : list Z) (p : Z) :
  let m := fold_left (fun p v => Z.max p (Z.abs v)) vs p in
  p <= m
  /\ (forall v, In v vs -> Z.abs v <= m)
  /\ (m = p \/ exists v, In v vs /\ Z.abs v = m).
Proof.
  revert p. induction vs as [|v vs IH]; intros p; simpl.
  - split; [lia|]. split; [by intros ? []|by left].
  - destruct (IH (Z.max p (Z.abs v))) as (Hle & Hall & Hatt).
    split; [lia|]. split.
    + intros v' [<-|Hin]; [lia | by apply Hall].
    + destruct Hatt as [Heq|(v' & Hin & Heq)].
      * destruct (Z.max_spec p (Z.abs v)) as [[_ Hm]|[_ Hm]].
        -- right. exists v. split; [by left | lia].
        -- left. lia.
      * right. exists v'. split; [by right | done].
Qed.

Lemma sample_range (lo hi : Z) :
  is_byte lo -> is_byte hi -> -32768 <= sample lo hi <= 32767.
Proof.
  unfold is_byte, sample. intros Hlo Hhi.
  destruct (Z.ltb_spec (lo + 256 * hi) 32768); lia.
Qed.

Lemma samples_range (b : list Z) :
  (Forall is_byte b -> Forall (fun v => -32768 <= v <= 32767) (samples b))
  /\ (forall x, Forall is_byte (x :: b) ->
        Forall (fun v => -32768 <= v <= 32767) (samples (x :: b))).
Proof.
  induction b as [|y b [IH1 IH2]].
  - split; intros; constructor.
  - split; [exact (IH2 y)|]. intros x Hall.
    apply Forall_cons in Hall as [Hx Hall].
    pose proof Hall as Hall'. apply Forall_cons in Hall' as [Hy Hb].
    simpl. constructor; [by apply sample_range | by apply IH1].
Qed.

(** X5.  On a buffer of bytes the loop of [analyze_pcm16_le_peak_dbfs]
    computes the largest magnitude of the signed 16-bit little-endian
    samples of the buffer, an odd last byte being ignored: no sample has a
    larger magnitude, the peak is 0 or the magnitude of a sample, and it
    lies between 0 and 32768 (32768 for the sample -32768, one more than
    the 32767 the function divides by). *)
Theorem pcm16_le_peak_is_max_magnitude (b : list Z) :
  Forall is_byte b ->
  pcm16_le_peak b = max_magnitude (samples b)
  /\ (forall v, In v (samples b) -> Z.abs v <= pcm16_le_peak b)
  /\ (pcm16_le_peak b = 0 \/ exists v, In v (samples b) /\ Z.abs v = pcm16_le_peak b)
  /\ 0 <= pcm16_le_peak b <= 32768.
Proof.
  intros Hb. unfold pcm16_le_peak, max_magnitude.
  rewrite (proj1 (peak_from_spec b) 0 Hb).
  destruct (max_magnitude_from (samples b) 0) as (Hle & Hall & Hatt).
  split; [done|]. split; [exact Hall|]. split; [exact Hatt|].
  split; [exact Hle|].
  destruct Hatt as [->|(v & Hin & <-)]; [lia|].
  pose proof (proj1 (samples_range b) Hb) as Hrange.
  pose proof (proj1 (List.Forall_forall _ _) Hrange v Hin) as Hv.
  cbv beta in Hv. lia.
Qed.

End MicrophonePeak.

(** ** More of the session tracker *)
Section TrackerMore.
Import SleepState SleepStateQueries SensorEvents SensorStatus TrackerSpec ServerSpec.

Implicit Types (self : SleepStateManager) (baby now : Z).

Lemma start_sleep_consistent now baby self :
  consistent self -> consistent (fst (start_sleep now baby self)).
Proof.
  intros Hc. unfold start_sleep.
  destruct (_sleeping_babies self !! baby) as [s|] eqn:E; [done|].
  intros b s. simpl. destruct (decide (baby = b)) as [->|Hne].
  - rewrite lookup_insert_eq. by intros [= <-].
  - rewrite lookup_insert_ne by done. apply Hc.
Qed.

Lemma end_sleep_consistent baby self :
  consistent self -> consistent (fst (end_sleep baby self)).
Proof.
  intros Hc. unfold end_sleep.
  assert (Hdel : forall b s, delete baby (_sleeping_babies self) !! b = Some s ->
                   baby_id s = b).
  { intros b s. destruct (decide (baby = b)) as [->|Hne].
    - by rewrite lookup_delete_eq.
    - rewrite lookup_delete_ne by done. apply Hc. }
  by destruct (_sleeping_babies self !! baby).
Qed.

Lemma end_sleep_cooldowns baby self :
  _intervention_cooldowns (fst (end_sleep baby self)) = _intervention_cooldowns self.
Proof. unfold end_sleep. by destruct (_sleeping_babies self !! baby). Qed.

Lemma start_sleep_cooldowns now baby self :
  _intervention_cooldowns (fst (start_sleep now baby self)) = _intervention_cooldowns self.
Proof. unfold start_sleep. by destruct (_sleeping_babies self !! baby). Qed.

Lemma serve_consistent self (r : request) :
  consistent self -> consistent (fst (serve self r)).
Proof.
  intros Hc.
  assert (Hsame : forall self', _sleeping_babies self' = _sleeping_babies self ->
                    consistent self').
  { intros self' Heq b s. rewrite Heq. apply Hc. }
  destruct r as [t1 t2 t3 known baby|aw t1 t2 ev baby|t baby|t1 t2 known baby action];
    simpl.
  - unfold sleep_start.
    pose proof (is_in_cooldown_sessions t1 baby self) as H1.
    destruct (is_in_cooldown t1 baby self) as [self1 [|]]; simpl in H1.
    + pose proof (get_cooldown_remaining_sessions t2 baby self1) as H2.
      destruct (get_cooldown_remaining t2 baby self1) as [self2 rem]. simpl in *.
      apply Hsame. congruence.
    + destruct (negb (baby_exists known baby)); simpl; [by apply Hsame|].
      pose proof (start_sleep_consistent t3 baby self1 (Hsame _ H1)) as H3.
      by destruct (start_sleep t3 baby self1).
  - unfold sleep_end.
    pose proof (is_in_cooldown_sessions t1 baby self) as H1.
    destruct (is_in_cooldown t1 baby self) as [self1 [|]]; simpl in H1.
    + pose proof (get_cooldown_remaining_sessions t2 baby self1) as H2.
      destruct (get_cooldown_remaining t2 baby self1) as [self2 rem]. simpl in *.
      apply Hsame. congruence.
    + pose proof (end_sleep_consistent baby self1 (Hsame _ H1)) as H3.
      destruct (end_sleep baby self1) as [self2 [s|]]; simpl in *; [|done].
      by destruct ev.
  - unfold baby_away.
    pose proof (end_sleep_consistent baby self Hc) as H3.
    by destruct (end_sleep baby self) as [self2 [s|]].
  - unfold parent_intervention.
    destruct (negb _); [done|]. destruct (negb _); [done|]. simpl.
    destruct (String.eqb action "mark_asleep").
    + pose proof (start_sleep_consistent t2 baby
                    (fst (start_intervention_cooldown t1 baby self)) (Hsame _ eq_refl)) as H3.
      simpl in H3. by destruct (start_sleep t2 baby _).
    + pose proof (end_sleep_consistent baby
                    (fst (start_intervention_cooldown t1 baby self)) (Hsame _ eq_refl)) as H3.
      simpl in H3. by destruct (end_sleep baby _).
Qed.

(** X6.  In every state the server reaches from an empty manager, whatever
    requests it has served, each session of the registry is filed under the
    baby it is for, so that the session [get_sleep_session] answers for a
    baby carries that baby's id. *)
Theorem registry_sessions_filed_under_their_baby (rs : list request) (baby : Z)
    (session : SleepSession) :
  consistent (serve_all init rs)
  /\ (get_sleep_session baby (serve_all init rs) = Some session ->
      baby_id session = baby).
Proof.
  assert (Hall : forall self, consistent self -> consistent (serve_all self rs)).
  { unfold serve_all. induction rs as [|r rs IH]; intros self Hc; [done|].
    simpl. apply IH. by apply serve_consistent. }
  assert (Hinit : consistent init) by (by intros b s).
  split; [by apply Hall|]. unfold get_sleep_session. apply (Hall init Hinit).
Qed.

(** X7.  A cooldown started at [t0] lasts twenty minutes: a check at [now]
    answers true exactly when [now] is before [t0] plus twenty minutes,
    whatever cooldown the baby had before; starting it answers that
    deadline and touches neither the sessions nor any other baby's
    cooldown. *)
Theorem cooldown_lasts_twenty_minutes (t0 now baby : Z) (self : SleepStateManager) :
  let started := fst (start_intervention_cooldown t0 baby self) in
  snd (start_intervention_cooldown t0 baby self) = t0 + 1200000000
  /\ snd (is_in_cooldown now baby started) = (now <? t0 + 1200000000)
  /\ _sleeping_babies started = _sleeping_babies self
  /\ (forall other, other <> baby ->
        _intervention_cooldowns started !! other =
        _intervention_cooldowns self !! other).
Proof.
  cbv zeta. unfold start_intervention_cooldown, is_in_cooldown. simpl.
  rewrite lookup_insert_eq.
  change (INTERVENTION_COOLDOWN_MINUTES * Z.pos Py.MINUTE) with 1200000000.
  split; [done|]. split; [by destruct (now <? t0 + 1200000000)|].
  split; [done|]. intros other Hne. by rewrite lookup_insert_ne.
Qed.

(** X8.  The cooldown check evicts lazily: when it answers false no entry
    is left for the baby, when it answers true nothing changes; either way
    the sessions and the cooldowns of the other babies stay as they were,
    and a check repeated at a later instant after a false answer is false
    again. *)
Theorem is_in_cooldown_evicts_expired (now later baby : Z) (self : SleepStateManager) :
  let checked := fst (is_in_cooldown now baby self) in
  (snd (is_in_cooldown now baby self) = false ->
     _intervention_cooldowns checked !! baby = None
     /\ is_in_cooldown later baby checked = (checked, false))
  /\ (snd (is_in_cooldown now baby self) = true -> checked = self)
  /\ _sleeping_babies checked = _sleeping_babies self
  /\ (forall other, other <> baby ->
        _intervention_cooldowns checked !! other =
        _intervention_cooldowns self !! other).
Proof.
  cbv zeta. unfold is_in_cooldown.
  destruct (_intervention_cooldowns self !! baby) as [u|] eqn:E; simpl.
  - destruct (now <? u); simpl.
    + by repeat split.
    + rewrite lookup_delete_eq. repeat split; try done.
      intros other Hne. by rewrite lookup_delete_ne.
  - rewrite E. by repeat split.
Qed.

(** X9.  [clear_cooldown] answers true exactly when the baby had an entry;
    afterwards the baby is in no cooldown at any instant and no remaining
    time is reported, and the sessions are as before. *)
Theorem clear_cooldown_ends_cooldown (now baby : Z) (self : SleepStateManager) :
  let cleared := fst (clear_cooldown baby self) in
  (snd (clear_cooldown baby self) = true <->
     is_Some (_intervention_cooldowns self !! baby))
  /\ is_in_cooldown now baby cleared = (cleared, false)
  /\ get_cooldown_remaining now baby cleared = (cleared, None)
  /\ _sleeping_babies cleared = _sleeping_babies self.
Proof.
  cbv zeta. unfold clear_cooldown.
  destruct (_intervention_cooldowns self !! baby) as [u|] eqn:E; simpl.
  - unfold is_in_cooldown, get_cooldown_remaining. simpl. rewrite lookup_delete_eq.
    repeat split; try done; by eexists.
  - unfold is_in_cooldown, get_cooldown_remaining. rewrite E.
    repeat split; try done; by intros [? ?].
Qed.

(** X10.  The queries agree with one another: a baby is listed by
    [get_sleeping_babies] exactly when [is_sleeping] is true, exactly when
    [get_sleep_session] answers a session, and exactly when the status
    endpoint reports it sleeping; the list has no duplicates and
    [get_sleep_count] is its length. *)
Theorem sleeping_queries_agree (now baby : Z) (self : SleepStateManager) :
  (In baby (get_sleeping_babies self) <-> is_sleeping baby self = true)
  /\ (is_sleeping baby self = true <-> is_Some (get_sleep_session baby self))
  /\ (fst (get_sleep_status now baby self) = is_sleeping baby self)
  /\ List.NoDup (get_sleeping_babies self)
  /\ get_sleep_count self = Z.of_nat (length (get_sleeping_babies self)).
Proof.
  unfold get_sleeping_babies, is_sleeping, get_sleep_session, get_sleep_status,
    get_sleep_count.
  split; [|split; [|split; [|split]]].
  - rewrite bool_decide_eq_true, <- list_elem_of_In. split.
    + intros Hin. apply list_elem_of_fmap in Hin as ([b s] & -> & Hin).
      apply elem_of_map_to_list in Hin. simpl. by eexists.
    + intros [s Hs]. apply list_elem_of_fmap. exists (baby, s).
      split; [done|]. by apply elem_of_map_to_list.
  - by rewrite bool_decide_eq_true.
  - unfold get_sleep_session. by destruct (_sleeping_babies self !! baby) as [s|].
  - apply NoDup_ListNoDup. apply NoDup_fst_map_to_list.
  - by rewrite length_map, length_map_to_list.
Qed.

(** X11.  Starting the sleep of a baby that has no session and ending it
    right after gives back the session just started and the manager exactly
    as it was before; ending the sleep of a baby and starting it again
    files a new session that starts at the time of the second call. *)
Theorem start_then_end_restores (t baby : Z) (self : SleepStateManager) :
  (_sleeping_babies self !! baby = None ->
     end_sleep baby (fst (start_sleep t baby self)) =
     (self, Some {| baby_id := baby; start_time := t |}))
  /\ snd (start_sleep t baby (fst (end_sleep baby self))) =
     {| baby_id := baby; start_time := t |}.
Proof.
  split.
  - intros E. unfold start_sleep. rewrite E. unfold end_sleep. simpl.
    rewrite lookup_insert_eq, (delete_insert_id _ _ _ E). by destruct self.
  - unfold start_sleep.
    assert (Hgone : _sleeping_babies (fst (end_sleep baby self)) !! baby = None).
    { unfold end_sleep.
      destruct (_sleeping_babies self !! baby); simpl; apply lookup_delete_eq. }
    by rewrite Hgone.
Qed.

End TrackerMore.

(** ** More of the endpoints *)
Section EndpointsMore.
Import SleepState SleepStateQueries SensorEvents SensorStatus TrackerSpec ServerSpec.
Import RoundingSpec.

Implicit Types (self : SleepStateManager) (baby : Z).

Lemma not_in_cooldown_sessions (t : Z) baby self :
  snd (is_in_cooldown t baby self) = false ->
  exists self',
    is_in_cooldown t baby self = (self', false)
    /\ _sleeping_babies self' = _sleeping_babies self.
Proof.
  intros H. pose proof (is_in_cooldown_sessions t baby self) as Hs.
  destruct (is_in_cooldown t baby self) as [self' b]. simpl in *. subst b.
  by exists self'.
Qed.

(** X12.  A sleep-start outside a cooldown: for a baby the database does
    not know the answer is not-found and no session is created; for a
    known baby with a session the answer carries the start of that session
    and the registry is unchanged; for a known baby without one a session
    starting now is filed and answered. *)
Theorem sleep_start_outside_cooldown (t_check t_remaining t_start : Z)
    (known_babies : list Z) baby self :
  snd (is_in_cooldown t_check baby self) = false ->
  let served := sleep_start t_check t_remaining t_start known_babies baby self in
  (baby_exists known_babies baby = false ->
     snd served = NotFound
     /\ _sleeping_babies (fst served) = _sleeping_babies self)
  /\ (baby_exists known_babies baby = true ->
        (forall session, _sleeping_babies self !! baby = Some session ->
           snd served = SleepStartResponse baby (start_time session)
           /\ _sleeping_babies (fst served) = _sleeping_babies self)
        /\ (_sleeping_babies self !! baby = None ->
              snd served = SleepStartResponse baby t_start
              /\ _sleeping_babies (fst served) =
                 <[baby := {| baby_id := baby; start_time := t_start |}]>
                   (_sleeping_babies self))).
Proof.
  intros Hout. cbv zeta. unfold sleep_start.
  destruct (not_in_cooldown_sessions _ _ _ Hout) as (self' & -> & Hs).
  split.
  - intros ->. by simpl.
  - intros ->. simpl. unfold start_sleep. rewrite Hs. split.
    + intros session ->. by simpl.
    + intros ->. by simpl.
Qed.

Lemma round_half_even_near (y : Q) :
  2 * Z.abs (Py.round_half_even y * Zpos (Qden y) - Qnum y) <= Zpos (Qden y).
Proof.
  unfold Py.round_half_even.
  set (n := Qnum y). set (d := Zpos (Qden y)).
  assert (Hd : 0 < d) by (subst d; lia).
  pose proof (Z.div_mod n d ltac:(lia)) as Hdiv.
  pose proof (Z.mod_pos_bound n d Hd) as Hrem.
  destruct (Z.compare_spec (2 * (n - n / d * d)) d) as [Heq|Hlt|Hgt].
  - destruct (Z.even (n / d)); lia.
  - lia.
  - lia.
Qed.

(** [round(x, 2)] is a hundredth nearest to [x]. *)
Lemma round_nearest_hundredth (x : Q) : nearest_hundredth x (Py.round x 2).
Proof.
  unfold Py.round. change (Z.to_pos (10 ^ 2)) with 100%positive. cbv zeta.
  set (k := Py.round_half_even (Qmult x (100 # 1))).
  pose proof (round_half_even_near (Qmult x (100 # 1))) as Hnear. fold k in Hnear.
  split.
  - exists k. apply Qred_correct.
  - rewrite Qred_correct. apply Qabs_Qle_condition.
    destruct x as [n d]. simpl in Hnear.
    unfold Qle, Qminus, Qplus, Qopp. simpl. lia.
Qed.

(** Away from the halfway points the nearest hundredth is one number. *)
Lemma nearest_hundredth_unique (x d h : Q) :
  nearest_hundredth x d -> hundredths h -> Qlt (Qabs (Qminus h x)) (1 # 200) ->
  Qeq d h.
Proof.
  intros [[k Hk] Hd] [j Hj] Hh.
  apply Qabs_Qle_condition in Hd. apply Qabs_Qlt_condition in Hh.
  rewrite Hk in *. rewrite Hj in *.
  destruct x as [n m]. unfold Qle, Qlt, Qeq, Qminus, Qplus, Qopp in *. simpl in *.
  assert (k = j) by nia. by subst.
Qed.

(** X13.  A sleep-end outside a cooldown: without a session the answer is
    the not-sleeping error and the registry is unchanged; with one the
    session is removed from the registry before the awakening is recorded,
    so it is gone even when recording fails and the answer is the
    record-failed error; when recording succeeds the answer carries the
    start of the session, the time of the request and, as the duration, a
    hundredth of a minute nearest to the minutes between them. *)
Theorem sleep_end_outside_cooldown (awakened_at t_check t_remaining : Z)
    (event_id : option Z) baby self :
  snd (is_in_cooldown t_check baby self) = false ->
  let served := sleep_end awakened_at t_check t_remaining event_id baby self in
  (_sleeping_babies self !! baby = None ->
     snd served = NotSleeping
     /\ _sleeping_babies (fst served) = _sleeping_babies self)
  /\ (forall session, _sleeping_babies self !! baby = Some session ->
        _sleeping_babies (fst served) = delete baby (_sleeping_babies self)
        /\ match event_id with
           | None => snd served = RecordFailed
           | Some id =>
               exists minutes,
                 snd served =
                   AwakeningEventResponse baby id (start_time session) awakened_at
                     minutes
                 /\ nearest_hundredth
                      ((awakened_at - start_time session) # 60000000) minutes
           end).
Proof.
  intros Hout. cbv zeta. unfold sleep_end.
  destruct (not_in_cooldown_sessions _ _ _ Hout) as (self' & -> & Hs).
  unfold end_sleep. rewrite Hs. split.
  - intros E. rewrite E. simpl. by rewrite (delete_id _ _ E).
  - intros session ->. simpl. destruct event_id as [id|]; simpl; [|done].
    split; [done|]. eexists. split; [reflexivity|].
    apply round_nearest_hundredth.
Qed.

Lemma valid_action_cases (action : string) :
  (String.eqb action "mark_asleep" || String.eqb action "mark_awake") = true ->
  action = "mark_asleep"%string \/ action = "mark_awake"%string.
Proof.
  intros H. apply orb_true_iff in H as [H|H]; apply String.eqb_eq in H; auto.
Qed.

(** X14.  The manual override validates before it acts: an action other
    than mark_asleep and mark_awake is refused, and so is an unknown baby,
    the manager staying as it was (no cooldown is started).  Otherwise the
    cooldown of the baby is set to twenty minutes from now and answered;
    after mark_asleep the baby has a session, the one it had or a new one
    starting now; after mark_awake it has none. *)
Theorem parent_intervention_effect (t_cooldown t_start : Z) (known_babies : list Z)
    baby (action : string) self :
  let served := parent_intervention t_cooldown t_start known_babies baby action self in
  let valid := String.eqb action "mark_asleep" || String.eqb action "mark_awake" in
  (valid = false -> served = (self, InvalidAction))
  /\ (valid = true -> baby_exists known_babies baby = false ->
        served = (self, NotFound))
  /\ (valid = true -> baby_exists known_babies baby = true ->
        _intervention_cooldowns (fst served) !! baby = Some (t_cooldown + 1200000000)
        /\ (action = "mark_asleep"%string ->
              snd served = InterventionResponse baby "sleeping" 20 (t_cooldown + 1200000000)
              /\ _sleeping_babies (fst served) !! baby =
                 Some (default {| baby_id := baby; start_time := t_start |}
                         (_sleeping_babies self !! baby)))
        /\ (action = "mark_awake"%string ->
              snd served = InterventionResponse baby "awake" 20 (t_cooldown + 1200000000)
              /\ _sleeping_babies (fst served) !! baby = None)).
Proof.
  cbv zeta. unfold parent_intervention. split; [|split].
  - by intros ->.
  - intros -> ->. done.
  - intros Hvalid ->. rewrite Hvalid. simpl.
    change (INTERVENTION_COOLDOWN_MINUTES * Z.pos Py.MINUTE) with 1200000000.
    split; [|split].
    + destruct (String.eqb action "mark_asleep").
      * unfold start_sleep. simpl.
        destruct (_sleeping_babies self !! baby); simpl; apply lookup_insert_eq.
      * unfold end_sleep. simpl.
        destruct (_sleeping_babies self !! baby); simpl; apply lookup_insert_eq.
    + intros ->. simpl. unfold start_sleep. simpl.
      destruct (_sleeping_babies self !! baby) as [s|] eqn:E; simpl.
      * by rewrite E.
      * by rewrite lookup_insert_eq.
    + intros ->. simpl. unfold end_sleep. simpl.
      destruct (_sleeping_babies self !! baby) as [s|] eqn:E; simpl;
        by rewrite lookup_delete_eq.
Qed.

Lemma sensor_event_ignored (deadline : Z) baby self (r : request) :
  _intervention_cooldowns self !! baby = Some deadline ->
  sensor_event_before baby deadline r ->
  exists m, serve self r = (self, CooldownIgnored (Some m)) /\ 1 <= m.
Proof.
  intros E Hr.
  assert (Hguard : forall t1 t2, t1 < deadline -> t2 < deadline ->
            is_in_cooldown t1 baby self = (self, true)
            /\ exists m, get_cooldown_remaining t2 baby self = (self, Some m) /\ 1 <= m).
  { intros t1 t2 H1 H2. split.
    - unfold is_in_cooldown. rewrite E.
      by destruct (Z.ltb_spec t1 deadline); [|lia].
    - destruct (get_cooldown_remaining_active t2 baby self deadline E H2) as [Hrem Hpos].
      eauto. }
  destruct r as [t1 t2 t3 known b|aw t1 t2 ev b|t b|t1 t2 known b action];
    simpl in Hr; try done; destruct Hr as (-> & H1 & H2);
    destruct (Hguard t1 t2 H1 H2) as (Hc & m & Hrem & Hpos); exists m; simpl.
  - unfold sleep_start. by rewrite Hc, Hrem.
  - unfold sleep_end. by rewrite Hc, Hrem.
Qed.

(** X15.  A manual override holds against the sensor: after a valid
    override for a known baby, any sequence of sleep-start and sleep-end
    requests for that baby whose clock readings all fall within the twenty
    minutes leaves the manager exactly as the override left it, and each of
    them is answered as ignored with at least one minute remaining. *)
Theorem override_holds_against_sensor (t_cooldown t_start : Z)
    (known_babies : list Z) baby (action : string) self (rs : list request) :
  (String.eqb action "mark_asleep" || String.eqb action "mark_awake") = true ->
  baby_exists known_babies baby = true ->
  Forall (sensor_event_before baby (t_cooldown + 1200000000)) rs ->
  let overriding :=
    fst (parent_intervention t_cooldown t_start known_babies baby action self) in
  serve_all overriding rs = overriding
  /\ Forall (fun r => exists m,
               serve overriding r = (overriding, CooldownIgnored (Some m)) /\ 1 <= m)
       rs.
Proof.
  intros Hvalid Hknown Hrs overriding.
  assert (E : _intervention_cooldowns overriding !! baby = Some (t_cooldown + 1200000000)).
  { subst overriding. unfold parent_intervention. rewrite Hvalid, Hknown. simpl.
    change (INTERVENTION_COOLDOWN_MINUTES * Z.pos Py.MINUTE) with 1200000000.
    destruct (String.eqb action "mark_asleep").
    - unfold start_sleep. simpl.
      destruct (_sleeping_babies self !! baby); simpl; apply lookup_insert_eq.
    - unfold end_sleep. simpl.
      destruct (_sleeping_babies self !! baby); simpl; apply lookup_insert_eq. }
  clearbody overriding. split.
  - unfold serve_all. induction Hrs as [|r rs Hr _ IH]; [done|]. simpl.
    destruct (sensor_event_ignored _ _ _ r E Hr) as (m & -> & _). exact IH.
  - eapply List.Forall_impl; [|exact Hrs]. intros r Hr.
    by apply (sensor_event_ignored (t_cooldown + 1200000000) baby).
Qed.

(** X16.  When the cooldown expires between the check and the reading of
    the remaining time, a sleep-start and a sleep-end are still answered as
    ignored, with no remaining minutes in the answer, the expired entry is
    deleted, and the sessions are not touched. *)
Theorem cooldown_expiring_during_request (deadline awakened_at t_check t_remaining t_start : Z)
    (known_babies : list Z) (event_id : option Z) baby self :
  _intervention_cooldowns self !! baby = Some deadline ->
  t_check < deadline <= t_remaining ->
  let evicted :=
    {| _sleeping_babies := _sleeping_babies self;
       _intervention_cooldowns := delete baby (_intervention_cooldowns self) |} in
  sleep_start t_check t_remaining t_start known_babies baby self =
    (evicted, CooldownIgnored None)
  /\ sleep_end awakened_at t_check t_remaining event_id baby self =
     (evicted, CooldownIgnored None).
Proof.
  intros E [Hlt Hge]. cbv zeta.
  assert (Hc : is_in_cooldown t_check baby self = (self, true)).
  { unfold is_in_cooldown. rewrite E. by destruct (Z.ltb_spec t_check deadline); [|lia]. }
  assert (Hr : get_cooldown_remaining t_remaining baby self =
               ({| _sleeping_babies := _sleeping_babies self;
                   _intervention_cooldowns := delete baby (_intervention_cooldowns self) |},
                None)).
  { unfold get_cooldown_remaining. rewrite E.
    assert (Py.is_positive (Py.minutes_between deadline t_remaining) = false) as ->; [|done].
    unfold Py.is_positive, Py.minutes_between. simpl. apply Z.ltb_ge. lia. }
  unfold sleep_start, sleep_end. by rewrite Hc, Hr.
Qed.

(** X17.  The cooldown status: without an active cooldown at the check the
    answer is not-in-cooldown with no remaining time; with a cooldown
    active at the check and at the reading it is in-cooldown with the
    remaining whole minutes plus one and nothing changes; with a cooldown
    that expires in between it is in-cooldown with no remaining time.  The
    sessions are never touched. *)
Theorem cooldown_status_cases (t_check t_remaining : Z) baby self :
  let served := get_cooldown_status t_check t_remaining baby self in
  (snd (is_in_cooldown t_check baby self) = false -> snd served = (false, None))
  /\ (forall deadline, _intervention_cooldowns self !! baby = Some deadline ->
        t_check < deadline ->
        (t_remaining < deadline ->
           served = (self, (true, Some ((deadline - t_remaining) / 60000000 + 1))))
        /\ (deadline <= t_remaining ->
              snd served = (true, None)
              /\ _intervention_cooldowns (fst served) !! baby = None))
  /\ _sleeping_babies (fst served) = _sleeping_babies self.
Proof.
  cbv zeta. unfold get_cooldown_status. split; [|split].
  - intros Hout. destruct (not_in_cooldown_sessions _ _ _ Hout) as (self' & -> & _).
    done.
  - intros deadline E Hlt.
    assert (Hc : is_in_cooldown t_check baby self = (self, true)).
    { unfold is_in_cooldown. rewrite E. by destruct (Z.ltb_spec t_check deadline); [|lia]. }
    rewrite Hc. split.
    + intros H2. by destruct (get_cooldown_remaining_active _ _ _ _ E H2) as [-> _].
    + intros H2. unfold get_cooldown_remaining. rewrite E.
      assert (Py.is_positive (Py.minutes_between deadline t_remaining) = false) as ->.
      { unfold Py.is_positive, Py.minutes_between. simpl. apply Z.ltb_ge. lia. }
      simpl. split; [done | apply lookup_delete_eq].
  - pose proof (is_in_cooldown_sessions t_check baby self) as H1.
    destruct (is_in_cooldown t_check baby self) as [self1 [|]]; simpl in *; [|done].
    pose proof (get_cooldown_remaining_sessions t_remaining baby self1) as H2.
    destruct (get_cooldown_remaining t_remaining baby self1) as [self2 rem].
    simpl in *. congruence.
Qed.

(** X18.  A baby-away touches nothing but the session of its baby: the
    cooldowns and the sessions of the other babies stay as they were; for a
    baby without a session the manager is unchanged and the answer says it
    was not sleeping; for a baby with one the session is removed and the
    answer carries its start, the time of the request and, as the tracking
    duration, a hundredth of a minute nearest to the minutes between
    them. *)
Theorem baby_away_touches_one_session (away_at : Z) baby self :
  let served := baby_away away_at baby self in
  _intervention_cooldowns (fst served) = _intervention_cooldowns self
  /\ (forall other, other <> baby ->
        _sleeping_babies (fst served) !! other = _sleeping_babies self !! other)
  /\ (_sleeping_babies self !! baby = None ->
        served = (self, BabyAwayResponse baby false None))
  /\ (forall session, _sleeping_babies self !! baby = Some session ->
        _sleeping_babies (fst served) = delete baby (_sleeping_babies self)
        /\ exists minutes,
             snd served =
               BabyAwayResponse baby true
                 (Some (start_time session, away_at, minutes))
             /\ nearest_hundredth
                  ((away_at - start_time session) # 60000000) minutes).
Proof.
  cbv zeta. unfold baby_away, end_sleep.
  destruct (_sleeping_babies self !! baby) as [s|] eqn:E; simpl.
  - split; [done|]. split; [|split; [done|]].
    + intros other Hne. by apply lookup_delete_ne.
    + intros s' [= <-]. split; [done|]. eexists. split; [reflexivity|].
      apply round_nearest_hundredth.
  - split; [done|]. split; [|split; [|done]].
    + intros other Hne. by apply lookup_delete_ne.
    + intros _. rewrite (delete_id _ _ E). by destruct self.
Qed.

(** X27.  A manual override wears off: once twenty minutes have passed
    since a valid override for a known baby, a sleep-start or a sleep-end
    of the sensor is no longer ignored; the expired cooldown entry is
    deleted, a sleep-start leaves the baby with a session and a sleep-end
    leaves it without one. *)
Theorem override_wears_off (t_cooldown t_start t_check t_remaining t_sensor awakened_at : Z)
    (known_babies : list Z) (event_id : option Z) baby (action : string) self :
  (String.eqb action "mark_asleep" || String.eqb action "mark_awake") = true ->
  baby_exists known_babies baby = true ->
  t_cooldown + 1200000000 <= t_check ->
  let overriding :=
    fst (parent_intervention t_cooldown t_start known_babies baby action self) in
  let started := sleep_start t_check t_remaining t_sensor known_babies baby overriding in
  let ended := sleep_end awakened_at t_check t_remaining event_id baby overriding in
  (exists since, snd started = SleepStartResponse baby since)
  /\ is_Some (_sleeping_babies (fst started) !! baby)
  /\ _intervention_cooldowns (fst started) !! baby = None
  /\ (forall remaining, snd ended <> CooldownIgnored remaining)
  /\ _sleeping_babies (fst ended) !! baby = None
  /\ _intervention_cooldowns (fst ended) !! baby = None.
Proof.
  intros Hvalid Hknown Hlate overriding started ended.
  assert (E : _intervention_cooldowns overriding !! baby = Some (t_cooldown + 1200000000)).
  { subst overriding. unfold parent_intervention. rewrite Hvalid, Hknown. simpl.
    change (INTERVENTION_COOLDOWN_MINUTES * Z.pos Py.MINUTE) with 1200000000.
    destruct (String.eqb action "mark_asleep").
    - unfold start_sleep. simpl.
      destruct (_sleeping_babies self !! baby); simpl; apply lookup_insert_eq.
    - unfold end_sleep. simpl.
      destruct (_sleeping_babies self !! baby); simpl; apply lookup_insert_eq. }
  clearbody overriding.
  assert (Hc : is_in_cooldown t_check baby overriding =
               ({| _sleeping_babies := _sleeping_babies overriding;
                   _intervention_cooldowns :=
                     delete baby (_intervention_cooldowns overriding) |}, false)).
  { unfold is_in_cooldown. rewrite E.
    by destruct (Z.ltb_spec t_check (t_cooldown + 1200000000)); [lia|]. }
  subst started ended. unfold sleep_start, sleep_end. rewrite Hc, Hknown. simpl.
  split; [|split; [|split; [|split; [|split]]]].
  - unfold start_sleep. simpl.
    destruct (_sleeping_babies overriding !! baby); simpl; by eexists.
  - unfold start_sleep. simpl.
    destruct (_sleeping_babies overriding !! baby) as [s|] eqn:Es; simpl.
    + rewrite Es. by eexists.
    + rewrite lookup_insert_eq. by eexists.
  - unfold start_sleep. simpl.
    destruct (_sleeping_babies overriding !! baby); simpl; apply lookup_delete_eq.
  - intros remaining. unfold end_sleep. simpl.
    destruct (_sleeping_babies overriding !! baby); simpl; [|done].
    by destruct event_id.
  - unfold end_sleep. simpl.
    destruct (_sleeping_babies overriding !! baby); simpl.
    + destruct event_id; simpl; apply lookup_delete_eq.
    + apply lookup_delete_eq.
  - unfold end_sleep. simpl.
    destruct (_sleeping_babies overriding !! baby); simpl.
    + destruct event_id; simpl; apply lookup_delete_eq.
    + apply lookup_delete_eq.
Qed.

End EndpointsMore.

(** ** More of the aggregator *)
Section AggregatorMore.
Import SleepBlocks BlocksSpec NormalizeSpec RunsSpec.

Variable fromisoformat : string -> option Z.
Variable json_loads : string -> option value.

Abbreviation normalize_all' := (normalize_all fromisoformat json_loads).
Abbreviation group' := (group_into_sleep_blocks fromisoformat json_loads).

(** The aggregator builds one block per group of the sorted records. *)
Lemma group_as_runs (events : list event) (gap_threshold : Q) (source : string) :
  group' events gap_threshold source =
  mapM _build_block (runs gap_threshold (sort_by_start (normalize_all' events source))).
Proof.
  unfold group_into_sleep_blocks, runs.
  destruct (sort_by_start _) as [|first rest]; [done|].
  rewrite (group_loop_spec gap_threshold rest [] [first]) by done.
  by destruct (mapM _ _).
Qed.

Lemma runs_spec (gap_threshold : Q) (sorted : list normalized) :
  concat (runs gap_threshold sorted) = sorted
  /\ Forall (fun g => g <> []) (runs gap_threshold sorted).
Proof.
  unfold runs. destruct sorted as [|first rest]; [by split|].
  assert (Hne : [first] <> []) by done. split.
  - by destruct (runs_from_spec gap_threshold rest [first] Hne I) as (_ & -> & _).
  - by apply runs_from_nonempty.
Qed.

Lemma build_block_fields (g : list normalized) (b : SleepBlock) :
  _build_block g = Some b ->
  exists first final total,
    head g = Some first /\ last g = Some final
    /\ py_sum (map duration_minutes g) = Some total
    /\ b = {| block_start := sleep_started_at first;
              block_end := awakened_at final;
              total_sleep_minutes := total;
              total_block_minutes :=
                Py.minutes_between (awakened_at final) (sleep_started_at first);
              interruption_count := Z.of_nat (length g) - 1;
              event_count := Z.of_nat (length g);
              events := map original g |}.
Proof.
  unfold _build_block. intros H.
  destruct (head g) as [first|]; [|done].
  destruct (last g) as [final|]; [|done]. simpl in H.
  destruct (py_sum (map duration_minutes g)) as [total|]; [|done]. simpl in H.
  injection H as <-. by exists first, final, total.
Qed.

Lemma py_sum_none_from (vs : list value) :
  fold_left (fun acc v => acc ≫= fun a => py_add a v) vs None = None.
Proof. by induction vs. Qed.

Lemma py_sum_numeric (block : list normalized) (acc : Q) :
  is_Some (fold_left (fun acc v => acc ≫= fun a => py_add a v)
             (map duration_minutes block) (Some acc)) ->
  Forall numeric block.
Proof.
  revert acc. induction block as [|n block IH]; intros acc H; [constructor|].
  simpl in H. destruct (duration_minutes n) as [|q| | |] eqn:E; simpl in H;
    try (rewrite py_sum_none_from in H; by destruct H).
  constructor; [by exists q | by apply (IH (Qplus acc q))].
Qed.

(** When the aggregator returns, the duration of every record that
    normalized is a number. *)
Lemma returned_blocks_numeric (events : list event) (gap_threshold : Q)
    (source : string) :
  is_Some (group' events gap_threshold source) ->
  Forall numeric (normalize_all' events source).
Proof.
  rewrite group_as_runs.
  set (records := normalize_all' events source).
  destruct (sort_by_start_spec records) as (Hperm & _ & _).
  destruct (runs_spec gap_threshold (sort_by_start records)) as [Hcat Hne].
  intros Hsome. apply mapM_is_Some_1 in Hsome.
  apply List.Forall_forall. intros n Hin.
  apply (Permutation_in _ (Permutation_sym Hperm)) in Hin.
  rewrite <- Hcat in Hin. apply List.in_concat in Hin as (g & Hg & Hn).
  pose proof (proj1 (List.Forall_forall _ _) Hsome g Hg) as [b Hb]. simpl in Hb.
  apply build_block_fields in Hb as (? & ? & total & _ & _ & Hsum & _).
  assert (Hnum : Forall numeric g).
  { apply (py_sum_numeric g (0 # 1)). unfold py_sum in Hsum. by rewrite Hsum. }
  by apply (proj1 (List.Forall_forall _ _) Hnum).
Qed.

(** X19.  One bad duration fails the whole call: when an event normalizes
    to a record whose duration is not a number (a text, say, in a record
    of the events_for_period or the sessions_for_range shape, whose
    duration normalization does not look at), the aggregator raises,
    whatever the other events are, where an event with a bad timestamp is
    only dropped. *)
Theorem aggregator_fails_on_bad_duration (events : list event)
    (gap_threshold : Q) (source : string) (e : event) (n : normalized) :
  In e events ->
  _normalize_event fromisoformat json_loads e source = Some n ->
  ~ numeric n ->
  group' events gap_threshold source = None.
Proof.
  intros Hin Hn Hbad.
  destruct (group' events gap_threshold source) as [blocks|] eqn:Hg; [|done].
  exfalso. apply Hbad.
  assert (Hnum : Forall numeric (normalize_all' events source)).
  { apply (returned_blocks_numeric events gap_threshold source).
    rewrite Hg. by eexists. }
  apply (proj1 (List.Forall_forall _ _) Hnum).
  unfold normalize_all. apply list_elem_of_In, list_elem_of_omap.
  exists e. split; [by apply list_elem_of_In | exact Hn].
Qed.

Lemma group_blocks (events : list event) (gap_threshold : Q) (source : string)
    (blocks : list SleepBlock) :
  group' events gap_threshold source = Some blocks ->
  Forall2 (fun g b => _build_block g = Some b)
    (runs gap_threshold (sort_by_start (normalize_all' events source))) blocks.
Proof. rewrite group_as_runs. apply mapM_Some_1. Qed.

(** X20.  An event of none of the three known shapes is dropped, and when
    every event of the input is dropped (an empty input in particular) the
    aggregator returns the empty list instead of failing. *)
Theorem aggregator_drops_unknown_shapes (events : list event)
    (gap_threshold : Q) (source : string) :
  (forall e : event,
     shape source e <> "awakenings_with_insights"%string ->
     shape source e <> "events_for_period"%string ->
     shape source e <> "sessions_for_range"%string ->
     _normalize_event fromisoformat json_loads e source = None)
  /\ (Forall (fun e => _normalize_event fromisoformat json_loads e source = None) events ->
      group' events gap_threshold source = Some []).
Proof.
  split.
  - intros e H1 H2 H3. unfold _normalize_event. unfold shape in *.
    destruct (String.eqb_spec (if String.eqb source "auto" then _detect_source e else source)
                "awakenings_with_insights"); [done|].
    destruct (String.eqb_spec (if String.eqb source "auto" then _detect_source e else source)
                "events_for_period"); [done|].
    by destruct (String.eqb_spec (if String.eqb source "auto" then _detect_source e else source)
                "sessions_for_range").
  - intros Hall. unfold group_into_sleep_blocks.
    assert (normalize_all' events source = []) as ->; [|done].
    unfold normalize_all. induction Hall as [|e events He _ IH]; [done|].
    simpl. by rewrite He.
Qed.

Lemma runs_from_length (gap_threshold : Q) (rest current : list normalized)
    (prev : normalized) :
  last current = Some prev ->
  length (runs_from gap_threshold current rest) = S (breaks gap_threshold (prev :: rest)).
Proof.
  revert current prev. induction rest as [|curr rest IH]; intros current prev Hlast;
    [done|].
  simpl runs_from. rewrite Hlast.
  change (breaks gap_threshold (prev :: curr :: rest)) with
    ((if Qle_bool (gap_minutes prev curr) gap_threshold then 0 else 1)
     + breaks gap_threshold (curr :: rest))%nat.
  destruct (Qle_bool (gap_minutes prev curr) gap_threshold).
  - apply IH. apply last_snoc.
  - simpl. by rewrite (IH [curr] curr).
Qed.

Lemma breaks_antitone (low high : Q) (sorted : list normalized) :
  Qle low high -> (breaks high sorted <= breaks low sorted)%nat.
Proof.
  intros Hle. induction sorted as [|prev [|curr rest] IH]; [done | done |].
  change (breaks high (prev :: curr :: rest)) with
    ((if Qle_bool (gap_minutes prev curr) high then 0 else 1)
     + breaks high (curr :: rest))%nat.
  change (breaks low (prev :: curr :: rest)) with
    ((if Qle_bool (gap_minutes prev curr) low then 0 else 1)
     + breaks low (curr :: rest))%nat.
  destruct (Qle_bool (gap_minutes prev curr) low) eqn:El.
  - apply Qle_bool_iff in El.
    assert (Qle_bool (gap_minutes prev curr) high = true) as ->.
    { apply Qle_bool_iff. by apply (Qle_trans _ low). }
    simpl. exact IH.
  - destruct (Qle_bool (gap_minutes prev curr) high); lia.
Qed.

(** X21.  The aggregator returns one block more than there are records, in
    sorted order, whose gap to the record before them exceeds the
    threshold, and none for no record; so a larger threshold never gives
    more blocks. *)
Theorem block_count_by_gaps (events : list event) (low high : Q) (source : string)
    (blocks_low blocks_high : list SleepBlock) :
  Qle low high ->
  group' events low source = Some blocks_low ->
  group' events high source = Some blocks_high ->
  let sorted := sort_by_start (normalize_all' events source) in
  length blocks_low = (if sorted is [] then 0 else S (breaks low sorted))%nat
  /\ (length blocks_high <= length blocks_low)%nat.
Proof.
  intros Hle Hlow Hhigh sorted.
  assert (Hcount : forall thr blocks, group' events thr source = Some blocks ->
            length blocks = (if sorted is [] then 0 else S (breaks thr sorted))%nat).
  { intros thr blocks H. apply group_blocks in H. apply Forall2_length in H.
    rewrite <- H. fold sorted. unfold runs.
    destruct sorted as [|first rest]; [done|].
    by apply runs_from_length. }
  split; [by apply Hcount|].
  rewrite (Hcount _ _ Hlow), (Hcount _ _ Hhigh).
  destruct sorted; [done|]. pose proof (breaks_antitone low high (n :: sorted) Hle). lia.
Qed.

Lemma built_blocks (groups : list (list normalized)) (blocks : list SleepBlock) :
  Forall2 (fun g b => _build_block g = Some b) groups blocks ->
  concat (map SleepBlocks.events blocks) = map original (concat groups)
  /\ fold_right Z.add 0 (map event_count blocks) = Z.of_nat (length (concat groups))
  /\ Forall (fun b => interruption_count b = event_count b - 1 /\ 1 <= event_count b)
       blocks.
Proof.
  induction 1 as [|g b gs bs Hb _ (IH1 & IH2 & IH3)]; [by repeat constructor|].
  apply build_block_fields in Hb as (first & ? & ? & Hhead & _ & _ & ->). simpl.
  split; [|split].
  - by rewrite IH1, map_app.
  - rewrite IH2, length_app. lia.
  - constructor; [|exact IH3]. simpl. split; [done|]. destruct g; [done|]. simpl. lia.
Qed.

(** X22.  Every record that normalizes is in exactly one block: the events
    of the blocks, taken in order, are the originals of the sorted records,
    a permutation of the originals of the records that normalize, and the
    event counts of the blocks add up to their number; each block holds at
    least one record and counts one interruption less than records. *)
Theorem blocks_hold_every_record_once (events : list event) (gap_threshold : Q)
    (source : string) (blocks : list SleepBlock) :
  group' events gap_threshold source = Some blocks ->
  concat (map SleepBlocks.events blocks) =
    map original (sort_by_start (normalize_all' events source))
  /\ Permutation (concat (map SleepBlocks.events blocks))
       (map original (normalize_all' events source))
  /\ fold_right Z.add 0 (map event_count blocks) =
     Z.of_nat (length (normalize_all' events source))
  /\ Forall (fun b => interruption_count b = event_count b - 1 /\ 1 <= event_count b)
       blocks.
Proof.
  intros Hgroup. apply group_blocks, built_blocks in Hgroup as (Hev & Hcnt & Hall).
  set (records := normalize_all' events source) in *.
  destruct (sort_by_start_spec records) as (Hperm & _ & _).
  rewrite (proj1 (runs_spec gap_threshold (sort_by_start records))) in Hev, Hcnt.
  split; [exact Hev|]. split; [|split; [|exact Hall]].
  - rewrite Hev. by apply Permutation_map.
  - rewrite Hcnt. by rewrite (Permutation_length Hperm).
Qed.

#[local] Instance starts_before_transitive : Transitive starts_before.
Proof. unfold starts_before. intros a b c ? ?. lia. Qed.

Lemma built_block_starts (groups : list (list normalized)) (blocks : list SleepBlock) :
  Forall2 (fun g b => _build_block g = Some b) groups blocks ->
  Forall (fun b => exists n, In n (concat groups) /\ block_start b = sleep_started_at n)
    blocks.
Proof.
  induction 1 as [|g b gs bs Hb _ IH]; constructor.
  - apply build_block_fields in Hb as (first & ? & ? & Hhead & _ & _ & ->). simpl.
    exists first. split; [|done]. apply List.in_or_app. left.
    destruct g; [done|]. injection Hhead as ->. by left.
  - eapply List.Forall_impl; [|exact IH]. intros b' (n & Hin & Hn).
    exists n. split; [|done]. simpl. apply List.in_or_app. by right.
Qed.

Lemma built_blocks_ascending (groups : list (list normalized))
    (blocks : list SleepBlock) :
  Forall2 (fun g b => _build_block g = Some b) groups blocks ->
  StronglySorted starts_before (concat groups) ->
  StronglySorted Z.le (map block_start blocks).
Proof.
  induction 1 as [|g b gs bs Hb Hrest IH]; intros Hsorted; [constructor|].
  simpl in Hsorted. apply StronglySorted_app in Hsorted as (Hcross & _ & Htail).
  simpl. constructor; [by apply IH|].
  apply build_block_fields in Hb as (first & ? & ? & Hhead & _ & _ & ->). simpl.
  apply List.Forall_forall. intros t Ht.
  apply List.in_map_iff in Ht as (b' & <- & Hb').
  pose proof (built_block_starts gs bs Hrest) as Hstarts.
  destruct (proj1 (List.Forall_forall _ _) Hstarts b' Hb') as (n & Hn & ->).
  apply (Hcross first n).
  - apply list_elem_of_In. destruct g; [done|]. injection Hhead as ->. by left.
  - by apply list_elem_of_In.
Qed.

(** X23.  The blocks come in ascending order of [block_start]. *)
Theorem blocks_ascend_by_start (events : list event) (gap_threshold : Q)
    (source : string) (blocks : list SleepBlock) :
  group' events gap_threshold source = Some blocks ->
  StronglySorted Z.le (map block_start blocks).
Proof.
  intros Hgroup. apply group_blocks in Hgroup.
  apply (built_blocks_ascending _ _ Hgroup).
  rewrite (proj1 (runs_spec _ _)).
  apply Sorted_StronglySorted; [apply _|].
  apply sort_by_start_spec.
Qed.

Lemma sort_by_start_permuted (l1 l2 : list normalized) :
  Permutation l1 l2 ->
  distinct_starts l1 ->
  sort_by_start l1 = sort_by_start l2.
Proof.
  intros Hperm Hdistinct.
  destruct (sort_by_start_spec l1) as (Hp1 & Hs1 & _).
  destruct (sort_by_start_spec l2) as (Hp2 & Hs2 & _).
  apply (Sorted_unique_strong starts_before); [|done|done|].
  - intros n1 n2 Hin1 Hin2 H12 H21. apply Hdistinct.
    + apply (Permutation_in _ Hp1). by apply list_elem_of_In.
    + apply (Permutation_in _ (Permutation_sym Hperm)).
      apply (Permutation_in _ Hp2). by apply list_elem_of_In.
    + unfold starts_before in *. lia.
  - by rewrite Hp1, Hp2.
Qed.

(** X24.  When no two records that normalize start at the same time, the
    aggregator does not depend on the order of its input: any rearrangement
    of the events gives the same answer. *)
Theorem aggregator_ignores_input_order (events events' : list event)
    (gap_threshold : Q) (source : string) :
  Permutation events events' ->
  distinct_starts (normalize_all' events source) ->
  group' events gap_threshold source = group' events' gap_threshold source.
Proof.
  intros Hperm Hdistinct. rewrite !group_as_runs.
  rewrite (sort_by_start_permuted (normalize_all' events source)
             (normalize_all' events' source)); [done| |done].
  unfold normalize_all. by apply omap_Permutation.
Qed.

Lemma replace_Z_app (s t : string) :
  replace_Z (String.append s t) = String.append (replace_Z s) (replace_Z t).
Proof.
  induction s as [|c s IH]; [done|]. simpl.
  destruct (Ascii.eqb c "Z"); simpl; by rewrite IH.
Qed.

Lemma replace_Z_free (s : string) : z_free s -> replace_Z s = s.
Proof.
  induction s as [|c s IH]; [done|]. intros [Hc Hs]. simpl.
  destruct (Ascii.eqb_spec c "Z"); [done|]. by rewrite IH.
Qed.

(** X25.  [_parse_timestamp] returns a datetime as it is and reads a text
    through [fromisoformat]: a text without the letter Z unchanged, a text
    ending in Z with the Z turned into the offset +00:00; anything that is
    neither a datetime nor a text, and a text [fromisoformat] rejects, is
    no timestamp. *)
Theorem parse_timestamp_reads_utc_suffix :
  (forall t, _parse_timestamp fromisoformat (VDatetime t) = Some t)
  /\ (forall s, z_free s ->
        _parse_timestamp fromisoformat (VStr s) = fromisoformat s
        /\ _parse_timestamp fromisoformat (VStr (String.append s "Z")) =
           fromisoformat (String.append s "+00:00"))
  /\ (forall v, (forall t, v <> VDatetime t) -> (forall s, v <> VStr s) ->
        _parse_timestamp fromisoformat v = None)
  /\ (forall s, fromisoformat (replace_Z s) = None ->
        _parse_timestamp fromisoformat (VStr s) = None).
Proof.
  split; [done|]. split; [|split; [|done]].
  - intros s Hs. simpl. rewrite replace_Z_app, (replace_Z_free s Hs). done.
  - intros v Hd Hs. destruct v; try done; [by destruct (Hs s) | by destruct (Hd t)].
Qed.

(** X26.  The metadata of an [events_for_period] record may be a
    dictionary or the JSON text of one: both normalize to the same
    timestamps and duration; a text that [json.loads] rejects, or that
    holds something other than a dictionary, drops the record. *)
Theorem metadata_text_or_dictionary (record record' : event) (text : string)
    (source : string) :
  shape source record = "events_for_period"%string ->
  shape source record' = "events_for_period"%string ->
  record !! "event_metadata" = Some (VStr text) ->
  (forall metadata, json_loads text = Some (VDict metadata) ->
     record' !! "event_metadata" = Some (VDict metadata) ->
     let n := _normalize_event fromisoformat json_loads record source in
     let n' := _normalize_event fromisoformat json_loads record' source in
     sleep_started_at <$> n = sleep_started_at <$> n'
     /\ awakened_at <$> n = awakened_at <$> n'
     /\ duration_minutes <$> n = duration_minutes <$> n'
     /\ original <$> n = (fun _ => record) <$> n')
  /\ ((forall metadata, json_loads text <> Some (VDict metadata)) ->
      _normalize_event fromisoformat json_loads record source = None).
Proof.
  intros Hshape Hshape' Htext. unfold shape in *. split.
  - intros metadata Hjson Hdict. cbv zeta. unfold _normalize_event.
    rewrite Hshape, Hshape', Htext, Hdict. simpl. rewrite Hjson.
    destruct (_parse_timestamp fromisoformat (get metadata "sleep_started_at"));
      [|done].
    by destruct (_parse_timestamp fromisoformat (get metadata "awakened_at")).
  - intros Hbad. unfold _normalize_event. rewrite Hshape, Htext. simpl.
    destruct (json_loads text) as [[| | | |metadata]|]; try done.
    by destruct (Hbad metadata).
Qed.

End AggregatorMore.

(** ** The further properties at concrete inputs *)

(** X2, witness: the sixth Asleep reading of confidence 100 is answered,
    with six readings in the window. *)
Lemma feed_answer_needs_readings_witness :
  let period := Ticks.ESP32_TICKS_PERIOD in
  let self := Debouncer.run_feeds period five_readings Debouncer.verdict_debouncer in
  CapSpec.capped 100 (Debouncer._buffer self)
  /\ snd (Debouncer.feed period 10000 "Asleep" 100 self) = Some "Asleep"%string
  /\ 6 <= ConsensusSpec.count_of
            (Debouncer._buffer (fst (Debouncer.feed period 10000 "Asleep" 100 self)))
            "Asleep".
Proof.
  intros period self.
  assert (Hcap : CapSpec.capped 100 (Debouncer._buffer self)).
  { vm_compute. repeat (constructor; [discriminate|]). constructor. }
  assert (Hans : snd (Debouncer.feed period 10000 "Asleep" 100 self) = Some "Asleep"%string)
    by (vm_compute; reflexivity).
  split; [exact Hcap|]. split; [exact Hans|].
  apply (proj2 (feed_answer_needs_readings period 100 10000 "Asleep" 100 self "Asleep"
                  Hcap ltac:(lia) Hans)); reflexivity.
Defined.

(** X3, witness: five readings of confidence 100 post nothing. *)
Lemma camera_steps_quiet_start_witness :
  let period := Ticks.ESP32_TICKS_PERIOD in
  Forall (fun r : Z * string * Z => snd r <= 100) five_readings
  /\ snd (DeviceLoop.camera_steps period
            (Debouncer.verdict_debouncer, StateMachine.initial_state) five_readings) = []
  /\ snd (fst (DeviceLoop.camera_steps period
                 (Debouncer.verdict_debouncer, StateMachine.initial_state) five_readings))
     = StateMachine.initial_state.
Proof.
  intros period.
  assert (Hall : Forall (fun r : Z * string * Z => snd r <= 100) five_readings).
  { vm_compute. repeat (constructor; [discriminate|]). constructor. }
  split; [exact Hall|].
  apply (camera_steps_quiet_start period 100 five_readings Debouncer.verdict_debouncer
           StateMachine.initial_state ltac:(lia) eq_refl Hall).
  vm_compute. reflexivity.
Defined.

(** X5, witness: the samples -32768 and 32767 and an odd last byte. *)
Lemma pcm16_le_peak_witness :
  Forall MicrophoneSpec.is_byte [0; 128; 255; 127; 1]
  /\ Microphone.pcm16_le_peak [0; 128; 255; 127; 1] = 32768
  /\ MicrophoneSpec.samples [0; 128; 255; 127; 1] = [-32768; 32767].
Proof.
  assert (Hb : Forall MicrophoneSpec.is_byte [0; 128; 255; 127; 1]).
  { repeat (constructor; [unfold MicrophoneSpec.is_byte; lia|]). constructor. }
  split; [exact Hb|].
  destruct (pcm16_le_peak_is_max_magnitude [0; 128; 255; 127; 1] Hb) as (Heq & _).
  split; [rewrite Heq; reflexivity | reflexivity].
Defined.

(** X12, witness: a sleep-start for a baby the database does not know. *)
Lemma sleep_start_outside_cooldown_witness :
  snd (SleepState.is_in_cooldown 0 7 SleepState.init) = false
  /\ snd (SensorEvents.sleep_start 0 0 0 [10] 7 SleepState.init) = SensorEvents.NotFound
  /\ SleepState._sleeping_babies
       (fst (SensorEvents.sleep_start 0 0 0 [10] 7 SleepState.init)) =
     SleepState._sleeping_babies SleepState.init.
Proof.
  split; [reflexivity|].
  exact (proj1 (sleep_start_outside_cooldown 0 0 0 [10] 7 SleepState.init eq_refl)
           eq_refl).
Defined.

(** X13, witness: a sleep-end one second after the sleep-start, recorded
    as event 1: the answer carries 0.02 minutes, and the session is gone. *)
Lemma sleep_end_outside_cooldown_witness :
  let sleeping := fst (SleepState.start_sleep 0 10 SleepState.init) in
  let served := SensorEvents.sleep_end 1000000 1000000 1000000 (Some 1) 10 sleeping in
  snd (SleepState.is_in_cooldown 1000000 10 sleeping) = false
  /\ (exists minutes,
        snd served = SensorEvents.AwakeningEventResponse 10 1 0 1000000 minutes
        /\ RoundingSpec.nearest_hundredth (1000000 # 60000000) minutes
        /\ minutes = 1 # 50)
  /\ SleepState._sleeping_babies (fst served) !! 10 = None.
Proof.
  intros sleeping served. subst served. split; [reflexivity|].
  destruct (proj2 (sleep_end_outside_cooldown 1000000 1000000 1000000 (Some 1) 10
                     sleeping eq_refl)
              {| SleepState.baby_id := 10; SleepState.start_time := 0 |} eq_refl)
    as [Hreg (minutes & Hans & Hnear)].
  split.
  - exists minutes. split; [exact Hans|]. split; [exact Hnear|].
    assert (Hcode : snd (SensorEvents.sleep_end 1000000 1000000 1000000 (Some 1) 10
                           sleeping) =
                    SensorEvents.AwakeningEventResponse 10 1 0 1000000 (1 # 50))
      by (vm_compute; reflexivity).
    rewrite Hans in Hcode. by injection Hcode.
  - rewrite Hreg. apply lookup_delete_eq.
Defined.

(** X15, witness: a sleep-end and a sleep-start of the sensor, five and ten
    minutes after the parent marked baby 10 asleep. *)
Lemma override_holds_against_sensor_witness :
  let rs := [ServerSpec.SleepEnd 300000000 300000000 300000000 (Some 1) 10;
             ServerSpec.SleepStart 600000000 600000000 600000000 [10] 10] in
  Forall (ServerSpec.sensor_event_before 10 (0 + 1200000000)) rs
  /\ ServerSpec.serve_all overridden rs = overridden.
Proof.
  intros rs.
  assert (Hrs : Forall (ServerSpec.sensor_event_before 10 (0 + 1200000000)) rs).
  { repeat (constructor; [simpl; lia|]). constructor. }
  split; [exact Hrs|].
  exact (proj1 (override_holds_against_sensor 0 0 [10] 10 "mark_asleep"
                  SleepState.init rs eq_refl eq_refl Hrs)).
Defined.

(** X16, witness: a sleep-start checked one microsecond before the cooldown
    of the override ends and read at its end. *)
Lemma cooldown_expiring_during_request_witness :
  SleepState._intervention_cooldowns overridden !! 10 = Some 1200000000
  /\ 1199999999 < 1200000000 <= 1200000000
  /\ snd (SensorEvents.sleep_start 1199999999 1200000000 1200000000 [10] 10 overridden)
     = SensorEvents.CooldownIgnored None.
Proof.
  assert (E : SleepState._intervention_cooldowns overridden !! 10 = Some 1200000000)
    by (vm_compute; reflexivity).
  split; [exact E|]. split; [lia|].
  destruct (cooldown_expiring_during_request 1200000000 0 1199999999 1200000000
              1200000000 [10] None 10 overridden E ltac:(lia)) as [-> _].
  reflexivity.
Defined.

(** X19, witness: the two sessions and a third whose duration is a text. *)
Lemma aggregator_fails_on_bad_duration_witness :
  let events := two_sessions ++ [text_duration_session] in
  (exists n,
     SleepBlocks._normalize_event no_iso no_json text_duration_session "auto" = Some n
     /\ SleepBlocks.duration_minutes n = SleepBlocks.VStr "30")
  /\ SleepBlocks.group_into_sleep_blocks no_iso no_json events (30 # 1) "auto" = None.
Proof.
  intros events.
  set (n := {| SleepBlocks.sleep_started_at := clock_time 11 30;
               SleepBlocks.awakened_at := clock_time 12 0;
               SleepBlocks.duration_minutes := SleepBlocks.VStr "30";
               SleepBlocks.original := text_duration_session |}).
  assert (Hn : SleepBlocks._normalize_event no_iso no_json text_duration_session "auto"
               = Some n) by reflexivity.
  split; [by exists n|].
  apply (aggregator_fails_on_bad_duration no_iso no_json events (30 # 1) "auto"
           text_duration_session n).
  - right. right. left. reflexivity.
  - exact Hn.
  - intros [q Hq]. discriminate Hq.
Defined.

(** X21, witness: the two sessions give two blocks at a threshold of 10
    minutes and one at 30. *)
Lemma block_count_by_gaps_witness :
  exists blocks_low blocks_high,
    SleepBlocks.group_into_sleep_blocks no_iso no_json two_sessions (10 # 1) "auto"
      = Some blocks_low
    /\ SleepBlocks.group_into_sleep_blocks no_iso no_json two_sessions (30 # 1) "auto"
       = Some blocks_high
    /\ length blocks_low = 2%nat
    /\ (length blocks_high <= length blocks_low)%nat.
Proof.
  destruct (SleepBlocks.group_into_sleep_blocks no_iso no_json two_sessions (10 # 1) "auto")
    as [blocks_low|] eqn:Hlow; [|vm_compute in Hlow; discriminate].
  destruct (SleepBlocks.group_into_sleep_blocks no_iso no_json two_sessions (30 # 1) "auto")
    as [blocks_high|] eqn:Hhigh; [|vm_compute in Hhigh; discriminate].
  exists blocks_low, blocks_high. split; [done|]. split; [done|].
  destruct (block_count_by_gaps no_iso no_json two_sessions (10 # 1) (30 # 1) "auto"
              blocks_low blocks_high ltac:(vm_compute; discriminate) Hlow Hhigh)
    as [Hcount Hle].
  split; [rewrite Hcount; vm_compute; reflexivity | exact Hle].
Defined.

(** X22, witness: the two sessions, merged into one block of two events. *)
Lemma blocks_hold_every_record_once_witness :
  exists blocks,
    SleepBlocks.group_into_sleep_blocks no_iso no_json two_sessions (30 # 1) "auto"
      = Some blocks
    /\ fold_right Z.add 0 (map SleepBlocks.event_count blocks) = 2.
Proof.
  destruct (SleepBlocks.group_into_sleep_blocks no_iso no_json two_sessions (30 # 1) "auto")
    as [blocks|] eqn:H; [|vm_compute in H; discriminate].
  exists blocks. split; [done|].
  destruct (blocks_hold_every_record_once no_iso no_json two_sessions (30 # 1) "auto"
              blocks H) as (_ & _ & Hcount & _).
  rewrite Hcount. vm_compute. reflexivity.
Defined.

(** X23, witness: the two sessions at a threshold of 10 minutes. *)
Lemma blocks_ascend_by_start_witness :
  exists blocks,
    SleepBlocks.group_into_sleep_blocks no_iso no_json two_sessions (10 # 1) "auto"
      = Some blocks
    /\ StronglySorted Z.le (map SleepBlocks.block_start blocks).
Proof.
  destruct (SleepBlocks.group_into_sleep_blocks no_iso no_json two_sessions (10 # 1) "auto")
    as [blocks|] eqn:H; [|vm_compute in H; discriminate].
  exists blocks. split; [done|].
  exact (blocks_ascend_by_start no_iso no_json two_sessions (10 # 1) "auto" blocks H).
Defined.

(** X24, witness: the two sessions, given in either order. *)
Lemma aggregator_ignores_input_order_witness :
  Permutation two_sessions (rev two_sessions)
  /\ RunsSpec.distinct_starts (SleepBlocks.normalize_all no_iso no_json two_sessions "auto")
  /\ SleepBlocks.group_into_sleep_blocks no_iso no_json two_sessions (30 # 1) "auto" =
     SleepBlocks.group_into_sleep_blocks no_iso no_json (rev two_sessions) (30 # 1) "auto".
Proof.
  assert (Hperm : Permutation two_sessions (rev two_sessions))
    by apply Permutation_rev.
  assert (Hdistinct : RunsSpec.distinct_starts
            (SleepBlocks.normalize_all no_iso no_json two_sessions "auto")).
  { intros n1 n2 Hin1 Hin2 Heq.
    change (SleepBlocks.normalize_all no_iso no_json two_sessions "auto") with
      [ {| SleepBlocks.sleep_started_at := clock_time 10 45;
           SleepBlocks.awakened_at := clock_time 11 0;
           SleepBlocks.duration_minutes := SleepBlocks.VNum (15 # 1);
           SleepBlocks.original :=
             session_record (clock_time 10 45) (clock_time 11 0) (15 # 1) |};
        {| SleepBlocks.sleep_started_at := clock_time 10 0;
           SleepBlocks.awakened_at := clock_time 10 30;
           SleepBlocks.duration_minutes := SleepBlocks.VNum (30 # 1);
           SleepBlocks.original :=
             session_record (clock_time 10 0) (clock_time 10 30) (30 # 1) |} ]
      in Hin1, Hin2.
    destruct Hin1 as [<-|[<-|[]]], Hin2 as [<-|[<-|[]]];
      first [reflexivity | vm_compute in Heq; discriminate]. }
  split; [exact Hperm|]. split; [exact Hdistinct|].
  exact (aggregator_ignores_input_order no_iso no_json two_sessions (rev two_sessions)
           (30 # 1) "auto" Hperm Hdistinct).
Defined.

(** X26, witness: an awakening whose metadata is a JSON text, and the same
    with the dictionary. *)
Lemma metadata_text_or_dictionary_witness :
  let record := period_record (SleepBlocks.VStr sample_text) in
  let record' := period_record (SleepBlocks.VDict sample_metadata) in
  BlocksSpec.shape "auto" record = "events_for_period"%string
  /\ BlocksSpec.shape "auto" record' = "events_for_period"%string
  /\ record !! "event_metadata" = Some (SleepBlocks.VStr sample_text)
  /\ SleepBlocks.sleep_started_at <$>
       SleepBlocks._normalize_event no_iso sample_json record "auto" =
     Some (clock_time 10 0).
Proof.
  intros record record'.
  assert (H1 : BlocksSpec.shape "auto" record = "events_for_period"%string)
    by reflexivity.
  assert (H2 : BlocksSpec.shape "auto" record' = "events_for_period"%string)
    by reflexivity.
  assert (H3 : record !! "event_metadata" = Some (SleepBlocks.VStr sample_text))
    by reflexivity.
  split; [exact H1|]. split; [exact H2|]. split; [exact H3|].
  destruct (proj1 (metadata_text_or_dictionary no_iso sample_json record record'
                     sample_text "auto" H1 H2 H3) sample_metadata eq_refl eq_refl)
    as (-> & _).
  vm_compute. reflexivity.
Defined.

(** X27, witness: a sleep-end of the sensor twenty minutes after the parent
    marked baby 10 asleep. *)
Lemma override_wears_off_witness :
  0 + 1200000000 <= 1200000000
  /\ SleepState._sleeping_babies
       (fst (SensorEvents.sleep_end 1200000000 1200000000 1200000000 (Some 1) 10
               overridden)) !! 10 = None.
Proof.
  split; [lia|].
  exact (proj1 (proj2 (proj2 (proj2 (proj2
           (override_wears_off 0 0 1200000000 1200000000 1200000000 1200000000
              [10] (Some 1) 10 "mark_asleep" SleepState.init eq_refl eq_refl
              ltac:(lia))))))).
Defined.
